(** * cleaning_check: the per-image analysis pipeline of [chatgpt_cleaning_check.py]

    A shallow embedding of the verdict engine, the classification client with
    its retry policy, the per-image worker [_analyze_one] and the batch
    orchestrator [analyze_headless], followed by the properties the
    specification states about them.

    Conventions.
    - A Python [str] is the list of its Unicode code points ([str]); the
      literals of the source are written [py "..."], which decodes the UTF-8
      bytes of the Rocq literal.
    - A Python [float] is a binary64 number ([PrimFloat.float]); [v >= th] is
      [PrimFloat.leb th v].
    - A Python [dict] is a [gmap]; a dynamically typed value is a [pyval].
    - A call that may raise returns [exn + A] ([inl] is the raised exception).
    - Everything the code asks of PIL, numpy, OpenCV, the file system and the
      remote model is a field of [Runtime] or of the per-task [world].

    A second part goes beyond the pipeline: the archives of the exporters,
    the result view of [cleaning_check_webapp.py], and the recording of a run
    by [services.py] and [db.py], with the properties the code shows of
    them. *)

From Stdlib Require Import ZArith NArith List String Ascii Bool Lia.
From Stdlib Require Import Sorting.Sorted Sorting.Permutation.
From Stdlib Require Import Floats.PrimFloat.
From stdpp Require Import gmap strings list fin_maps sorting.

#[local] Set Warnings "-inexact-float,-register-all".
#[local] Open Scope list_scope.

(** ** Python strings *)

Module PyStr.

(** A [str] is a sequence of code points. *)
Definition str := list N.

(** UTF-8 decoding of the bytes of a literal: [need] continuation bytes are
    still expected for the code point accumulated in [acc]. *)
Fixpoint utf8_decode (bs : list N) (need : nat) (acc : N) : str :=
  match bs with
  | [] => []
  | b :: bs' =>
      match need with
      | O =>
          if (b <? 128)%N then b :: utf8_decode bs' 0 0%N
          else if (b <? 224)%N then utf8_decode bs' 1 (N.land b 31)
          else if (b <? 240)%N then utf8_decode bs' 2 (N.land b 15)
          else utf8_decode bs' 3 (N.land b 7)
      | S n =>
          let acc' := (acc * 64 + N.land b 63)%N in
          match n with
          | O => acc' :: utf8_decode bs' 0 0%N
          | S _ => utf8_decode bs' n acc'
          end
      end
  end.

Definition py (s : string) : str :=
  utf8_decode (map N_of_ascii (list_ascii_of_string s)) 0 0%N.

(** [sep.join(parts)] *)
Fixpoint join (sep : str) (parts : list str) : str :=
  match parts with
  | [] => []
  | [p] => p
  | p :: ps => p ++ sep ++ join sep ps
  end.

(** [s.startswith(w)] *)
Fixpoint startswith (w s : str) : bool :=
  match w, s with
  | [], _ => true
  | _ :: _, [] => false
  | a :: w', b :: s' => (a =? b)%N && startswith w' s'
  end.

(** All suffixes of [s], from the whole string down to the empty one: the
    start positions a left-to-right scan tries. *)
Fixpoint tails (s : str) : list str :=
  match s with
  | [] => [[]]
  | _ :: s' => s :: tails s'
  end.

(** [w in s] for two strings. *)
Definition contains (w s : str) : bool := existsb (startswith w) (tails s).

(** The truth value of a string: [bool(w)]. *)
Definition truthy (w : str) : bool :=
  match w with [] => false | _ :: _ => true end.

(** [str.isspace] for one code point: the characters [str.strip()] removes. *)
Definition is_space (c : N) : bool :=
  ((9 <=? c) && (c <=? 13) || (28 <=? c) && (c <=? 32) || (c =? 133) || (c =? 160)
   || (c =? 5760) || (8192 <=? c) && (c <=? 8202) || (c =? 8232) || (c =? 8233)
   || (c =? 8239) || (c =? 8287) || (c =? 12288))%N.

Fixpoint lstrip (s : str) : str :=
  match s with
  | [] => []
  | c :: s' => if is_space c then lstrip s' else s
  end.

(** [s.strip()] *)
Definition strip (s : str) : str := rev (lstrip (rev (lstrip s))).

(** The line boundaries of [str.splitlines]. *)
Definition is_linebreak (c : N) : bool :=
  ((10 <=? c) && (c <=? 13) || (28 <=? c) && (c <=? 30) || (c =? 133)
   || (c =? 8232) || (c =? 8233))%N.

(** [s.splitlines()]: [cur] is the current line, reversed; a carriage return
    followed by a line feed is one boundary; no empty last line. *)
Fixpoint splitlines_aux (s : str) (cur : str) : list str :=
  match s with
  | [] => match cur with [] => [] | _ :: _ => [rev cur] end
  | c :: s' =>
      if is_linebreak c then
        match c, s' with
        | 13%N, 10%N :: s'' => rev cur :: splitlines_aux s'' []
        | _, _ => rev cur :: splitlines_aux s' []
        end
      else splitlines_aux s' (c :: cur)
  end.

Definition splitlines (s : str) : list str := splitlines_aux s [].

End PyStr.
Export PyStr.

(** ** Regular expressions

    The fragment of [re] the module compiles: literals, alternation,
    concatenation and [.{0,n}].  Without [re.DOTALL] the dot matches every
    character but the line feed. *)

Module Re.

Inductive regex :=
| Lit (w : str)
| Alt (r1 r2 : regex)
| Cat (r1 r2 : regex)
| AnyUpTo (n : nat).

(** [(w1|w2|...)] *)
Fixpoint alts (w : str) (ws : list str) : regex :=
  match ws with
  | [] => Lit w
  | w' :: ws' => Alt (Lit w) (alts w' ws')
  end.

(** The remainders [.{0,n}] leaves, the longest match first (greedy). *)
Fixpoint dots (n : nat) (s : str) : list str :=
  match n, s with
  | S n', c :: s' => if (c =? 10)%N then [s] else dots n' s' ++ [s]
  | _, _ => [s]
  end.

(** Backtracking matcher: every way of matching [r] at the start of [s], as
    the text left after the match, in the order the engine tries them. *)
Fixpoint rmatch (r : regex) (s : str) : list str :=
  match r with
  | Lit w => if startswith w s then [drop (length w) s] else []
  | Alt r1 r2 => rmatch r1 s ++ rmatch r2 s
  | Cat r1 r2 => flat_map (rmatch r2) (rmatch r1 s)
  | AnyUpTo n => dots n s
  end.

Definition match_at (r : regex) (s : str) : bool :=
  match rmatch r s with [] => false | _ :: _ => true end.

(** [bool(r.search(s))]: some start position has a match. *)
Definition search (r : regex) (s : str) : bool := existsb (match_at r) (tails s).

End Re.
Export Re.

(** ** Comment rules (Japanese) *)

Definition KW_words : list str :=
  map py ["髪の毛"; "毛髪"; "抜け毛"; "ほこり"; "ホコリ"; "埃"]%string.

Definition NEG_words : list str :=
  map py ["ない"; "ありません"; "無し"; "なし"; "見当たらない"; "見受けられません";
          "ほぼない"; "ほとんどない"; "少ない"; "目立たない"; "見られません";
          "認められません"; "見受けにくい"; "確認できず"; "確認できません"]%string.

Definition POS_words : list str :=
  map py ["清潔"; "清掃状態は良好"; "概ね良好"; "問題なし"; "良好"; "綺麗"; "きれい";
          "整頓"; "整えられている"; "清潔感がある"; "不自然な点はない";
          "不自然さは感じられない"]%string.

Definition alts_of (ws : list str) : regex :=
  match ws with
  | [] => Lit []
  | w :: ws' => alts w ws'
  end.

Definition KW : regex := alts_of KW_words.
Definition NEG : regex := alts_of NEG_words.
Definition POS : regex := alts_of POS_words.

Definition NEG_AFTER : regex := Cat KW (Cat (AnyUpTo 12) NEG).
Definition NEG_BEFORE : regex := Cat NEG (Cat (AnyUpTo 12) KW).
Definition POS_ANY : regex := POS.
Definition POS_NEAR : regex :=
  Alt (Cat KW (Cat (AnyUpTo 12) POS)) (Cat POS (Cat (AnyUpTo 12) KW)).
Definition ANY_KW : regex := KW.

(** ** Verdict engine *)

Definition v_ok : str := py "ok".
Definition v_ng : str := py "ng".
Definition v_unknown : str := py "unknown".

(** [any(w and w in txt for w in words)]: the loop of both text stages. *)
Definition any_word_in (words : list str) (txt : str) : bool :=
  existsb (fun w => truthy w && contains w txt) words.

Definition refine_verdict_by_text (verdict : str) (comments : list str)
    (ok_whitelist : list str) : str :=
  let txt := join (py " ") comments in
  if any_word_in ok_whitelist txt then v_ok
  else if search NEG_AFTER txt || search NEG_BEFORE txt || search POS_NEAR txt then v_ok
  else if search POS_ANY txt then v_ok
  else if search ANY_KW txt then v_ng
  else verdict.

(** ** Dynamically typed values, exceptions, effects *)

Definition bytes := list Byte.byte.

(** What [json.loads] returns and what the configuration dictionaries hold. *)
Inductive pyval :=
| PNone
| PBool (b : bool)
| PInt (z : Z)
| PFloat (f : float)
| PStr (s : str)
| PList (l : list pyval)
| PDict (d : gmap str pyval).

(** [bool(v)] *)
Definition py_truthy (v : pyval) : bool :=
  match v with
  | PNone => false
  | PBool b => b
  | PInt z => negb (z =? 0)%Z
  | PFloat f => negb (PrimFloat.eqb f 0%float)
  | PStr s => truthy s
  | PList l => match l with [] => false | _ :: _ => true end
  | PDict d => negb (bool_decide (size d = 0))
  end.

(** [type(v).__name__] *)
Definition type_name (v : pyval) : string :=
  match v with
  | PNone => "NoneType"
  | PBool _ => "bool"
  | PInt _ => "int"
  | PFloat _ => "float"
  | PStr _ => "str"
  | PList _ => "list"
  | PDict _ => "dict"
  end.

(** A raised exception: its class and [str(e)]. *)
Record exn := Exn { exn_class : string; exn_msg : str }.

Definition TypeError (msg : string) : exn := Exn "TypeError" (py msg).
Definition AttributeError (msg : string) : exn := Exn "AttributeError" (py msg).
Definition RuntimeError (msg : string) : exn := Exn "RuntimeError" (py msg).

(** The result of a call that may raise. *)
Definition result (A : Type) : Type := exn + A.

#[global] Instance result_ret : MRet result := fun A a => inr a.
#[global] Instance result_bind : MBind result := fun A B f m =>
  match m with inl e => inl e | inr a => f a end.
#[global] Instance result_fmap : FMap result := fun A B f m =>
  match m with inl e => inl e | inr a => inr (f a) end.

(** What one worker task sees of the outside world, and what it did to it.
    The workers share nothing but the output directory, to which they write
    under names that differ by index, so each task has a world of its own. *)
Record world := World {
  remote : nat -> result pyval;   (* the outcome of the task's k-th request:
                                     [create(...)] then [json.loads] *)
  writable : str -> bool;         (* can this path be opened for writing *)
  requests : list bytes;          (* image payloads sent, oldest first *)
  sleeps : list nat;              (* back-off waits made, oldest first *)
  saved : list (str * bytes);     (* files written, oldest first *)
}.

(** A computation of a task: it may raise, and it changes the world. *)
Definition task (A : Type) : Type := world -> result A * world.

#[global] Instance task_ret : MRet task := fun A a w => (inr a, w).
#[global] Instance task_bind : MBind task := fun A B f m w =>
  match m w with
  | (inl e, w') => (inl e, w')
  | (inr a, w') => f a w'
  end.

Definition raise {A} (e : exn) : task A := fun w => (inl e, w).
Definition lift {A} (r : result A) : task A := fun w => (r, w).

(** [try: body  except Exception as e: handler(e)] *)
Definition try_except {A} (body : task A) (handler : exn -> task A) : task A :=
  fun w =>
    match body w with
    | (inl e, w') => handler e w'
    | (inr a, w') => (inr a, w')
    end.

(** One request to the remote model. *)
Definition remote_request (data : bytes) : task pyval := fun w =>
  (remote w (length (requests w)),
   World (remote w) (writable w) (requests w ++ [data]) (sleeps w) (saved w)).

Definition sleep (t : nat) : task unit := fun w =>
  (inr tt, World (remote w) (writable w) (requests w) (sleeps w ++ [t]) (saved w)).

(** [open(path, "wb").write(data)] inside [try ... except Exception: pass]. *)
Definition write_file_quietly (path : str) (data : bytes) : task unit := fun w =>
  (inr tt,
   if writable w path
   then World (remote w) (writable w) (requests w) (sleeps w) (saved w ++ [(path, data)])
   else w).

(** ** tenacity's [retry] decorator

    [retry(reraise=True, stop=stop_after_attempt(n), wait=wait_exponential(...),
    retry=retry_if_exception_type(Exception))]: attempts are numbered from 1;
    after a failed attempt number [a] the decorator re-raises the exception
    when [a >= n] and otherwise sleeps [wait a] and tries again. *)

Module Tenacity.

(** [wait_exponential(multiplier, min, max)] after attempt [a]:
    [max(max(0, min), min(multiplier * 2 ** (a - 1), max))]. *)
Definition wait_exponential (multiplier min max : nat) (a : nat) : nat :=
  Nat.max (Nat.max 0 min) (Nat.min (multiplier * 2 ^ (a - 1)) max).

(** [left] more attempts are allowed after attempt number [a]. *)
Fixpoint attempts {A} (wait : nat -> nat) (left : nat) (a : nat)
    (body : task A) : task A :=
  fun w =>
    match body w with
    | (inr x, w') => (inr x, w')
    | (inl e, w') =>
        match left with
        | O => (inl e, w')
        | S left' =>
            match sleep (wait a) w' with
            | (_, w'') => attempts wait left' (S a) body w''
            end
        end
    end.

Definition retry {A} (stop_after_attempt : nat) (wait : nat -> nat)
    (body : task A) : task A :=
  attempts wait (stop_after_attempt - 1) 1 body.

End Tenacity.

(** ** The libraries the module calls *)

Record Runtime := {
  image : Type;
  (* PIL *)
  Image_open_RGB : bytes -> result image;   (* Image.open(io.BytesIO(b)).convert("RGB") *)
  image_size : image -> nat * nat;          (* img.size *)
  ImageOps_contain : image -> nat * nat -> image;   (* ImageOps.contain(img, size) *)
  save_jpeg : image -> nat -> result bytes; (* img.save(buf, format="JPEG", quality=q) *)
  (* OpenCV and numpy, each on [ar = np.array(img.convert("L"))]; every one
     of these calls may raise *)
  _HAS_CV2 : bool;
  laplacian_var : image -> result float;    (* cv2.Laplacian(ar, cv2.CV_64F).var() *)
  gray_mean : image -> result float;        (* ar.mean() *)
  gray_over_240 : image -> result float;    (* (ar > 240).mean() *)
  (* builtins on values that are not already of the target type *)
  float_of_int : Z -> result float;         (* float(z) *)
  float_of_str : str -> result float;       (* float(s) *)
  str_of : pyval -> str;                    (* str(v) for v not a str *)
}.

Section Pipeline.

Context (rt : Runtime).

(** [float(v)] *)
Definition py_float (v : pyval) : result float :=
  match v with
  | PFloat f => inr f
  | PBool b => inr (if b then 1%float else 0%float)
  | PInt z => float_of_int rt z
  | PStr s => float_of_str rt s
  | PNone | PList _ | PDict _ =>
      inl (TypeError "float() argument must be a string or a real number")
  end.

(** [str(v)] *)
Definition py_str (v : pyval) : str :=
  match v with
  | PStr s => s
  | _ => str_of rt v
  end.

(** *** Utilities *)

Definition image_to_jpeg_bytes (img : image rt) (quality : nat) : result bytes :=
  save_jpeg rt img quality.

Definition load_and_resize (raw : bytes) (max_long_edge : nat)
    : result (bytes * (nat * nat)) :=
  img ← Image_open_RGB rt raw;
  let img :=
    if max_long_edge <? Nat.max (fst (image_size rt img)) (snd (image_size rt img))
    then ImageOps_contain rt img (max_long_edge, max_long_edge)
    else img in
  b ← image_to_jpeg_bytes img 80;
  mret (b, image_size rt img).

Definition flag_blur : str := py "blur".
Definition flag_dark : str := py "dark".
Definition flag_overexpose : str := py "overexpose".

(** The body of the [try] of [_calc_basic_quality_flags]: the flags appended
    so far, and whether a step raised ([inl]) or the body ran to its end.
    [flags] is the list the source appends to in place, so what was appended
    before a step raises is still in it. *)
Definition quality_flags_body (img : image rt) : list str + list str :=
  let flags : list str := [] in
  match
    (if _HAS_CV2 rt then
       match laplacian_var rt img with
       | inl _ => inl flags
       | inr var => inr (if PrimFloat.ltb var 80%float then flags ++ [flag_blur] else flags)
       end
     else inr flags)
  with
  | inl flags => inl flags
  | inr flags =>
      match gray_mean rt img with
      | inl _ => inl flags
      | inr mean =>
          let flags := if PrimFloat.ltb mean 60%float then flags ++ [flag_dark] else flags in
          match gray_over_240 rt img with
          | inl _ => inl flags
          | inr over =>
              inr (if PrimFloat.ltb 0.40%float over then flags ++ [flag_overexpose] else flags)
          end
      end
  end.

(** [except Exception: pass], then [return flags]. *)
Definition _calc_basic_quality_flags (img : image rt) : list str :=
  match quality_flags_body img with
  | inl flags => flags
  | inr flags => flags
  end.

(** *** OpenAI client *)

Record OpenAIClient := {
  model_name : str;
  _client : option str;     (* the SDK client, made from the key, or [None] *)
}.

(** [OpenAIClient(model_name, api_key)]; the organisation and project read
    from the environment only decorate the SDK client and are left out. *)
Definition OpenAIClient_init (model : option str) (api_key : option str) : OpenAIClient :=
  let api_key := strip (default [] api_key) in
  {| model_name := strip (default [] model);
     _client := if truthy api_key then Some api_key else None |}.

Definition available (c : OpenAIClient) : bool :=
  match _client c with
  | Some _ => truthy (model_name c)
  | None => false
  end.

(** The undecorated body of [analyze_one]. *)
Definition analyze_one_body (c : OpenAIClient) (data : bytes) : task pyval :=
  if negb (available c) then raise (RuntimeError "OpenAIClient not available")
  else remote_request data.

Definition analyze_one (c : OpenAIClient) (data : bytes) : task pyval :=
  Tenacity.retry 3 (Tenacity.wait_exponential 1 1 30) (analyze_one_body c data).

(** *** Access to dynamically typed data *)

(** [d.get(...)] on the parsed response: only a [dict] has [get]. *)
Definition as_dict (d : pyval) : result (gmap str pyval) :=
  match d with
  | PDict m => inr m
  | _ => inl (AttributeError "object has no attribute 'get'")
  end.

(** [{k: float(v) for k, v in items}] *)
Fixpoint float_items (items : list (str * pyval)) : result (list (str * float)) :=
  match items with
  | [] => inr []
  | (k, v) :: items' =>
      f ← py_float v;
      rest ← float_items items';
      mret ((k, f) :: rest)
  end.

(** The iteration [for w in recheck_words or []]. *)
Definition iter_or_empty (v : pyval) : result (list pyval) :=
  if negb (py_truthy v) then inr []
  else match v with
       | PList l => inr l
       | PStr s => inr (map (fun c => PStr [c]) s)
       | PDict d => inr (map (fun kv => PStr (fst kv)) (map_to_list d))
       | _ => inl (TypeError "object is not iterable")
       end.

(** The loop body [if w and w in txt: return "unknown"]: [true] when the
    loop returns, [false] when it runs to its end. *)
Fixpoint recheck_loop (ws : list pyval) (txt : str) : result bool :=
  match ws with
  | [] => inr false
  | w :: ws' =>
      if py_truthy w then
        match w with
        | PStr s => if contains s txt then inr true else recheck_loop ws' txt
        | _ => inl (TypeError ("'in <string>' requires string as left operand, not "
                               ++ type_name w))
        end
      else recheck_loop ws' txt
  end.

Definition force_recheck_by_text (verdict : str) (comments : list str)
    (recheck_words : pyval) : result str :=
  let txt := join (py " ") comments in
  ws ← iter_or_empty recheck_words;
  hit ← recheck_loop ws txt;
  mret (if (hit : bool) then v_unknown else verdict).

(** *** One image *)

Record ImageResult := {
  index : nat;
  file : str;
  labels : pyval;
  scores : gmap str float;
  comments : list str;
  quality_flags : list str;
  verdict : str;
  stage : str;
  presence : gmap str pyval;
}.

(** An element of [files]. *)
Inductive blob :=
| NamedBytes (name : option str) (data : bytes)       (* a pair (name, bytes) *)
| RawBytes (data : bytes)                             (* bytes or bytearray *)
| Readable (read : result bytes) (name : option str)  (* an object with [read()] *)
| OtherBlob.

(** Decimal digits of [n], most significant first. *)
Fixpoint dec_digits (fuel : nat) (n : N) (acc : str) : str :=
  match fuel with
  | O => acc
  | S fuel' =>
      let acc' := (48 + n mod 10)%N :: acc in
      if (n <? 10)%N then acc' else dec_digits fuel' (n / 10)%N acc'
  end.

(** [f"{i:04d}"] *)
Definition fmt_04d (i : nat) : str :=
  let d := dec_digits (S i) (N.of_nat i) [] in
  replicate (4 - length d) 48%N ++ d.

(** [os.path.basename] (POSIX): what follows the last slash. *)
Fixpoint basename_aux (s : str) (cur : str) : str :=
  match s with
  | [] => cur
  | c :: s' => if (c =? 47)%N then basename_aux s' s' else basename_aux s' cur
  end.

Definition basename (s : str) : str := basename_aux s s.

(** [os.path.join(a, b)] (POSIX). *)
Definition path_join (a b : str) : str :=
  match b with
  | 47%N :: _ => b
  | _ =>
      match rev a with
      | [] => b
      | 47%N :: _ => a ++ b
      | _ => a ++ [47%N] ++ b
      end
  end.

Definition name_or (name : option str) (src_name : str) : str :=
  match name with
  | Some n => if truthy n then n else src_name
  | None => src_name
  end.

(** Input normalisation: the source name and the raw bytes. *)
Definition normalize_blob (index : nat) (b : blob) : str * bytes :=
  let src_name := fmt_04d index ++ py ".jpg" in
  match b with
  | NamedBytes name data => (basename (name_or name src_name), data)
  | RawBytes data => (src_name, data)
  | Readable (inr raw) (Some name) => (basename name, raw)
  | Readable (inr raw) None => (src_name, raw)
  | Readable (inl _) _ => (src_name, [])
  | OtherBlob => (src_name, [])
  end.

Definition dry_run_response : pyval :=
  PDict (<[py "labels" := PList []]>
        (<[py "scores" := PDict (<[py "quality" := PFloat 0%float]> ∅)]>
        (<[py "comments" := PList [PStr (py "（ドライラン）APIキー未設定のため実解析は未実施")]]>
        (<[py "presence" := PDict ∅]> ∅)))).

Definition failure_response (e : exn) : pyval :=
  PDict (<[py "labels" := PList []]>
        (<[py "scores" := PDict (<[py "quality" := PFloat 0%float]> ∅)]>
        (<[py "comments" := PList [PStr (py "nano失敗: " ++ exn_msg e)]]>
        (<[py "presence" := PDict ∅]> ∅)))).

(** The response of the first tier, or its placeholder. *)
Definition nano_response (nano : OpenAIClient) (data : bytes) : task pyval :=
  try_except
    (if available nano then analyze_one nano data else mret dry_run_response)
    (fun e => mret (failure_response e)).

(** [{k: float(v) for k, v in d["scores"].items()}] when the scores are a
    [dict], else [{}].  The items are converted in the order of
    [map_to_list]: when several conversions would raise, which one does is
    not that of the insertion order. *)
Definition response_scores (m : gmap str pyval) : result (gmap str float) :=
  match m !! py "scores" with
  | Some (PDict sc) => kvs ← float_items (map_to_list sc); mret (list_to_map kvs)
  | _ => inr ∅
  end.

(** [[str(x) for x in d["comments"]]] when the comments are a [list], else
    [[]]. *)
Definition response_comments (m : gmap str pyval) : list str :=
  match m !! py "comments" with
  | Some (PList l) => map py_str l
  | _ => []
  end.

(** [d["presence"]] when it is a [dict], else [{}]. *)
Definition response_presence (m : gmap str pyval) : gmap str pyval :=
  match m !! py "presence" with
  | Some (PDict p) => p
  | _ => ∅
  end.

(** [defaults.get("conf_th", thresholds.get("conf_th", 0.6))] *)
Definition conf_th_setting (thresholds defaults : gmap str pyval) : pyval :=
  default (default (PFloat 0.6%float) (thresholds !! py "conf_th"))
          (defaults !! py "conf_th").

(** ["ng" if any(v >= th for v in scores.values()) else "ok"] *)
Definition score_verdict (th : float) (scores : gmap str float) : str :=
  if existsb (fun kv => PrimFloat.leb th (snd kv)) (map_to_list scores)
  then v_ng else v_ok.

Definition _split_lines (t : str) : list str :=
  filter (fun ln => truthy ln = true) (map strip (splitlines t)).

Definition _analyze_one (index : nat) (b : blob) (nano mini : OpenAIClient)
    (thresholds defaults : gmap str pyval) (base_dir : str) : task ImageResult :=
  let '(src_name, raw) := normalize_blob index b in
  '(data, _) ← lift (load_and_resize raw 960);
  img ← lift (Image_open_RGB rt data);
  let qflags := _calc_basic_quality_flags img in
  d ← nano_response nano data;
  m ← lift (as_dict d);
  let labels := default (PList []) (m !! py "labels") in
  scores ← lift (response_scores m);
  let comments := response_comments m in
  let presence := response_presence m in
  th ← lift (py_float (conf_th_setting thresholds defaults));
  let verdict := score_verdict th scores in
  let ok_whitelist_global :=
    _split_lines (py_str (default (PStr []) (defaults !! py "ok_whitelist_global"))) in
  let ok_whitelist_user :=
    _split_lines (py_str (default (PStr []) (defaults !! py "ok_whitelist"))) in
  let verdict :=
    refine_verdict_by_text verdict comments (ok_whitelist_global ++ ok_whitelist_user) in
  let recheck_words := default (PList []) (thresholds !! py "RECHECK_WHITELIST") in
  verdict ← lift (force_recheck_by_text verdict comments recheck_words);
  let safe_name := fmt_04d index ++ py "_" ++ basename src_name in
  let out_path := path_join base_dir safe_name in
  _ ← write_file_quietly out_path data;
  mret {| index := index; file := safe_name; labels := labels; scores := scores;
          comments := comments; quality_flags := qflags; verdict := verdict;
          stage := py "nano"; presence := presence |}.

End Pipeline.

(** ** The batch *)

Record StageCounts := { nano : nat; mini : nat; full : nat }.

Record JobSummary := {
  ok : nat;
  ng : nat;
  unknown : nat;
  counts_by_stage : StageCounts;
  presence_evidence : gmap str (list nat);
}.

(** What a run of [analyze_headless] meets outside: the scratch directory and
    the clock, the world of each worker task, and the order in which the
    futures complete (each index below [len(files)] once). *)
Record BatchEnv := {
  mkdtemp : result str;          (* tempfile.mkdtemp(prefix="analyze_") *)
  job_clock : str;               (* datetime.now().strftime("J%Y%m%dT%H%M%S") *)
  task_world : nat -> world;
  completion : list nat;
}.

Section Batch.

Context (rt : Runtime).

(** [max(1, min(8, len(files)))] *)
Definition max_workers (n : nat) : nat := Nat.max 1 (Nat.min 8 n).

(** ["\n".join(l)]: every item must be a [str]. *)
Fixpoint all_str (l : list pyval) : result (list str) :=
  match l with
  | [] => inr []
  | PStr s :: l' => rest ← all_str l'; mret (s :: rest)
  | _ :: _ => inl (TypeError "sequence item: expected str instance")
  end.

(** [defaults.setdefault("ok_whitelist_global", "\n".join(thresholds["OK_WHITELIST"]))]
    when the thresholds hold a list under that key. *)
Definition with_global_whitelist (thresholds defaults : gmap str pyval)
    : result (gmap str pyval) :=
  match thresholds !! py "OK_WHITELIST" with
  | Some (PList l) =>
      ws ← all_str l;
      let joined := PStr (join [10%N] ws) in
      mret (match defaults !! py "ok_whitelist_global" with
            | Some _ => defaults
            | None => <[py "ok_whitelist_global" := joined]> defaults
            end)
  | _ => inr defaults
  end.

(** [for fu in as_completed(futures): results.append(fu.result())]: the
    first failed future met re-raises its exception. *)
Fixpoint collect (futures : list (result ImageResult)) (order : list nat)
    : result (list ImageResult) :=
  match order with
  | [] => inr []
  | i :: order' =>
      match futures !! i with
      | Some (inl e) => inl e
      | Some (inr r) => rs ← collect futures order'; mret (r :: rs)
      | None => collect futures order'
      end
  end.

(** [results.sort(key=lambda x: x.get("index", 0))]: a stable sort. *)
Fixpoint insert_by_index (r : ImageResult) (l : list ImageResult) : list ImageResult :=
  match l with
  | [] => [r]
  | x :: l' => if index r <=? index x then r :: l else x :: insert_by_index r l'
  end.

Fixpoint sort_by_index (l : list ImageResult) : list ImageResult :=
  match l with
  | [] => []
  | r :: l' => insert_by_index r (sort_by_index l')
  end.

Definition amenities : list str := [py "key"; py "wifi"; py "heater"; py "tv"].

(** [{"key": [], "wifi": [], "heater": [], "tv": []}] *)
Definition no_evidence : gmap str (list nat) :=
  list_to_map (map (fun k => (k, [])) amenities).

(** [v = pr.get(k); if isinstance(v, bool) and v] *)
Definition is_true (v : option pyval) : bool :=
  match v with
  | Some (PBool true) => true
  | _ => false
  end.

(** The inner loop, for one result. *)
Definition add_evidence (pe : gmap str (list nat)) (r : ImageResult)
    : gmap str (list nat) :=
  fold_left
    (fun pe k =>
       if is_true (presence r !! k)
       then <[k := default [] (pe !! k) ++ [index r]]> pe
       else pe)
    amenities pe.

Definition collect_evidence (results : list ImageResult) : gmap str (list nat) :=
  fold_left add_evidence results no_evidence.

(** [sum(1 for r in results if r.get(field) == v)] *)
Definition count_where (field : ImageResult -> str) (v : str)
    (results : list ImageResult) : nat :=
  length (filter (fun r => field r = v) results).

Definition summarize (results : list ImageResult) : JobSummary :=
  {| ok := count_where verdict v_ok results;
     ng := count_where verdict v_ng results;
     unknown := count_where verdict v_unknown results;
     counts_by_stage :=
       {| nano := count_where stage (py "nano") results;
          mini := count_where stage (py "mini") results;
          full := count_where stage (py "full") results |};
     presence_evidence := collect_evidence results |}.

(** The worker tasks of a batch, each run to its end in its own world. *)
Definition run_tasks (env : BatchEnv) (files : list blob) (nano mini : OpenAIClient)
    (thresholds defaults : gmap str pyval) (base_dir : str)
    : list (result ImageResult * world) :=
  imap (fun i f => _analyze_one rt i f nano mini thresholds defaults base_dir
                     (task_world env i)) files.

(** [analyze_headless]: the value returned or the exception raised, and the
    final world of every task that was started. *)
Definition analyze_headless (env : BatchEnv) (files : list blob) (property_name : str)
    (api_key : option str) (thresholds defaults : option (gmap str pyval))
    : result (JobSummary * list ImageResult * str * str) * list world :=
  let thresholds := default ∅ thresholds in
  let defaults := default ∅ defaults in
  match with_global_whitelist thresholds defaults with
  | inl e => (inl e, [])
  | inr defaults =>
      let nano := OpenAIClient_init (Some (py "gpt-5-nano")) api_key in
      let mini := OpenAIClient_init (Some []) api_key in
      match mkdtemp env with
      | inl e => (inl e, [])
      | inr base_dir =>
          let job_id := job_clock env in
          let futures := run_tasks env files nano mini thresholds defaults base_dir in
          (results ← collect (map fst futures) (completion env);
           let results := sort_by_index results in
           mret (summarize results, results, base_dir, job_id),
           map snd futures)
      end
  end.

End Batch.

(** * Specification vocabulary

    The notions the properties below are stated with. *)

(** ** Text *)

(** [w in s] is the occurrence of [w] somewhere in [s]. *)
Definition occurs (w s : str) : Prop := exists pre post, s = pre ++ w ++ post.

(** Some non-empty word of the list occurs in the text. *)
Definition some_word_occurs (words : list str) (txt : str) : Prop :=
  exists w, In w words /\ w <> [] /\ occurs w txt.

(** Some word of [A] occurs in the text. *)
Definition some_occurs (A : list str) (txt : str) : Prop :=
  exists a, In a A /\ occurs a txt.

(** The words a regular expression denotes. *)
Inductive matches : regex -> str -> Prop :=
| matches_lit w : matches (Lit w) w
| matches_alt_l r1 r2 x : matches r1 x -> matches (Alt r1 r2) x
| matches_alt_r r1 r2 x : matches r2 x -> matches (Alt r1 r2) x
| matches_cat r1 r2 x y : matches r1 x -> matches r2 y -> matches (Cat r1 r2) (x ++ y)
| matches_any n x : length x <= n -> ~ In 10%N x -> matches (AnyUpTo n) x.

#[local] Hint Constructors matches : core.

(** A word of [A], then a gap that satisfies [gap_ok], then a word of [B]. *)
Definition near (gap_ok : str -> Prop) (A B : list str) (txt : str) : Prop :=
  exists pre a gap b post,
    txt = pre ++ a ++ gap ++ b ++ post /\ In a A /\ In b B /\ gap_ok gap.

(** At most [n] characters. *)
Definition within (n : nat) (gap : str) : Prop := length gap <= n.

(** At most [n] characters, none of them a line feed. *)
Definition within_on_line (n : nat) (gap : str) : Prop :=
  length gap <= n /\ ~ In 10%N gap.

(** The four proximity patterns of stage 2b, for a notion of gap. *)
Definition keyword_excused (gap_ok : str -> Prop) (txt : str) : Prop :=
  near gap_ok KW_words NEG_words txt \/ near gap_ok NEG_words KW_words txt \/
  near gap_ok KW_words POS_words txt \/ near gap_ok POS_words KW_words txt.

(** The precedence of the text-refinement stage as the specification words
    it, for a notion of "within 12 characters": [out] is the verdict it
    prescribes for the input verdict, the comments and the OK-whitelist. *)
Definition text_rules (gap_ok : str -> Prop) (verdict : str) (comments : list str)
    (ok_whitelist : list str) (out : str) : Prop :=
  let txt := join (py " ") comments in
  let a := some_word_occurs ok_whitelist txt in
  let b := keyword_excused gap_ok txt in
  let c := some_occurs POS_words txt in
  let d := some_occurs KW_words txt in
  (a -> out = v_ok) /\
  (~ a -> b -> out = v_ok) /\
  (~ a -> ~ b -> c -> out = v_ok) /\
  (~ a -> ~ b -> ~ c -> d -> out = v_ng) /\
  (~ a -> ~ b -> ~ c -> ~ d -> out = verdict).

(** ** Verdicts and scores *)

(** Some score reaches the threshold: [v >= th] for a value of the mapping. *)
Definition some_score_reaches (th : float) (sc : gmap str float) : Prop :=
  exists k v, sc !! k = Some v /\ PrimFloat.leb th v = true.

Definition known_verdict (v : str) : Prop := v = v_ok \/ v = v_ng \/ v = v_unknown.

(** ** Effects *)

Definition raises {A} (r : result A) : Prop := exists e, r = inl e.

(** The world after more requests and more waits. *)
Definition after (w : world) (reqs : list bytes) (waits : list nat) : world :=
  World (remote w) (writable w) (requests w ++ reqs) (sleeps w ++ waits) (saved w).

(** ** Placeholders and clients *)

(** The shape both placeholders of [_analyze_one] have: no labels, a zero
    quality score and nothing else, one comment, no presence. *)
Definition placeholder (comment : str) : pyval :=
  PDict (<[py "labels" := PList []]>
        (<[py "scores" := PDict (<[py "quality" := PFloat 0%float]> ∅)]>
        (<[py "comments" := PList [PStr comment]]>
        (<[py "presence" := PDict ∅]> ∅)))).

Definition dry_run_comment : str := py "（ドライラン）APIキー未設定のため実解析は未実施".
Definition failure_comment (e : exn) : str := py "nano失敗: " ++ exn_msg e.

(** A result carries a placeholder: its fields are those of the placeholder
    response with this comment. *)
Definition placeholder_result (comment : str) (r : ImageResult) : Prop :=
  labels r = PList []
  /\ scores r = <[py "quality" := 0%float]> ∅
  /\ comments r = [comment]
  /\ presence r = ∅.

(** The clients [analyze_headless] makes from the key. *)
Definition nano_of (api_key : option str) : OpenAIClient :=
  OpenAIClient_init (Some (py "gpt-5-nano")) api_key.

Definition mini_of (api_key : option str) : OpenAIClient :=
  OpenAIClient_init (Some []) api_key.

(** ** Flags and evidence *)

Definition when (b : bool) (flag : str) : list str := if b then [flag] else [].

(** The indices, in list order, of the results whose presence of [k] is
    [True]. *)
Definition evidence_of (k : str) (results : list ImageResult) : list nat :=
  map index (filter (fun r => is_true (presence r !! k) = true) results).

Section Vocabulary.

Context (rt : Runtime).

(** The two whitelists [_analyze_one] reads from [defaults]. *)
Definition ok_whitelist_of (defaults : gmap str pyval) : list str :=
  _split_lines (py_str rt (default (PStr []) (defaults !! py "ok_whitelist_global")))
  ++ _split_lines (py_str rt (default (PStr []) (defaults !! py "ok_whitelist"))).

Definition recheck_setting (thresholds : gmap str pyval) : pyval :=
  default (PList []) (thresholds !! py "RECHECK_WHITELIST").

(** The state of the image before the first tier is asked. *)
Definition decodes (i : nat) (b : blob) (data : bytes) (img : image rt) : Prop :=
  exists size,
    load_and_resize rt (snd (normalize_blob i b)) 960 = inr (data, size)
    /\ Image_open_RGB rt data = inr img.

(** The three checks, each on its own measurement. *)
Definition blur_due (img : image rt) : bool :=
  _HAS_CV2 rt &&
  match laplacian_var rt img with inr var => PrimFloat.ltb var 80%float | inl _ => false end.

Definition dark_due (img : image rt) : bool :=
  match gray_mean rt img with inr mean => PrimFloat.ltb mean 60%float | inl _ => false end.

Definition overexpose_due (img : image rt) : bool :=
  match gray_over_240 rt img with inr over => PrimFloat.ltb 0.40%float over | inl _ => false end.

(** The blur check raised: it is only run when OpenCV is there. *)
Definition blur_check_raises (img : image rt) : Prop :=
  _HAS_CV2 rt = true /\ exists e, laplacian_var rt img = inl e.

End Vocabulary.

(** ** A concrete runtime

    A small instance of [Runtime] on which the definitions can be run: an
    image is its bytes, the empty byte string is not an image, and the three
    quality measurements are given.  No string is converted to a number and no
    compound value is printed in the runs below. *)

Module Sample.

Fixpoint float_of_positive (p : positive) : float :=
  match p with
  | xH => 1%float
  | xO p' => (2 * float_of_positive p')%float
  | xI p' => (2 * float_of_positive p' + 1)%float
  end.

(** Exact below [2 ^ 53]. *)
Definition float_of_Z (z : Z) : result float :=
  if (Z.abs z <? 2 ^ 53)%Z then
    inr match z with
        | Z0 => 0%float
        | Zpos p => float_of_positive p
        | Zneg p => (- float_of_positive p)%float
        end
  else inl (Exn "OverflowError" (py "int too large to convert to float")).

Definition runtime (cv2 : bool) (var mean over : result float) : Runtime := {|
  image := bytes;
  Image_open_RGB := fun b =>
    match b with
    | [] => inl (Exn "UnidentifiedImageError" (py "cannot identify image file"))
    | _ :: _ => inr b
    end;
  image_size := fun _ => (640, 480);
  ImageOps_contain := fun img _ => img;
  save_jpeg := fun img _ => inr img;
  _HAS_CV2 := cv2;
  laplacian_var := fun _ => var;
  gray_mean := fun _ => mean;
  gray_over_240 := fun _ => over;
  float_of_int := float_of_Z;
  float_of_str := fun _ => inl (Exn "ValueError" (py "could not convert string to float"));
  str_of := fun v =>
    match v with
    | PNone => py "None"
    | PBool true => py "True"
    | PBool false => py "False"
    | _ => py "?"
    end;
|}.

(** A sharp, well-lit image. *)
Definition plain : Runtime :=
  runtime true (inr 500%float) (inr 128%float) (inr 0.01%float).

Definition jpeg : bytes := [Byte.xff; Byte.xd8; Byte.xff].

Definition timeout_error : exn := Exn "APITimeoutError" (py "Request timed out.").
Definition memory_error : exn := Exn "MemoryError" [].

(** A world whose remote answers every request with [reply]. *)
Definition world_of (reply : nat -> result pyval) : world :=
  World reply (fun _ => true) [] [] [].

Definition good_reply : pyval :=
  PDict (<[py "labels" := PList [PStr (py "clutter")]]>
        (<[py "scores" := PDict (<[py "quality" := PFloat 0.9%float]> ∅)]>
        (<[py "comments" := PList [PStr (py "要確認: 髪の毛あり")]]>
        (<[py "presence" :=
             PDict (<[py "key" := PNone]>
                   (<[py "wifi" := PBool false]>
                   (<[py "heater" := PBool true]> ∅)))]> ∅)))).

(** A batch environment: the replies of the remote by task and request, and
    the order of completion. *)
Definition env (replies : nat -> nat -> result pyval) (order : list nat) : BatchEnv := {|
  mkdtemp := inr (py "/tmp/analyze_x");
  job_clock := py "J20240101T090000";
  task_world := fun i => world_of (replies i);
  completion := order;
|}.

(** Three uploads. *)
Definition uploads : list blob :=
  [NamedBytes (Some (py "a.jpg")) jpeg; RawBytes jpeg; NamedBytes (Some (py "c.jpg")) jpeg].

(** A reply whose presence has a string where a boolean is expected. *)
Definition quiet_reply : pyval :=
  PDict (<[py "labels" := PList []]>
        (<[py "scores" := PDict ∅]>
        (<[py "comments" := PList [PStr (py "清潔")]]>
        (<[py "presence" :=
             PDict (<[py "heater" := PStr (py "yes")]>
                   (<[py "tv" := PBool true]> ∅))]> ∅)))).

(** The second image gets [quiet_reply], the others [good_reply]. *)
Definition mixed_replies (i k : nat) : result pyval :=
  if i =? 1 then inr quiet_reply else inr good_reply.

(** The first-tier client of a run with a key. *)
Definition with_key : OpenAIClient :=
  OpenAIClient_init (Some (py "gpt-5-nano")) (Some (py "sk-test")).

End Sample.

(** * Beyond the pipeline: exports, callers and storage *)

(** ** More vocabulary *)

(** The same environment with another order of completion. *)
Definition with_completion (env : BatchEnv) (order : list nat) : BatchEnv :=
  {| mkdtemp := mkdtemp env; job_clock := job_clock env;
     task_world := task_world env; completion := order |}.

(** The first character, if there is one, is no white space. *)
Definition starts_clean (s : str) : Prop :=
  match s with [] => True | c :: _ => is_space c = false end.

(** What is left to split after the line boundary [c]: a line feed that
    follows a carriage return belongs to the boundary. *)
Definition after_break (c : N) (s : str) : str :=
  if (c =? 13)%N
  then match s with
       | c2 :: s2 => if (c2 =? 10)%N then s2 else s
       | [] => s
       end
  else s.

(** A line as the whitelist editors keep it: not empty, no line boundary in
    it, nothing for [strip] to remove. *)
Definition clean_line (w : str) : Prop :=
  w <> [] /\ strip w = w /\ Forall (fun c => is_linebreak c = false) w.

(** [k] requests with the same payload, and the waits between them. *)
Definition asked (w w' : world) (k : nat) (data : bytes) : Prop :=
  requests w' = requests w ++ replicate k data
  /\ sleeps w' = sleeps w ++ seq 1 (k - 1).

(** ** Formatted numbers *)

(** [c.isdigit()] for an ASCII digit. *)
Definition is_digit (c : N) : bool := ((48 <=? c) && (c <=? 57))%N.

(** [int(s)] for a string of ASCII digits. *)
Definition digits_value (s : str) : N :=
  fold_left (fun a c => (a * 10 + (c - 48))%N) s 0%N.

(** ** Exports *)

(** What the exporters see of the file system: for a path that exists, what
    [ZipFile.write] of it does, which is to raise or to add a member with
    these bytes (none for a directory); [None] for a path that does not
    exist. *)
Definition disk := str -> option (result bytes).

(** [_zip_common]: the members of the archive returned, as the [arcname] and
    the bytes of each [write], in order.  The encoding of the archive is left
    out. *)
Fixpoint _zip_common (d : disk) (job_id base_dir : str) (results : list ImageResult)
    (want : str) : result (list (str * bytes)) :=
  match results with
  | [] => inr []
  | r :: results' =>
      if bool_decide (verdict r <> want)
      then _zip_common d job_id base_dir results' want
      else
        let idx := index r in
        let name := fmt_04d idx ++ py "_" ++ file r in
        let path := path_join base_dir name in
        match d path with
        | Some (inl e) => inl e
        | Some (inr data) =>
            z ← _zip_common d job_id base_dir results' want;
            mret ((name, data) :: z)
        | None => _zip_common d job_id base_dir results' want
        end
  end.

Definition export_zip_ng (d : disk) (job_id base_dir : str) (results : list ImageResult)
    : result (list (str * bytes)) :=
  _zip_common d job_id base_dir results v_ng.

Definition export_zip_ok (d : disk) (job_id base_dir : str) (results : list ImageResult)
    : result (list (str * bytes)) :=
  _zip_common d job_id base_dir results v_ok.

(** The disk that holds the files written, the last write of a path
    winning, and nothing else. *)
Definition disk_of (written : list (str * bytes)) : disk := fun p =>
  match find (fun kv => bool_decide (fst kv = p)) (rev written) with
  | Some kv => Some (inr (snd kv))
  | None => None
  end.

(** Directly under [base_dir] the disk holds nothing but files that were
    written. *)
Definition holds_only (d : disk) (base_dir : str) (written : list (str * bytes)) : Prop :=
  forall name, name <> [] -> ~ In 47%N name ->
    d (path_join base_dir name) <> None ->
    In (path_join base_dir name) (map fst written).
(** ** The result view of the web application *)

(** [_count_verdicts]: the numbers on the three tabs. *)
Definition _count_verdicts (_results : list ImageResult) : nat * nat * nat :=
  (count_where verdict v_ok _results,
   count_where verdict v_ng _results,
   length (filter (fun r => verdict r = v_unknown \/ verdict r = py "recheck") _results)).

(** The thumbnails of [_evi_card]: the paths and the captions its first
    loop collects for the indices [idxs] of an amenity's evidence. *)
Definition _evi_card_thumbs (d : disk) (base_dir : str) (results : list ImageResult)
    (idxs : list nat) (max_thumbs : nat) : list (str * str) :=
  flat_map
    (fun i =>
       match results !! i with
       | Some r =>
           let p := path_join base_dir (file r) in
           if bool_decide (d p <> None) then [(p, py "#" ++ fmt_04d (index r))] else []
       | None => []
       end)
    (take max_thumbs idxs).
(** ** Recording a run ([db.py], [services.py])

    The calls of [run_analysis_and_record] are modelled by what they do to
    the outside, in order: each statement the database functions execute is
    an effect with the parameters bound to it, and so is the log file
    written; what SQLite makes of a statement is not modelled. *)

(** [f"{i:02d}"] *)
Definition fmt_02d (i : nat) : str :=
  let d := dec_digits (S i) (N.of_nat i) [] in
  replicate (2 - length d) 48%N ++ d.

(** [month_key(dt)]: [f"{dt.year:04d}{dt.month:02d}"]. *)
Definition month_key (year month : nat) : str := fmt_04d year ++ fmt_02d month.

(** The record [save_run_log] dumps. *)
Record RunLog := {
  log_timestamp : str;
  log_user : str;
  log_prop : str;
  log_job_id : str;
  log_images : nat;
  log_ok : nat;
  log_ng : nat;
  log_unknown : nat;
  log_stage_counts : StageCounts;
  log_presence_evidence : gmap str nat;
}.

Inductive effect :=
(* the upsert of [add_monthly_usage], with the amounts it adds *)
| UsageAdded (tenant property ym : str) (images runs : Z) (updated_at : str)
(* the directory made and the file dumped by [save_run_log] *)
| LogSaved (path : str) (rec : RunLog)
(* the [INSERT OR REPLACE] of [write_job] *)
| JobWritten (job_id tenant property ym ts_start ts_end : str) (images n_ok n_ng n_unknown : Z)
(* one row of the [executemany] of [write_job_results] *)
| ResultWritten (job_id : str) (idx : Z) (name result_verdict result_stage : str).

(** What recording a run meets outside: the batch environment, the readings
    of the clock in the order they are taken, and the effects that raise
    instead of taking place. *)
Record ServiceEnv := {
  batch : BatchEnv;
  ts_start_clock : str;          (* datetime.now().isoformat(timespec="seconds") *)
  ts_end_clock : str;
  month_clock : nat * nat;       (* the year and month [month_key()] reads *)
  usage_clock : str;             (* [now] of [add_monthly_usage] *)
  log_month_clock : str;         (* datetime.now().strftime("%Y-%m") *)
  log_clock : str;               (* the timestamp of the log record *)
  fault : effect -> option exn;
}.

(** A computation that may raise and adds to the effects so far. *)
Definition service (A : Type) : Type := list effect -> result A * list effect.

#[global] Instance service_ret : MRet service := fun A a tr => (inr a, tr).
#[global] Instance service_bind : MBind service := fun A B f m tr =>
  match m tr with
  | (inl e, tr') => (inl e, tr')
  | (inr a, tr') => f a tr'
  end.

Definition perform (env : ServiceEnv) (e : effect) : service unit := fun tr =>
  match fault env e with
  | Some x => (inl x, tr)
  | None => (inr tt, tr ++ [e])
  end.

Definition add_monthly_usage (env : ServiceEnv) (tenant prop ym : str)
    (add_images add_runs : Z) : service unit :=
  perform env (UsageAdded tenant prop ym (Z.max 0 add_images) (Z.max 0 add_runs)
                 (usage_clock env)).

Definition write_job (env : ServiceEnv) (tenant prop job_id ym ts_start ts_end : str)
    (images n_ok n_ng n_unknown : Z) : service unit :=
  perform env (JobWritten job_id tenant prop ym ts_start ts_end images n_ok n_ng n_unknown).

Fixpoint executemany (env : ServiceEnv) (rows : list effect) : service unit :=
  match rows with
  | [] => mret tt
  | row :: rows' => _ ← perform env row; executemany env rows'
  end.

Definition write_job_results (env : ServiceEnv) (job_id : str) (results : list ImageResult)
    : service unit :=
  match results with
  | [] => mret tt
  | _ :: _ =>
      let rows :=
        map (fun r => ResultWritten job_id (Z.of_nat (index r)) (file r) (verdict r) (stage r))
            results in
      executemany env rows
  end.

Definition LOG_ROOT : str := path_join (py "storage") (py "logs").

Definition save_run_log (env : ServiceEnv) (uid prop job_id : str) (summary : JobSummary)
    (images : nat) : service unit :=
  let yymm := log_month_clock env in
  let path := path_join (path_join (path_join LOG_ROOT uid) yymm) prop in
  let rec :=
    {| log_timestamp := log_clock env; log_user := uid; log_prop := prop;
       log_job_id := job_id; log_images := images;
       log_ok := ok summary; log_ng := ng summary; log_unknown := unknown summary;
       log_stage_counts := counts_by_stage summary;
       log_presence_evidence := length <$> presence_evidence summary |} in
  perform env (LogSaved (path_join path (job_id ++ py ".json")) rec).

Section Services.

Context (rt : Runtime).

Definition run_analysis_and_record (env : ServiceEnv) (uid prop_name : str)
    (image_blobs : list blob) (openai_key : option str)
    (thresholds defaults : gmap str pyval)
    : service (JobSummary * list ImageResult * str * str) := fun tr =>
  let ts_start := ts_start_clock env in
  match fst (analyze_headless rt (batch env) image_blobs prop_name openai_key
               (Some thresholds) (Some defaults)) with
  | inl e => (inl e, tr)
  | inr (summary, results, base_dir, job_id) =>
      let ts_end := ts_end_clock env in
      let ym := month_key (fst (month_clock env)) (snd (month_clock env)) in
      let images := length image_blobs in
      (_ ← add_monthly_usage env uid prop_name ym (Z.of_nat images) 1;
       _ ← save_run_log env uid prop_name job_id summary images;
       _ ← write_job env uid prop_name job_id ym ts_start ts_end (Z.of_nat images)
             (Z.of_nat (ok summary)) (Z.of_nat (ng summary)) (Z.of_nat (unknown summary));
       _ ← write_job_results env job_id results;
       mret (summary, results, base_dir, job_id)) tr
  end.

End Services.
(** A service environment for the runs below: the clock of a morning of
    January 2024. *)
Definition sample_service (b : BatchEnv) (faults : effect -> option exn) : ServiceEnv := {|
  batch := b;
  ts_start_clock := py "2024-01-01T09:00:00";
  ts_end_clock := py "2024-01-01T09:00:07";
  month_clock := (2024, 1);
  usage_clock := py "2024-01-01T09:00:07";
  log_month_clock := py "2024-01";
  log_clock := py "2024-01-01T09:00:07";
  fault := faults;
|}.

(** The log directory cannot be written. *)
Definition log_denied (e : effect) : option exn :=
  match e with
  | LogSaved _ _ => Some (Exn "PermissionError" (py "[Errno 13] Permission denied"))
  | _ => None
  end.

(** ** The score stage, as the specification words it *)

(** The setting of the confidence threshold that is in force: the value of
    [defaults] under "conf_th"; that of [thresholds] when [defaults] has
    none; 0.6 when neither has one. *)
Definition setting_in_force (thresholds defaults : gmap str pyval) (v : pyval) : Prop :=
  defaults !! py "conf_th" = Some v
  \/ (defaults !! py "conf_th" = None /\ thresholds !! py "conf_th" = Some v)
  \/ (defaults !! py "conf_th" = None /\ thresholds !! py "conf_th" = None
      /\ v = PFloat 0.6%float).

(** The reply a task gets from the remote model: the answer to the first of
    its at most three requests that is answered. *)
Definition first_reply (w : world) (d : pyval) : Prop :=
  exists k, k < 3
    /\ (forall j, j < k -> raises (remote w (length (requests w) + j)))
    /\ remote w (length (requests w) + k) = inr d.

(** The scores a reply brings: what it holds under "scores" when that is a
    mapping, and no score otherwise. *)
Definition reply_scores (m raw : gmap str pyval) : Prop :=
  m !! py "scores" = Some (PDict raw)
  \/ ((forall x, m !! py "scores" <> Some (PDict x)) /\ raw = ∅).

Section ScoreStage.

Context (rt : Runtime).

(** [sc] is [raw] with [float] applied to each value. *)
Definition converted (raw : gmap str pyval) (sc : gmap str float) : Prop :=
  forall k,
    match raw !! k, sc !! k with
    | Some v, Some f => py_float rt v = inr f
    | None, None => True
    | _, _ => False
    end.

(** The verdict of [r] is built on the score stage at the threshold [t] for
    the scores [sc]: a preliminary verdict [p], "ng" exactly when some score
    reaches [t] and "ok" otherwise, from which the text stages (with the
    recheck words [ws]) make the verdict; with no comment text the verdict is
    [p] itself. *)
Definition judged_at (t : float) (sc : gmap str float) (ws : list str)
    (defaults : gmap str pyval) (r : ImageResult) : Prop :=
  exists p,
    (p = v_ng <-> some_score_reaches t sc)
    /\ (p = v_ok <-> ~ some_score_reaches t sc)
    /\ verdict r
       = (if any_word_in ws (join (py " ") (comments r)) then v_unknown
          else refine_verdict_by_text p (comments r) (ok_whitelist_of rt defaults))
    /\ (join (py " ") (comments r) = [] -> verdict r = p).

End ScoreStage.

(** A reply with one score and no comment. *)
Definition scored_reply (f : float) : pyval :=
  PDict (<[py "scores" := PDict (<[py "quality" := PFloat f]> ∅)]>
        (<[py "comments" := PList []]> ∅)).

(** * Properties *)

(** ** Sanity checks of the embedding *)

Example py_ascii : py "ok" = [111; 107]%N.
Proof. reflexivity. Qed.

Example py_kanji : py "髪の毛" = [39658; 12398; 27611]%N.
Proof. reflexivity. Qed.

Example join_two : join (py " ") [py "ab"; py "c"] = py "ab c".
Proof. reflexivity. Qed.

Example contains_mid : contains (py "の") (py "髪の毛") = true.
Proof. reflexivity. Qed.

Example splitlines_crlf :
  splitlines [97; 13; 10; 98; 10; 10; 99]%N = [[97]; [98]; []; [99]]%N.
Proof. reflexivity. Qed.

Example refine_negation_after :
  refine_verdict_by_text v_ng [py "髪の毛は見当たらない"] [] = v_ok.
Proof. vm_compute. reflexivity. Qed.

Example refine_bare_keyword :
  refine_verdict_by_text v_ok [py "髪の毛が付着"] [] = v_ng.
Proof. vm_compute. reflexivity. Qed.

Example refine_newline_gap :
  refine_verdict_by_text v_ok [[39658; 12398; 27611; 10; 12394; 12356]%N] [] = v_ng.
Proof. vm_compute. reflexivity. Qed.

Example fmt_04d_pads : fmt_04d 7 = py "0007" /\ fmt_04d 4321 = py "4321".
Proof. split; reflexivity. Qed.

Example basename_last : basename (py "up/load/a.jpg") = py "a.jpg".
Proof. reflexivity. Qed.

Example split_lines_strips :
  _split_lines [32; 97; 32; 10; 10; 9; 10; 98]%N = [[97]; [98]]%N.
Proof. reflexivity. Qed.

(** ** Strings and regular expressions *)

Lemma startswith_spec (w s : str) :
  startswith w s = true <-> exists post, s = w ++ post.
Proof.
  revert s. induction w as [|a w IH]; intros s; simpl.
  - split; [intros _; exists s; reflexivity | reflexivity].
  - destruct s as [|b s]; simpl.
    + split; [discriminate | intros [post H]; discriminate].
    + rewrite andb_true_iff, N.eqb_eq, IH. split.
      * intros [-> [post ->]]. exists post. reflexivity.
      * intros [post H]. injection H as -> ->. split; [reflexivity | exists post; reflexivity].
Qed.

Lemma tails_spec (s t : str) : In t (tails s) <-> exists pre, s = pre ++ t.
Proof.
  induction s as [|c s IH]; simpl.
  - split.
    + intros [<- | []]. exists []. reflexivity.
    + intros [pre H]. left. symmetry in H. apply app_eq_nil in H. symmetry. apply H.
  - rewrite IH. split.
    + intros [<- | [pre ->]]; [exists [] | exists (c :: pre)]; reflexivity.
    + intros [[|c' pre] H]; simpl in H.
      * left. exact H.
      * right. injection H as -> ->. exists pre. reflexivity.
Qed.

Lemma contains_spec (w s : str) : contains w s = true <-> occurs w s.
Proof.
  unfold contains, occurs. rewrite existsb_exists. split.
  - intros [t [Ht Hw]]. apply tails_spec in Ht as [pre ->].
    apply startswith_spec in Hw as [post ->]. exists pre, post. reflexivity.
  - intros [pre [post ->]]. exists (w ++ post). split.
    + apply tails_spec. exists pre. reflexivity.
    + apply startswith_spec. exists post. reflexivity.
Qed.

Lemma truthy_spec (w : str) : truthy w = true <-> w <> [].
Proof. destruct w; simpl; split; congruence. Qed.

Lemma any_word_in_spec (words : list str) (txt : str) :
  any_word_in words txt = true <-> some_word_occurs words txt.
Proof.
  unfold any_word_in, some_word_occurs. rewrite existsb_exists.
  split; intros [w [Hin H]]; exists w; split; try exact Hin.
  - apply andb_true_iff in H as [H1 H2].
    split; [apply truthy_spec, H1 | apply contains_spec, H2].
  - destruct H as [H1 H2]. apply andb_true_iff.
    split; [apply truthy_spec, H1 | apply contains_spec, H2].
Qed.

Lemma verdicts_distinct : v_ok <> v_ng /\ v_ok <> v_unknown /\ v_ng <> v_unknown.
Proof. repeat split; discriminate. Qed.

Lemma dots_spec n s rest :
  In rest (dots n s) <-> exists x, s = x ++ rest /\ length x <= n /\ ~ In 10%N x.
Proof.
  revert s. induction n as [|n IH]; intros s.
  - destruct s; simpl; (split;
      [intros [<- | []]; exists []; simpl; intuition lia
      |intros [[|c x] [H [Hl _]]]; simpl in *; [left; congruence | lia]]).
  - destruct s as [|c s]; simpl.
    + split.
      * intros [<- | []]. exists []. simpl. intuition lia.
      * intros [[|c x] [H _]]; simpl in *; [left; congruence | discriminate].
    + destruct (N.eqb_spec c 10) as [-> | Hc].
      * split.
        -- intros [<- | []]. exists []. simpl. intuition lia.
        -- intros [[|c x] [H [_ Hnl]]]; simpl in *; [left; congruence |].
           injection H as <- _. exfalso. apply Hnl. left. reflexivity.
      * rewrite in_app_iff, IH. simpl. split.
        -- intros [[x [-> [Hl Hnl]]] | [<- | []]].
           ++ exists (c :: x). simpl. split; [reflexivity | split; [lia |]].
              intros [E | E]; [congruence | contradiction].
           ++ exists []. simpl. intuition lia.
        -- intros [[|c' x] [H [Hl Hnl]]]; simpl in *.
           ++ right. left. congruence.
           ++ injection H as <- ->. left. exists x.
              split; [reflexivity | split; [lia | tauto]].
Qed.

(** The matcher finds exactly the matches at the start of the text. *)
Lemma rmatch_spec r : forall s rest,
  In rest (rmatch r s) <-> exists x, s = x ++ rest /\ matches r x.
Proof.
  induction r as [w | r1 IH1 r2 IH2 | r1 IH1 r2 IH2 | n]; intros s rest; simpl.
  - destruct (startswith w s) eqn:E.
    + apply startswith_spec in E as [post ->]. rewrite drop_app_length. simpl. split.
      * intros [<- | []]. exists w. auto.
      * intros [x [H Hm]]. inversion Hm; subst. left.
        apply app_inv_head in H. exact H.
    + split; [intros [] |]. intros [x [-> Hm]]. inversion Hm; subst.
      assert (startswith x (x ++ rest) = true) by (apply startswith_spec; eauto).
      congruence.
  - rewrite in_app_iff, IH1, IH2. split.
    + intros [[x [-> Hm]] | [x [-> Hm]]]; exists x; auto.
    + intros [x [-> Hm]]. inversion Hm; subst; [left | right]; exists x; auto.
  - rewrite in_flat_map. split.
    + intros [mid [H1 H2]]. apply IH1 in H1 as [x [-> Hx]].
      apply IH2 in H2 as [y [-> Hy]]. exists (x ++ y).
      split; [apply app_assoc | auto].
    + intros [z [-> Hm]]. inversion Hm; subst. exists (y ++ rest). split.
      * apply IH1. exists x. split; [symmetry; apply app_assoc | assumption].
      * apply IH2. exists y. auto.
  - rewrite dots_spec. split.
    + intros [x [-> [Hl Hnl]]]. exists x. auto.
    + intros [x [-> Hm]]. inversion Hm; subst. exists x. auto.
Qed.

Lemma match_at_spec r s :
  match_at r s = true <-> exists x post, s = x ++ post /\ matches r x.
Proof.
  unfold match_at. destruct (rmatch r s) as [|rest l] eqn:E.
  - split; [discriminate |]. intros [x [post [H Hm]]].
    assert (In post (rmatch r s)) as Hin by (apply rmatch_spec; eauto).
    rewrite E in Hin. destruct Hin.
  - split; [intros _ | reflexivity].
    assert (In rest (rmatch r s)) as Hin by (rewrite E; left; reflexivity).
    apply rmatch_spec in Hin as [x [-> Hm]]. eauto.
Qed.

(** [search] finds a match exactly when some part of the text is a word of
    the expression. *)
Theorem search_spec r s :
  search r s = true <-> exists pre x post, s = pre ++ x ++ post /\ matches r x.
Proof.
  unfold search. rewrite existsb_exists. split.
  - intros [t [Ht Hm]]. apply tails_spec in Ht as [pre ->].
    apply match_at_spec in Hm as [x [post [-> Hm]]]. eauto.
  - intros [pre [x [post [-> Hm]]]]. exists (x ++ post). split.
    + apply tails_spec. eauto.
    + apply match_at_spec. eauto.
Qed.

Lemma matches_alts w ws x : matches (alts w ws) x <-> In x (w :: ws).
Proof.
  revert w. induction ws as [|w' ws IH]; intros w; simpl.
  - split.
    + intros H. inversion H; subst. left. reflexivity.
    + intros [<- | []]. auto.
  - split.
    + intros H. inversion H; subst.
      * match goal with H' : matches (Lit _) _ |- _ => inversion H'; subst end.
        left. reflexivity.
      * right. apply IH. assumption.
    + intros [<- | H]; [auto |]. apply matches_alt_r, IH. exact H.
Qed.

Lemma matches_alts_of ws x : ws <> [] -> (matches (alts_of ws) x <-> In x ws).
Proof. destruct ws as [|w ws]; [congruence | intros _; apply matches_alts]. Qed.

Lemma search_near A B n txt :
  A <> [] -> B <> [] ->
  search (Cat (alts_of A) (Cat (AnyUpTo n) (alts_of B))) txt = true
  <-> near (within_on_line n) A B txt.
Proof.
  intros HA HB. rewrite search_spec. unfold near, within_on_line. split.
  - intros [pre [x [post [-> Hm]]]]. inversion Hm as [| | |? ? a y Ha Hy|]; subst.
    inversion Hy as [| | |? ? gap b Hgap Hb|]; subst. inversion Hgap; subst.
    apply matches_alts_of in Ha, Hb; try assumption.
    exists pre, a, gap, b, post. rewrite <- !app_assoc. auto.
  - intros [pre [a [gap [b [post [-> [Ha [Hb [Hl Hnl]]]]]]]]].
    exists pre, (a ++ gap ++ b), post. rewrite <- !app_assoc. split; [reflexivity |].
    apply matches_cat; [apply matches_alts_of; assumption |].
    apply matches_cat; [auto | apply matches_alts_of; assumption].
Qed.

Lemma search_alt r1 r2 txt :
  search (Alt r1 r2) txt = true <-> search r1 txt = true \/ search r2 txt = true.
Proof.
  rewrite !search_spec. split.
  - intros [pre [x [post [-> Hm]]]]. inversion Hm; subst; [left | right]; eauto.
  - intros [[pre [x [post [-> Hm]]]] | [pre [x [post [-> Hm]]]]]; eauto 6.
Qed.

Lemma search_words A txt :
  A <> [] -> search (alts_of A) txt = true <-> some_occurs A txt.
Proof.
  intros HA. rewrite search_spec. unfold some_occurs, occurs. split.
  - intros [pre [x [post [-> Hm]]]]. apply matches_alts_of in Hm; eauto.
  - intros [a [Ha [pre [post ->]]]]. exists pre, a, post.
    split; [reflexivity | apply matches_alts_of; assumption].
Qed.

(** ** The text stages *)

Lemma KW_words_nonempty : KW_words <> [].
Proof. discriminate. Qed.

Lemma NEG_words_nonempty : NEG_words <> [].
Proof. discriminate. Qed.

Lemma POS_words_nonempty : POS_words <> [].
Proof. discriminate. Qed.

Lemma rule_b_spec txt :
  search NEG_AFTER txt || search NEG_BEFORE txt || search POS_NEAR txt = true
  <-> keyword_excused (within_on_line 12) txt.
Proof.
  unfold keyword_excused, NEG_AFTER, NEG_BEFORE, POS_NEAR, KW, NEG, POS.
  rewrite !orb_true_iff, search_alt.
  rewrite !search_near
    by first [apply KW_words_nonempty | apply NEG_words_nonempty | apply POS_words_nonempty].
  tauto.
Qed.

Lemma rule_c_spec txt : search POS_ANY txt = true <-> some_occurs POS_words txt.
Proof. apply search_words, POS_words_nonempty. Qed.

Lemma rule_d_spec txt : search ANY_KW txt = true <-> some_occurs KW_words txt.
Proof. apply search_words, KW_words_nonempty. Qed.

Lemma bool_prop_cases (b : bool) (P : Prop) :
  (b = true <-> P) -> (b = true /\ P) \/ (b = false /\ ~ P).
Proof. destruct b; intros H; [left | right]; intuition congruence. Qed.

(** C3 (as amended): [refine_verdict_by_text] follows the precedence (a) to
    (e) of the specification on the space-joined comments, where "within 12
    characters" means a gap of at most 12 characters none of which is a line
    feed. *)
Theorem C3_refine_precedence (verdict : str) (comments ok_whitelist : list str) :
  text_rules (within_on_line 12) verdict comments ok_whitelist
    (refine_verdict_by_text verdict comments ok_whitelist).
Proof.
  unfold text_rules, refine_verdict_by_text.
  set (txt := join (py " ") comments).
  destruct (bool_prop_cases _ _ (any_word_in_spec ok_whitelist txt)) as [[-> Ha] | [-> Ha]];
    [repeat split; intros; first [reflexivity | contradiction] |].
  destruct (bool_prop_cases _ _ (rule_b_spec txt)) as [[-> Hb] | [-> Hb]];
    [repeat split; intros; first [reflexivity | contradiction] |].
  destruct (bool_prop_cases _ _ (rule_c_spec txt)) as [[-> Hc] | [-> Hc]];
    [repeat split; intros; first [reflexivity | contradiction] |].
  destruct (bool_prop_cases _ _ (rule_d_spec txt)) as [[-> Hd] | [-> Hd]];
    repeat split; intros; first [reflexivity | contradiction].
Qed.

(** C3 (as stated) fails when the only thing between a keyword and the
    negation is a line feed: the keyword is followed within one character by
    a negation term and no whitelist literal occurs, so the stated precedence
    prescribes "ok", and the function returns "ng". *)
Lemma C3_line_feed_gap :
  let comments := [py "髪の毛" ++ [10%N] ++ py "ない"] in
  ~ text_rules (within 12) v_ok comments [] (refine_verdict_by_text v_ok comments [])
  /\ keyword_excused (within 12) (join (py " ") comments)
  /\ refine_verdict_by_text v_ok comments [] = v_ng.
Proof.
  assert (keyword_excused (within 12) (py "髪の毛" ++ [10%N] ++ py "ない")) as Hb.
  { left. exists [], (py "髪の毛"), [10%N], (py "ない"), [].
    repeat split; [left; reflexivity | left; reflexivity | unfold within; simpl; lia]. }
  assert (refine_verdict_by_text v_ok [py "髪の毛" ++ [10%N] ++ py "ない"] [] = v_ng) as Hr
    by (vm_compute; reflexivity).
  cbv zeta. split; [| split; [exact Hb | exact Hr]].
  intros (_ & H & _). rewrite Hr in H.
  assert (v_ng = v_ok) as E.
  { apply H; [| exact Hb]. intros (w & [] & _). }
  discriminate E.
Qed.

(** ** The worker *)

Section WorkerFacts.

Context (rt : Runtime).

(** What a returning run of [_analyze_one] went through. *)
Lemma _analyze_one_returns i b nano mini thresholds defaults base_dir w r w' :
  _analyze_one rt i b nano mini thresholds defaults base_dir w = (inr r, w') ->
  exists data size img d w1 m th,
    load_and_resize rt (snd (normalize_blob i b)) 960 = inr (data, size)
    /\ Image_open_RGB rt data = inr img
    /\ nano_response nano data w = (inr d, w1)
    /\ as_dict d = inr m
    /\ response_scores rt m = inr (scores r)
    /\ py_float rt (conf_th_setting thresholds defaults) = inr th
    /\ force_recheck_by_text
         (refine_verdict_by_text (score_verdict th (scores r)) (comments r)
            (ok_whitelist_of rt defaults))
         (comments r) (recheck_setting thresholds) = inr (verdict r)
    /\ index r = i
    /\ labels r = default (PList []) (m !! py "labels")
    /\ comments r = response_comments rt m
    /\ presence r = response_presence m
    /\ quality_flags r = _calc_basic_quality_flags rt img
    /\ stage r = py "nano"
    /\ requests w' = requests w1 /\ sleeps w' = sleeps w1.
Proof.
  unfold _analyze_one. destruct (normalize_blob i b) as [src_name raw] eqn:En. simpl.
  unfold mbind, task_bind, lift.
  destruct (load_and_resize rt raw 960) as [e | [data size]] eqn:E1; [discriminate |].
  destruct (Image_open_RGB rt data) as [e | img] eqn:E2; [discriminate |].
  destruct (nano_response nano data w) as [[e | d] w1] eqn:E3; [discriminate |].
  destruct (as_dict d) as [e | m] eqn:E4; [discriminate |].
  destruct (response_scores rt m) as [e | sc] eqn:E5; [discriminate |].
  destruct (py_float rt (conf_th_setting thresholds defaults)) as [e | th] eqn:E6;
    [discriminate |].
  match goal with
  | |- context [force_recheck_by_text ?v ?c ?ws] =>
      destruct (force_recheck_by_text v c ws) as [e | vd] eqn:E7; [discriminate |]
  end.
  intros H. injection H as <- <-. simpl.
  exists data, size, img, d, w1, m, th.
  unfold write_file_quietly. simpl.
  repeat split; try assumption; try reflexivity;
    destruct (writable w1 _); reflexivity.
Qed.

End WorkerFacts.

Example sample_analyze_one :
  verdict <$> fst (_analyze_one Sample.plain 3 (RawBytes Sample.jpeg) Sample.with_key
                     Sample.with_key ∅ ∅ (py "/tmp/analyze_x")
                     (Sample.world_of (fun _ => inr Sample.good_reply)))
  = inr v_ng.
Proof. vm_compute. reflexivity. Qed.

(** ** The forced-recheck stage *)

Lemma recheck_loop_words (ws : list str) (txt : str) :
  recheck_loop (map PStr ws) txt = inr (any_word_in ws txt).
Proof.
  induction ws as [|w ws IH]; simpl; [reflexivity |].
  destruct (truthy w); simpl; [| exact IH].
  destruct (contains w txt); simpl; [reflexivity | exact IH].
Qed.

Lemma iter_or_empty_words (ws : list str) :
  iter_or_empty (PList (map PStr ws)) = inr (map PStr ws).
Proof. destruct ws; reflexivity. Qed.

(** On a list of strings the stage is one test of the joined comments. *)
Lemma force_recheck_words verdict comments (ws : list str) :
  force_recheck_by_text verdict comments (PList (map PStr ws))
  = inr (if any_word_in ws (join (py " ") comments) then v_unknown else verdict).
Proof.
  unfold force_recheck_by_text. rewrite iter_or_empty_words. simpl.
  rewrite recheck_loop_words. reflexivity.
Qed.

(** C2: the forced-recheck stage wins over the score stage and the
    text-refinement stage.  When a non-empty literal of the recheck-whitelist
    occurs in the space-joined comments, the three stages in sequence yield
    "unknown" whatever the scores, the threshold and the OK-whitelist are, and
    so does the verdict of a result [_analyze_one] returns; when none occurs,
    [force_recheck_by_text] returns its input verdict. *)
Theorem C2_recheck_wins (rt : Runtime) (th : float) (sc : gmap str float)
    (cs ok_whitelist recheck_whitelist : list str) (v : str) :
  let txt := join (py " ") cs in
  (some_word_occurs recheck_whitelist txt ->
     force_recheck_by_text
       (refine_verdict_by_text (score_verdict th sc) cs ok_whitelist)
       cs (PList (map PStr recheck_whitelist)) = inr v_unknown)
  /\ (~ some_word_occurs recheck_whitelist txt ->
        force_recheck_by_text v cs (PList (map PStr recheck_whitelist)) = inr v)
  /\ (forall i b nano mini thresholds defaults base_dir w r w',
        _analyze_one rt i b nano mini thresholds defaults base_dir w = (inr r, w') ->
        thresholds !! py "RECHECK_WHITELIST" = Some (PList (map PStr recheck_whitelist)) ->
        some_word_occurs recheck_whitelist (join (py " ") (comments r)) ->
        verdict r = v_unknown).
Proof.
  cbv zeta. split; [| split].
  - intros H. rewrite force_recheck_words.
    apply any_word_in_spec in H. rewrite H. reflexivity.
  - intros H. rewrite force_recheck_words.
    destruct (any_word_in recheck_whitelist _) eqn:E; [| reflexivity].
    apply any_word_in_spec in E. contradiction.
  - intros i b nano mini thresholds defaults base_dir w r w' Hrun Hcfg Hocc.
    apply _analyze_one_returns in Hrun
      as (data & size & img & d & w1 & m & th' & _ & _ & _ & _ & _ & _ & Hv & _).
    unfold recheck_setting in Hv. rewrite Hcfg in Hv. simpl in Hv.
    rewrite force_recheck_words in Hv.
    apply any_word_in_spec in Hocc. rewrite Hocc in Hv. congruence.
Qed.

(** The example of the specification: the OK-whitelist and the
    recheck-whitelist both hold the literal that occurs in the comment. *)
Lemma C2_recheck_wins_witness :
  let sc : gmap str float := <[py "quality" := 0.9%float]> ∅ in
  let cs := [py "要確認: 髪の毛あり"] in
  let words := [py "要確認"] in
  let thresholds : gmap str pyval :=
    <[py "RECHECK_WHITELIST" := PList (map PStr words)]> ∅ in
  let defaults : gmap str pyval := <[py "ok_whitelist" := PStr (py "要確認")]> ∅ in
  force_recheck_by_text (refine_verdict_by_text (score_verdict 0.6%float sc) cs words)
    cs (PList (map PStr words)) = inr v_unknown
  /\ refine_verdict_by_text (score_verdict 0.6%float sc) cs words = v_ok
  /\ verdict <$> fst (_analyze_one Sample.plain 0 (RawBytes Sample.jpeg) Sample.with_key
                        Sample.with_key thresholds defaults (py "/tmp/analyze_x")
                        (Sample.world_of (fun _ => inr Sample.good_reply)))
     = inr v_unknown.
Proof.
  cbv zeta.
  assert (some_word_occurs [py "要確認"] (join (py " ") [py "要確認: 髪の毛あり"])) as Hocc
    by (apply any_word_in_spec; vm_compute; reflexivity).
  split; [| split].
  - apply (proj1 (C2_recheck_wins Sample.plain 0.6%float _ _ _ _ v_ok)). exact Hocc.
  - vm_compute. reflexivity.
  - match goal with
    | |- _ <$> fst ?run = _ => destruct run as [[e | r] w'] eqn:E
    end.
    + vm_compute in E. discriminate E.
    + simpl. f_equal.
      assert (comments r = [py "要確認: 髪の毛あり"]) as Hc.
      { vm_compute in E. injection E as <- _. reflexivity. }
      eapply (proj2 (proj2 (C2_recheck_wins Sample.plain 0.6%float ∅ [] [] [py "要確認"] v_ok))).
      * exact E.
      * vm_compute. reflexivity.
      * rewrite Hc. exact Hocc.
Defined.

(** ** The score stage and its threshold *)

Lemma any_score_spec (th : float) (sc : gmap str float) :
  existsb (fun kv : str * float => PrimFloat.leb th (snd kv)) (map_to_list sc) = true
  <-> some_score_reaches th sc.
Proof.
  unfold some_score_reaches. rewrite existsb_exists. split.
  - intros [[k v] [Hin Hv]]. exists k, v. split; [| exact Hv].
    apply elem_of_map_to_list, list_elem_of_In, Hin.
  - intros [k [v [Hk Hv]]]. exists (k, v). split; [| exact Hv].
    apply list_elem_of_In, elem_of_map_to_list, Hk.
Qed.

Lemma score_verdict_cases (th : float) (sc : gmap str float) :
  (some_score_reaches th sc /\ score_verdict th sc = v_ng)
  \/ (~ some_score_reaches th sc /\ score_verdict th sc = v_ok).
Proof.
  unfold score_verdict.
  destruct (bool_prop_cases _ _ (any_score_spec th sc)) as [[-> H] | [-> H]]; auto.
Qed.

(** ** Quality flags *)

Section QualityFlags.

Context (rt : Runtime) (img : image rt).

Lemma flags_distinct :
  flag_blur <> flag_dark /\ flag_blur <> flag_overexpose /\ flag_dark <> flag_overexpose.
Proof. repeat split; discriminate. Qed.

(** Case analysis on what every measurement gives. *)
Ltac flag_cases :=
  unfold _calc_basic_quality_flags, quality_flags_body, blur_due, dark_due,
    overexpose_due, blur_check_raises, raises, when;
  cbv zeta;
  destruct (_HAS_CV2 rt); simpl;
  destruct (laplacian_var rt img) as [?e | ?var]; simpl;
  try match goal with
      | |- context [PrimFloat.ltb ?v 80%float] =>
          destruct (PrimFloat.ltb v 80%float) eqn:?Evar; simpl
      end;
  destruct (gray_mean rt img) as [?e | ?mean]; simpl;
  try match goal with
      | |- context [PrimFloat.ltb ?v 60%float] =>
          destruct (PrimFloat.ltb v 60%float) eqn:?Emean; simpl
      end;
  destruct (gray_over_240 rt img) as [?e | ?over]; simpl;
  try match goal with
      | |- context [PrimFloat.ltb 0.40%float ?v] =>
          destruct (PrimFloat.ltb 0.40%float v) eqn:?Eover; simpl
      end.

(** A hypothesis of the case at hand cannot hold. *)
Ltac flag_contra :=
  exfalso;
  repeat match goal with
         | H : _ /\ _ |- _ => destruct H
         | H : exists _, _ |- _ => destruct H
         | H : inl _ = inr _ |- _ => discriminate H
         | H : inr _ = inl _ |- _ => discriminate H
         | H : false = true |- _ => discriminate H
         | H : inr _ = inr _ |- _ => injection H as <-
         | H : _ \/ _ |- _ => destruct H
         | H : False |- _ => destruct H
         end;
  first [ congruence
        | match goal with H : ~ _ |- _ => apply H; eauto; fail end ].

(** The premises of the case at hand hold. *)
Ltac flag_holds :=
  repeat match goal with
         | |- _ /\ _ => split
         | |- ~ _ => let H := fresh in intros H; flag_contra
         | |- exists _, _ => eexists
         | |- _ = _ => first [reflexivity | assumption]
         end.

Lemma flags_known f :
  In f (_calc_basic_quality_flags rt img) ->
  f = flag_blur \/ f = flag_dark \/ f = flag_overexpose.
Proof. flag_cases; intros Hf; simpl in Hf; intuition auto. Qed.

Lemma blur_flag_iff :
  In flag_blur (_calc_basic_quality_flags rt img) <->
  _HAS_CV2 rt = true /\
  exists var, laplacian_var rt img = inr var /\ PrimFloat.ltb var 80%float = true.
Proof.
  destruct flags_distinct as (Hbd & Hbo & Hdo).
  flag_cases; (split; intros H);
    first [ solve [flag_holds] | solve [simpl; auto] | flag_contra ].
Qed.

Lemma dark_flag_iff :
  In flag_dark (_calc_basic_quality_flags rt img) <->
  ~ blur_check_raises rt img /\
  exists mean, gray_mean rt img = inr mean /\ PrimFloat.ltb mean 60%float = true.
Proof.
  destruct flags_distinct as (Hbd & Hbo & Hdo).
  flag_cases; (split; intros H);
    first [ solve [flag_holds] | solve [simpl; auto] | flag_contra ].
Qed.

Lemma overexpose_flag_iff :
  In flag_overexpose (_calc_basic_quality_flags rt img) <->
  ~ blur_check_raises rt img /\ ~ raises (gray_mean rt img) /\
  exists over, gray_over_240 rt img = inr over /\ PrimFloat.ltb 0.40%float over = true.
Proof.
  destruct flags_distinct as (Hbd & Hbo & Hdo).
  flag_cases; (split; intros H);
    first [ solve [flag_holds] | solve [simpl; auto] | flag_contra ].
Qed.

Lemma flags_no_error :
  ~ blur_check_raises rt img -> ~ raises (gray_mean rt img) ->
  ~ raises (gray_over_240 rt img) ->
  _calc_basic_quality_flags rt img
  = when (blur_due rt img) flag_blur ++ when (dark_due rt img) flag_dark
    ++ when (overexpose_due rt img) flag_overexpose.
Proof. flag_cases; intros H1 H2 H3; first [reflexivity | flag_contra]. Qed.

Lemma flags_blur_error :
  blur_check_raises rt img -> _calc_basic_quality_flags rt img = [].
Proof. flag_cases; intros H1; first [reflexivity | flag_contra]. Qed.

Lemma flags_mean_error :
  ~ blur_check_raises rt img -> raises (gray_mean rt img) ->
  _calc_basic_quality_flags rt img = when (blur_due rt img) flag_blur.
Proof. flag_cases; intros H1 H2; first [reflexivity | flag_contra]. Qed.

Lemma flags_over_error :
  ~ blur_check_raises rt img -> ~ raises (gray_mean rt img) ->
  raises (gray_over_240 rt img) ->
  _calc_basic_quality_flags rt img
  = when (blur_due rt img) flag_blur ++ when (dark_due rt img) flag_dark.
Proof. flag_cases; intros H1 H2 H3; first [reflexivity | flag_contra]. Qed.

(** C9 (as amended): the flags are among blur, dark and overexpose.  "blur"
    is there exactly when OpenCV is available and the variance of the
    Laplacian is below 80.0 (without OpenCV the check is skipped); "dark"
    exactly when the checks before it did not raise and the mean is below 60;
    "overexpose" exactly when the checks before it did not raise and the
    fraction above 240 exceeds 0.40.  When no measurement raises, the three
    checks add their flags independently, in this order; when a measurement
    raises, the error is swallowed and the flags added before it are the
    result (none when the first check run is the one that raises).  The
    function is total: it never fails the image. *)
Theorem C9_quality_flags :
  let flags := _calc_basic_quality_flags rt img in
  (forall f, In f flags -> f = flag_blur \/ f = flag_dark \/ f = flag_overexpose)
  /\ (In flag_blur flags <->
      _HAS_CV2 rt = true /\
      exists var, laplacian_var rt img = inr var /\ PrimFloat.ltb var 80%float = true)
  /\ (In flag_dark flags <->
      ~ blur_check_raises rt img /\
      exists mean, gray_mean rt img = inr mean /\ PrimFloat.ltb mean 60%float = true)
  /\ (In flag_overexpose flags <->
      ~ blur_check_raises rt img /\ ~ raises (gray_mean rt img) /\
      exists over,
        gray_over_240 rt img = inr over /\ PrimFloat.ltb 0.40%float over = true)
  /\ (~ blur_check_raises rt img -> ~ raises (gray_mean rt img) ->
      ~ raises (gray_over_240 rt img) ->
      flags = when (blur_due rt img) flag_blur ++ when (dark_due rt img) flag_dark
              ++ when (overexpose_due rt img) flag_overexpose)
  /\ (blur_check_raises rt img -> flags = [])
  /\ (~ blur_check_raises rt img -> raises (gray_mean rt img) ->
      flags = when (blur_due rt img) flag_blur)
  /\ (~ blur_check_raises rt img -> ~ raises (gray_mean rt img) ->
      raises (gray_over_240 rt img) ->
      flags = when (blur_due rt img) flag_blur ++ when (dark_due rt img) flag_dark).
Proof.
  cbv zeta. split; [exact flags_known |].
  split; [exact blur_flag_iff |].
  split; [exact dark_flag_iff |].
  split; [exact overexpose_flag_iff |].
  split; [exact flags_no_error |].
  split; [exact flags_blur_error |].
  split; [exact flags_mean_error | exact flags_over_error].
Qed.

End QualityFlags.

(** C9 (as stated) fails when a later measurement raises after an earlier
    check has added its flag: with OpenCV there, a variance of 10.0 and a mean
    that raises, the result is ["blur"], not the empty flag set. *)
Lemma C9_flags_before_error_kept :
  let rt := Sample.runtime true (inr 10%float) (inl Sample.memory_error) (inr 0%float) in
  raises (gray_mean rt Sample.jpeg)
  /\ _calc_basic_quality_flags rt Sample.jpeg = [flag_blur]
  /\ _calc_basic_quality_flags rt Sample.jpeg <> [].
Proof.
  cbv zeta. split; [| split].
  - exists Sample.memory_error. reflexivity.
  - vm_compute. reflexivity.
  - vm_compute. discriminate.
Qed.

(** A dark, overexposed image without OpenCV, and a blurred image whose mean
    cannot be computed. *)
Lemma C9_quality_flags_witness :
  let dim := Sample.runtime false (inl Sample.memory_error) (inr 30%float) (inr 0.5%float) in
  let broken := Sample.runtime true (inr 10%float) (inl Sample.memory_error) (inr 0%float) in
  _calc_basic_quality_flags dim Sample.jpeg = [flag_dark; flag_overexpose]
  /\ _calc_basic_quality_flags broken Sample.jpeg = [flag_blur].
Proof.
  cbv zeta. split.
  - refine (proj1 (proj2 (proj2 (proj2 (proj2 (C9_quality_flags
              (Sample.runtime false (inl Sample.memory_error) (inr 30%float) (inr 0.5%float))
              Sample.jpeg))))) _ _ _).
    + intros [H _]. discriminate H.
    + intros [e H]. discriminate H.
    + intros [e H]. discriminate H.
  - refine (proj1 (proj2 (proj2 (proj2 (proj2 (proj2 (proj2 (C9_quality_flags
              (Sample.runtime true (inr 10%float) (inl Sample.memory_error) (inr 0%float))
              Sample.jpeg))))))) _ _).
    + intros [_ [e H]]. discriminate H.
    + exists Sample.memory_error. reflexivity.
Defined.

(** ** The retry policy *)

Import Tenacity.

Lemma pow2_pos n : 1 <= 2 ^ n.
Proof. induction n; simpl; lia. Qed.

Lemma wait_exponential_value a :
  wait_exponential 1 1 30 a = Nat.min (2 ^ (a - 1)) 30.
Proof. unfold wait_exponential. pose proof (pow2_pos (a - 1)). lia. Qed.

Lemma wait_exponential_bounds a : 1 <= wait_exponential 1 1 30 a <= 30.
Proof. rewrite wait_exponential_value. pose proof (pow2_pos (a - 1)). lia. Qed.

(** The four courses of a call of [analyze_one] on an available client, by
    the outcomes of the requests it makes. *)
Lemma analyze_one_course (c : OpenAIClient) (data : bytes) (w : world) :
  available c = true ->
  let n := length (requests w) in
  analyze_one c data w =
    match remote w n with
    | inr d => (inr d, after w [data] [])
    | inl _ =>
        match remote w (n + 1) with
        | inr d => (inr d, after w [data; data] [1])
        | inl _ =>
            match remote w (n + 2) with
            | inr d => (inr d, after w [data; data; data] [1; 2])
            | inl e => (inl e, after w [data; data; data] [1; 2])
            end
        end
    end.
Proof.
  intros Hav. cbv zeta.
  unfold analyze_one, retry, analyze_one_body. rewrite Hav. simpl.
  unfold after. rewrite !length_app, <- !app_assoc. simpl.
  rewrite <- Nat.add_assoc, app_nil_r. simpl.
  destruct (remote w (length (requests w))) as [e1 | d1]; [| reflexivity].
  destruct (remote w (length (requests w) + 1)) as [e2 | d2]; [| reflexivity].
  destruct (remote w (length (requests w) + 2)) as [e3 | d3]; reflexivity.
Qed.

Lemma nano_response_unavailable (nano : OpenAIClient) (data : bytes) (w : world) :
  available nano = false -> nano_response nano data w = (inr dry_run_response, w).
Proof. intros H. unfold nano_response, try_except. rewrite H. reflexivity. Qed.

(** The first tier never raises: its failure becomes a response. *)
Lemma nano_response_total (nano : OpenAIClient) (data : bytes) (w : world) :
  exists d w1, nano_response nano data w = (inr d, w1).
Proof.
  unfold nano_response, try_except.
  destruct ((if available nano then analyze_one nano data else mret dry_run_response) w)
    as [[e | d] w1]; simpl; eauto.
Qed.

(** ** Placeholder responses *)

Lemma dry_run_is_placeholder : dry_run_response = placeholder dry_run_comment.
Proof. unfold dry_run_response, placeholder, dry_run_comment. reflexivity. Qed.

Lemma failure_is_placeholder e : failure_response e = placeholder (failure_comment e).
Proof. unfold failure_response, placeholder, failure_comment. reflexivity. Qed.

Section WorkerRuns.

Context (rt : Runtime).

Lemma placeholder_fields comment m :
  as_dict (placeholder comment) = inr m ->
  default (PList []) (m !! py "labels") = PList []
  /\ response_scores rt m = inr (<[py "quality" := 0%float]> ∅)
  /\ response_comments rt m = [comment]
  /\ response_presence m = ∅.
Proof.
  intros H. injection H as <-.
  split; [vm_compute; reflexivity |].
  split; [vm_compute; reflexivity |].
  split; vm_compute; reflexivity.
Qed.

(** [_analyze_one] returns once the image decodes, the response is a [dict]
    whose scores convert, and the configuration is well formed. *)
Lemma _analyze_one_runs i b nano mini thresholds defaults base_dir w data img d w1 m sc th v :
  decodes rt i b data img ->
  nano_response nano data w = (inr d, w1) ->
  as_dict d = inr m ->
  response_scores rt m = inr sc ->
  py_float rt (conf_th_setting thresholds defaults) = inr th ->
  force_recheck_by_text
    (refine_verdict_by_text (score_verdict th sc) (response_comments rt m)
       (ok_whitelist_of rt defaults))
    (response_comments rt m) (recheck_setting thresholds) = inr v ->
  exists r w',
    _analyze_one rt i b nano mini thresholds defaults base_dir w = (inr r, w')
    /\ index r = i
    /\ labels r = default (PList []) (m !! py "labels")
    /\ scores r = sc
    /\ comments r = response_comments rt m
    /\ presence r = response_presence m
    /\ quality_flags r = _calc_basic_quality_flags rt img
    /\ verdict r = v
    /\ requests w' = requests w1 /\ sleeps w' = sleeps w1.
Proof.
  intros (size & H1 & H2) H3 H4 H5 H6 H7.
  unfold _analyze_one. destruct (normalize_blob i b) as [src_name raw] eqn:En.
  simpl in H1. unfold mbind, task_bind, lift.
  rewrite H1, H2, H3, H4, H5, H6.
  unfold ok_whitelist_of, recheck_setting in H7. rewrite H7.
  unfold write_file_quietly, mret, task_ret.
  eexists. eexists. split; [reflexivity |].
  simpl. repeat split; destruct (writable w1 _); reflexivity.
Qed.

(** With an unavailable first tier no request is made and nothing waits,
    however the run ends. *)
Lemma _analyze_one_unavailable_quiet i b nano mini thresholds defaults base_dir w :
  available nano = false ->
  let w' := snd (_analyze_one rt i b nano mini thresholds defaults base_dir w) in
  requests w' = requests w /\ sleeps w' = sleeps w.
Proof.
  intros Hav. cbv zeta.
  unfold _analyze_one. destruct (normalize_blob i b) as [src_name raw].
  unfold mbind, task_bind, lift.
  destruct (load_and_resize rt raw 960) as [e | [data size]]; [split; reflexivity |].
  destruct (Image_open_RGB rt data) as [e | img]; [split; reflexivity |].
  rewrite (nano_response_unavailable nano data w Hav).
  destruct (as_dict dry_run_response) as [e | m]; [split; reflexivity |].
  destruct (response_scores rt m) as [e | sc]; [split; reflexivity |].
  destruct (py_float rt (conf_th_setting thresholds defaults)) as [e | th];
    [split; reflexivity |].
  match goal with
  | |- context [force_recheck_by_text ?v ?c ?ws] =>
      destruct (force_recheck_by_text v c ws) as [e | vd]; [split; reflexivity |]
  end.
  unfold write_file_quietly. simpl. destruct (writable w _); split; reflexivity.
Qed.

(** A returning run on an unavailable first tier carries the dry-run
    placeholder. *)
Lemma _analyze_one_unavailable_result i b nano mini thresholds defaults base_dir w r w' :
  available nano = false ->
  _analyze_one rt i b nano mini thresholds defaults base_dir w = (inr r, w') ->
  placeholder_result dry_run_comment r.
Proof.
  intros Hav Hrun.
  apply _analyze_one_returns in Hrun
    as (data & size & img & d & w1 & m & th & _ & _ & Hn & Hd & Hs & _ & _ & _ & Hl & Hc & Hp & _).
  rewrite (nano_response_unavailable nano data w Hav) in Hn. injection Hn as <- _.
  rewrite dry_run_is_placeholder in Hd.
  destruct (placeholder_fields dry_run_comment m Hd) as (Fl & Fs & Fc & Fp).
  unfold placeholder_result. rewrite Hl, Hc, Hp, Fl, Fc, Fp.
  rewrite Fs in Hs. injection Hs as <-. repeat split; reflexivity.
Qed.

End WorkerRuns.

(** C7: the classification call is attempted at most 3 times, with a wait of
    [min(2 ^ (a - 1), 30)] after the failed attempt [a] (1 first, never above
    30) and no wait after the last; the first attempt that succeeds among the
    three gives the response returned; when all three raise, the last
    exception is raised to [_analyze_one], which turns it into the failure
    placeholder (no labels, a zero quality score, one error comment, no
    presence) and returns a result for the image. *)
Theorem C7_retry_policy (rt : Runtime) (c : OpenAIClient) (data : bytes) (w : world) :
  available c = true ->
  let n := length (requests w) in
  let out := analyze_one c data w in
  (exists k, k < 3
     /\ requests (snd out) = requests w ++ replicate (S k) data
     /\ sleeps (snd out) = sleeps w ++ map (wait_exponential 1 1 30) (seq 1 k))
  /\ wait_exponential 1 1 30 1 = 1
  /\ (forall a, wait_exponential 1 1 30 a = Nat.min (2 ^ (a - 1)) 30
                /\ 1 <= wait_exponential 1 1 30 a <= 30)
  /\ (forall k d, k < 3 ->
        (forall j, j < k -> raises (remote w (n + j))) ->
        remote w (n + k) = inr d ->
        fst out = inr d)
  /\ (forall e, raises (remote w n) -> raises (remote w (n + 1)) ->
        remote w (n + 2) = inl e ->
        fst out = inl e
        /\ length (requests (snd out)) = n + 3
        /\ nano_response c data w = (inr (failure_response e), snd out)
        /\ (forall i b mini thresholds defaults base_dir img th ws,
              decodes rt i b data img ->
              py_float rt (conf_th_setting thresholds defaults) = inr th ->
              recheck_setting thresholds = PList (map PStr ws) ->
              exists r w',
                _analyze_one rt i b c mini thresholds defaults base_dir w = (inr r, w')
                /\ index r = i
                /\ placeholder_result (failure_comment e) r)).
Proof.
  intros Hav n out.
  pose proof (analyze_one_course c data w Hav) as Hc. cbv zeta in Hc.
  fold n in Hc. fold out in Hc.
  split; [| split; [reflexivity | split; [| split]]].
  - destruct (remote w n) as [e1 | d1]; [destruct (remote w (n + 1)) as [e2 | d2];
      [destruct (remote w (n + 2)) as [e3 | d3] |] |]; rewrite Hc; simpl.
    + exists 2. split; [lia | split; reflexivity].
    + exists 2. split; [lia | split; reflexivity].
    + exists 1. split; [lia | split; reflexivity].
    + exists 0. split; [lia | split; reflexivity].
  - intros a. split; [apply wait_exponential_value | apply wait_exponential_bounds].
  - intros k d Hk Hfail Hok.
    destruct k as [|[|[|k]]]; [| | | lia].
    + rewrite Nat.add_0_r in Hok. rewrite Hok in Hc. rewrite Hc. reflexivity.
    + destruct (Hfail 0) as [e1 H1]; [lia |]. rewrite Nat.add_0_r in H1.
      rewrite H1, Hok in Hc. rewrite Hc. reflexivity.
    + destruct (Hfail 0) as [e1 H1]; [lia |]. rewrite Nat.add_0_r in H1.
      destruct (Hfail 1) as [e2 H2]; [lia |].
      rewrite H1, H2, Hok in Hc. rewrite Hc. reflexivity.
  - intros e [e1 H1] [e2 H2] H3. rewrite H1, H2, H3 in Hc.
    assert (nano_response c data w = (inr (failure_response e), snd out)) as Hn.
    { unfold nano_response, try_except. rewrite Hav. fold out. rewrite Hc. reflexivity. }
    split; [rewrite Hc; reflexivity |].
    split; [rewrite Hc; simpl; rewrite length_app; simpl; fold n; lia |].
    split; [exact Hn |].
    intros i b mini thresholds defaults base_dir img th ws Hdec Hth Hws.
    pose proof (failure_is_placeholder e) as Hp.
    assert (as_dict (placeholder (failure_comment e))
            = inr (<[py "labels" := PList []]>
                  (<[py "scores" := PDict (<[py "quality" := PFloat 0%float]> ∅)]>
                  (<[py "comments" := PList [PStr (failure_comment e)]]>
                  (<[py "presence" := PDict ∅]> ∅))))) as Hd by reflexivity.
    destruct (placeholder_fields rt _ _ Hd) as (Fl & Fs & Fc & Fp).
    rewrite <- Hp in Hd.
    match type of Fs with
    | response_scores _ ?m = inr ?sc =>
        pose proof (force_recheck_words
                      (refine_verdict_by_text (score_verdict th sc) (response_comments rt m)
                         (ok_whitelist_of rt defaults))
                      (response_comments rt m) ws) as Hv
    end.
    rewrite <- Hws in Hv.
    destruct (_analyze_one_runs rt i b c mini thresholds defaults base_dir w data img
                _ _ _ _ th _ Hdec Hn Hd Fs Hth Hv)
      as (r & w' & Hrun & Hi & Rl & Rs & Rc & Rp & _).
    exists r, w'. split; [exact Hrun | split; [exact Hi |]].
    unfold placeholder_result. rewrite Rl, Rs, Rc, Rp, Fl, Fc, Fp.
    repeat split; reflexivity.
Qed.

(** A remote that fails twice and then answers, and one that always fails. *)
Lemma C7_retry_policy_witness :
  let flaky := Sample.world_of
                 (fun k => if k <? 2 then inl Sample.timeout_error else inr Sample.good_reply) in
  let down := Sample.world_of (fun _ => inl Sample.timeout_error) in
  fst (analyze_one Sample.with_key Sample.jpeg flaky) = inr Sample.good_reply
  /\ fst (analyze_one Sample.with_key Sample.jpeg down) = inl Sample.timeout_error
  /\ length (requests (snd (analyze_one Sample.with_key Sample.jpeg down))) = 3
  /\ exists r w',
       _analyze_one Sample.plain 0 (RawBytes Sample.jpeg) Sample.with_key Sample.with_key
         ∅ ∅ (py "/tmp/analyze_x") down = (inr r, w')
       /\ index r = 0
       /\ placeholder_result (failure_comment Sample.timeout_error) r.
Proof.
  cbv zeta.
  assert (available Sample.with_key = true) as Hav by (vm_compute; reflexivity).
  split.
  - refine (proj1 (proj2 (proj2 (proj2 (C7_retry_policy Sample.plain Sample.with_key
              Sample.jpeg _ Hav)))) 2 Sample.good_reply _ _ _).
    + lia.
    + intros j Hj. exists Sample.timeout_error.
      destruct j as [|[|j]]; [reflexivity | reflexivity | lia].
    + reflexivity.
  - destruct (proj2 (proj2 (proj2 (proj2 (C7_retry_policy Sample.plain Sample.with_key
                Sample.jpeg (Sample.world_of (fun _ => inl Sample.timeout_error)) Hav))))
                Sample.timeout_error)
      as (H1 & H2 & _ & H4).
    + exists Sample.timeout_error. reflexivity.
    + exists Sample.timeout_error. reflexivity.
    + reflexivity.
    + split; [exact H1 | split; [exact H2 |]].
      apply (H4 0 (RawBytes Sample.jpeg) Sample.with_key ∅ ∅ (py "/tmp/analyze_x")
               Sample.jpeg 0.6%float []).
      * exists (640, 480). split; vm_compute; reflexivity.
      * vm_compute. reflexivity.
      * vm_compute. reflexivity.
Defined.

(** ** Collecting and ordering the results *)

Lemma insert_by_index_perm r l : Permutation (r :: l) (insert_by_index r l).
Proof.
  induction l as [|x l IH]; simpl; [reflexivity |].
  destruct (index r <=? index x); [reflexivity |].
  rewrite perm_swap. apply perm_skip, IH.
Qed.

Lemma sort_by_index_perm l : Permutation l (sort_by_index l).
Proof.
  induction l as [|r l IH]; simpl; [reflexivity |].
  rewrite <- insert_by_index_perm. apply perm_skip, IH.
Qed.

Lemma insert_by_index_sorted r l :
  Sorted le (map index l) -> Sorted le (map index (insert_by_index r l)).
Proof.
  induction l as [|x l IH]; simpl; intros Hs.
  - repeat constructor.
  - destruct (Nat.leb_spec (index r) (index x)) as [Hle | Hlt]; simpl.
    + constructor; [exact Hs | constructor; exact Hle].
    + apply Sorted_inv in Hs as [Hs Hhd]. constructor; [apply IH, Hs |].
      destruct l as [|y l]; simpl.
      * constructor. lia.
      * destruct (index r <=? index y); simpl; constructor; [lia |].
        apply HdRel_inv in Hhd. exact Hhd.
Qed.

Lemma sort_by_index_sorted l : Sorted le (map index (sort_by_index l)).
Proof.
  induction l as [|r l IH]; simpl; [constructor | apply insert_by_index_sorted, IH].
Qed.

Lemma seq_sorted a n : Sorted le (seq a n).
Proof.
  revert a. induction n as [|n IH]; intros a; simpl; constructor; [apply IH |].
  destruct n; simpl; constructor. lia.
Qed.

(** Sorting results whose indices are a rearrangement of [0 .. n-1] puts
    them at their indices. *)
Lemma sorted_indices l n :
  Permutation (map index l) (seq 0 n) -> map index (sort_by_index l) = seq 0 n.
Proof.
  intros Hp. apply (Sorted_unique le).
  - apply sort_by_index_sorted.
  - apply seq_sorted.
  - rewrite <- Hp. apply Permutation_map. symmetry. apply sort_by_index_perm.
Qed.

Lemma collect_inr futures order rs :
  collect futures order = inr rs ->
  (forall i, In i order -> i < length futures) ->
  Forall2 (fun i r => futures !! i = Some (inr r)) order rs.
Proof.
  revert rs. induction order as [|i order IH]; simpl; intros rs Hc Hin.
  - injection Hc as <-. constructor.
  - destruct (futures !! i) as [[e | r] |] eqn:E.
    + discriminate Hc.
    + destruct (collect futures order) as [e | rs'] eqn:Ec; [discriminate Hc |].
      simpl in Hc. injection Hc as <-. constructor; [exact E |].
      apply IH; [reflexivity | intros j Hj; apply Hin; right; exact Hj].
    + apply lookup_ge_None in E. specialize (Hin i (or_introl eq_refl)).
      exfalso. unfold result in *. lia.
Qed.

Lemma collect_inl futures order j e :
  In j order -> futures !! j = Some (inl e) -> exists e', collect futures order = inl e'.
Proof.
  induction order as [|i order IH]; simpl; intros Hin Hj; [destruct Hin |].
  destruct Hin as [-> | Hin].
  - rewrite Hj. eauto.
  - destruct (IH Hin Hj) as [e' He'].
    destruct (futures !! i) as [[e0 | r] |]; [eauto | | eauto].
    rewrite He'. simpl. eauto.
Qed.

Lemma collect_total futures order :
  (forall i, In i order -> exists r, futures !! i = Some (inr r)) ->
  exists rs, collect futures order = inr rs.
Proof.
  induction order as [|i order IH]; simpl; intros H; [eauto |].
  destruct (H i (or_introl eq_refl)) as [r ->].
  destruct IH as [rs ->]; [intros j Hj; apply H; right; exact Hj |].
  simpl. eauto.
Qed.

Lemma map_fmap {A B} (f : A -> B) (l : list A) : map f l = f <$> l.
Proof. induction l as [|x l IH]; simpl; [reflexivity | rewrite IH; reflexivity]. Qed.

Lemma collected_indices (futures : list (result ImageResult)) order rs :
  (forall i r, futures !! i = Some (inr r) -> index r = i) ->
  Forall2 (fun i r => futures !! i = Some (inr r)) order rs ->
  map index rs = order /\ (forall r, In r rs -> futures !! index r = Some (inr r)).
Proof.
  intros Hidx HF. induction HF as [|i r order rs Hi HF [IH1 IH2]]; simpl.
  - split; [reflexivity | intros r []].
  - pose proof (Hidx i r Hi) as E. split; [rewrite E, IH1; reflexivity |].
    intros r' [<- | Hr']; [rewrite E; exact Hi | apply IH2, Hr'].
Qed.

(** Whatever the order of completion, the sorted results are the results of
    the futures, each at the position of its future. *)
Lemma collect_in_order (futures : list (result ImageResult)) order rs :
  Permutation order (seq 0 (length futures)) ->
  (forall i r, futures !! i = Some (inr r) -> index r = i) ->
  collect futures order = inr rs ->
  futures = map inr (sort_by_index rs).
Proof.
  intros Hp Hidx Hc.
  assert (forall i, In i order -> i < length futures) as Hrange.
  { intros i Hi. apply (Permutation_in _ Hp), in_seq in Hi. lia. }
  destruct (collected_indices futures order rs Hidx (collect_inr _ _ _ Hc Hrange))
    as [Hmap Hmem].
  assert (map index (sort_by_index rs) = seq 0 (length futures)) as HS.
  { apply sorted_indices. rewrite Hmap. exact Hp. }
  assert (length (sort_by_index rs) = length futures) as Hlen.
  { rewrite <- (length_map index), HS. apply length_seq. }
  apply list_eq. intros i. rewrite map_fmap, list_lookup_fmap.
  destruct (sort_by_index rs !! i) as [r |] eqn:E; simpl.
  - assert (index r = i) as Hi.
    { assert (map index (sort_by_index rs) !! i = Some (index r)) as E'
        by (rewrite map_fmap, list_lookup_fmap, E; reflexivity).
      rewrite HS in E'. apply lookup_seq in E'. lia. }
    rewrite <- Hi at 1. apply Hmem.
    apply (Permutation_in _ (Permutation_sym (sort_by_index_perm rs))).
    apply list_elem_of_In, list_elem_of_lookup. eauto.
  - apply lookup_ge_None. apply lookup_ge_None in E. unfold result in *. lia.
Qed.

Section BatchFacts.

Context (rt : Runtime).

Lemma run_tasks_lookup env files nano mini thresholds defaults base_dir i :
  run_tasks rt env files nano mini thresholds defaults base_dir !! i
  = (fun b => _analyze_one rt i b nano mini thresholds defaults base_dir (task_world env i))
    <$> files !! i.
Proof. unfold run_tasks. apply list_lookup_imap. Qed.

Lemma run_tasks_index env files nano mini thresholds defaults base_dir i r :
  map fst (run_tasks rt env files nano mini thresholds defaults base_dir) !! i
  = Some (inr r) ->
  index r = i.
Proof.
  rewrite map_fmap, list_lookup_fmap, run_tasks_lookup.
  destruct (files !! i) as [b |]; simpl; [| discriminate].
  destruct (_analyze_one rt i b _ _ _ _ _ _) as [[e | r'] w'] eqn:E; simpl;
    intros H; [discriminate |].
  injection H as <-.
  apply _analyze_one_returns in E
    as (data & size & img & d & w1 & m & th & _ & _ & _ & _ & _ & _ & _ & Hi & _).
  exact Hi.
Qed.

(** What a returning run of [analyze_headless] went through. *)
Lemma analyze_headless_returns env files property_name api_key thresholds defaults
    summary results base_dir job_id :
  Permutation (completion env) (seq 0 (length files)) ->
  fst (analyze_headless rt env files property_name api_key thresholds defaults)
  = inr (summary, results, base_dir, job_id) ->
  exists defaults',
    with_global_whitelist (default ∅ thresholds) (default ∅ defaults) = inr defaults'
    /\ mkdtemp env = inr base_dir
    /\ job_id = job_clock env
    /\ summary = summarize results
    /\ length results = length files
    /\ (forall i r, results !! i = Some r ->
          exists b w',
            files !! i = Some b
            /\ _analyze_one rt i b (nano_of api_key) (mini_of api_key)
                 (default ∅ thresholds) defaults' base_dir (task_world env i)
               = (inr r, w')).
Proof.
  intros Hp. unfold analyze_headless.
  destruct (with_global_whitelist _ _) as [e | defaults'] eqn:Ew; [discriminate |].
  destruct (mkdtemp env) as [e | base] eqn:Em; [discriminate |].
  simpl. fold (nano_of api_key) (mini_of api_key).
  set (futures := run_tasks rt env files _ _ _ _ _).
  destruct (collect (map fst futures) (completion env)) as [e | rs] eqn:Ec;
    [discriminate |].
  simpl. intros H. injection H as <- <- <- <-.
  assert (length (map fst futures) = length files) as Hlen.
  { rewrite length_map. unfold futures, run_tasks. apply length_imap. }
  assert (map fst futures = map inr (sort_by_index rs)) as Hf.
  { apply (collect_in_order _ (completion env)).
    - rewrite Hlen. exact Hp.
    - intros i r. apply run_tasks_index.
    - exact Ec. }
  exists defaults'. repeat split.
  - rewrite <- Hlen, Hf, length_map. reflexivity.
  - intros i r Hr.
    assert (map fst futures !! i = Some (inr r)) as Hi
      by (rewrite Hf, map_fmap, list_lookup_fmap, Hr; reflexivity).
    rewrite map_fmap, list_lookup_fmap in Hi. unfold futures in Hi.
    rewrite run_tasks_lookup in Hi.
    destruct (files !! i) as [b |]; simpl in Hi; [| discriminate].
    destruct (_analyze_one rt i b _ _ _ _ _ _) as [res w'] eqn:E. simpl in Hi.
    injection Hi as ->. exists b, w'. split; [reflexivity | exact E].
Qed.

End BatchFacts.

(** ** The batch invariant *)

Lemma score_verdict_known th sc : known_verdict (score_verdict th sc).
Proof. unfold score_verdict, known_verdict. destruct (existsb _ _); auto. Qed.

Lemma refine_verdict_known v cs wl :
  known_verdict v -> known_verdict (refine_verdict_by_text v cs wl).
Proof.
  intros Hv. unfold refine_verdict_by_text, known_verdict.
  destruct (any_word_in _ _); [auto |].
  destruct (_ || _ || _); [auto |].
  destruct (search POS_ANY _); [auto |].
  destruct (search ANY_KW _); auto.
Qed.

Lemma force_recheck_known v cs ws v' :
  known_verdict v -> force_recheck_by_text v cs ws = inr v' -> known_verdict v'.
Proof.
  intros Hv. unfold force_recheck_by_text.
  destruct (iter_or_empty ws) as [e | l]; simpl; [discriminate |].
  destruct (recheck_loop l _) as [e | hit]; simpl; [discriminate |].
  intros H. injection H as <-. destruct hit; [unfold known_verdict; auto | exact Hv].
Qed.

Lemma count_partition (l : list ImageResult) :
  Forall (fun r => known_verdict (verdict r)) l ->
  count_where verdict v_ok l + count_where verdict v_ng l
  + count_where verdict v_unknown l = length l.
Proof.
  destruct verdicts_distinct as (H1 & H2 & H3).
  unfold count_where. induction 1 as [|r l Hr Hl IH]; [reflexivity |].
  rewrite !filter_cons. simpl.
  destruct Hr as [E | [E | E]]; rewrite E;
    repeat (destruct (decide _) as [D | D]; try congruence); simpl; lia.
Qed.

(** A list of results with known verdicts falls into three classes. *)
Lemma verdict_partition (l : list ImageResult) :
  Forall (fun r => known_verdict (verdict r)) l ->
  Permutation l
    (filter (fun r => verdict r = v_ok) l ++ filter (fun r => verdict r = v_ng) l
     ++ filter (fun r => verdict r = v_unknown) l).
Proof.
  destruct verdicts_distinct as (H1 & H2 & H3).
  induction 1 as [|r l Hr Hl IH]; [reflexivity |].
  rewrite !filter_cons.
  destruct Hr as [E | [E | E]]; rewrite E;
    repeat (destruct (decide _) as [D | D]; try congruence).
  - simpl. constructor. exact IH.
  - apply Permutation_cons_app. exact IH.
  - rewrite app_assoc. apply Permutation_cons_app. rewrite <- app_assoc. exact IH.
Qed.

Lemma filter_verdict_length (l : list ImageResult) (v : str) :
  length (filter (fun r => verdict r = v) l)
  = length (filter (fun x => x = v) (map verdict l)).
Proof.
  induction l as [|r l IH]; [reflexivity |].
  simpl map. rewrite !filter_cons.
  destruct (decide (verdict r = v)); simpl; rewrite IH; reflexivity.
Qed.

Section Invariant.

Context (rt : Runtime).

Lemma _analyze_one_verdict_known i b nano mini thresholds defaults base_dir w r w' :
  _analyze_one rt i b nano mini thresholds defaults base_dir w = (inr r, w') ->
  known_verdict (verdict r).
Proof.
  intros Hrun. apply _analyze_one_returns in Hrun
    as (data & size & img & d & w1 & m & th & _ & _ & _ & _ & _ & _ & Hv & _).
  eapply force_recheck_known; [| exact Hv].
  apply refine_verdict_known, score_verdict_known.
Qed.

(** C1: when [analyze_headless] returns, whatever the order in which the
    futures completed, the result list has one result per input position:
    its indices are 0, 1, ..., n-1 in this order (each index below the batch
    size once, ascending, each result at its own index), every verdict is
    "ok", "ng" or "unknown", and the three counts of the summary are the
    sizes of the three classes into which the verdicts divide the results:
    the results are, up to order, the "ok" ones, the "ng" ones and the
    "unknown" ones, each count is the number of results of its class, and the
    counts add up to the batch size. *)
Theorem C1_results_invariant env files property_name api_key thresholds defaults
    summary results base_dir job_id :
  Permutation (completion env) (seq 0 (length files)) ->
  fst (analyze_headless rt env files property_name api_key thresholds defaults)
  = inr (summary, results, base_dir, job_id) ->
  length results = length files
  /\ map index results = seq 0 (length files)
  /\ (forall i r, results !! i = Some r -> index r = i)
  /\ NoDup (map index results)
  /\ Sorted lt (map index results)
  /\ Forall (fun r => known_verdict (verdict r)) results
  /\ ok summary = length (filter (fun r => verdict r = v_ok) results)
  /\ ng summary = length (filter (fun r => verdict r = v_ng) results)
  /\ unknown summary = length (filter (fun r => verdict r = v_unknown) results)
  /\ (exists oks ngs unknowns,
        Permutation results (oks ++ ngs ++ unknowns)
        /\ Forall (fun r => verdict r = v_ok) oks
        /\ Forall (fun r => verdict r = v_ng) ngs
        /\ Forall (fun r => verdict r = v_unknown) unknowns
        /\ ok summary = length oks
        /\ ng summary = length ngs
        /\ unknown summary = length unknowns)
  /\ ok summary + ng summary + unknown summary = length files.
Proof.
  intros Hp Hret.
  destruct (analyze_headless_returns rt _ _ _ _ _ _ _ _ _ _ Hp Hret)
    as (defaults' & _ & _ & _ & -> & Hlen & Htask).
  assert (forall i r, results !! i = Some r -> index r = i) as Hpos.
  { intros i r Hr. destruct (Htask i r Hr) as (b & w' & _ & Hrun).
    apply _analyze_one_returns in Hrun
      as (data & size & img & d & w1 & m & th & _ & _ & _ & _ & _ & _ & _ & Hi & _).
    exact Hi. }
  assert (map index results = seq 0 (length files)) as Hidx.
  { apply list_eq. intros i. rewrite map_fmap, list_lookup_fmap.
    destruct (results !! i) as [r |] eqn:E; simpl.
    - rewrite (Hpos i r E). symmetry. apply lookup_seq_lt.
      rewrite <- Hlen. apply lookup_lt_Some in E. exact E.
    - symmetry. apply lookup_seq_ge. rewrite <- Hlen.
      apply lookup_ge_None in E. exact E. }
  assert (Forall (fun r => known_verdict (verdict r)) results) as Hkn.
  { apply Forall_forall. intros r Hr.
    apply list_elem_of_lookup in Hr as [i Hi].
    destruct (Htask i r Hi) as (b & w' & _ & Hrun).
    eapply _analyze_one_verdict_known, Hrun. }
  split; [exact Hlen |]. split; [exact Hidx |]. split; [exact Hpos |].
  split; [rewrite Hidx; apply NoDup_ListNoDup, seq_NoDup |].
  split; [rewrite Hidx; clear; generalize 0 as a; induction (length files) as [|n IH];
          intros a; simpl; constructor; [apply IH | destruct n; simpl; constructor; lia] |].
  split; [exact Hkn |].
  unfold summarize, count_where. cbn [ok ng unknown].
  split; [reflexivity |]. split; [reflexivity |]. split; [reflexivity |].
  split.
  - exists (filter (fun r => verdict r = v_ok) results),
      (filter (fun r => verdict r = v_ng) results),
      (filter (fun r => verdict r = v_unknown) results).
    split; [apply verdict_partition, Hkn |].
    repeat split; try reflexivity;
      apply Forall_forall; intros r Hr; apply list_elem_of_filter in Hr; apply Hr.
  - pose proof (Permutation_length (verdict_partition results Hkn)) as HP.
    rewrite !length_app in HP. lia.
Qed.

End Invariant.

(** Three uploads whose futures complete in the order 2, 0, 1: the second
    is found clean, the others are not. *)
Lemma C1_results_invariant_witness :
  exists summary results base_dir job_id,
    fst (analyze_headless Sample.plain (Sample.env Sample.mixed_replies [2; 0; 1])
           Sample.uploads (py "room 101") (Some (py "sk-test")) None None)
    = inr (summary, results, base_dir, job_id)
    /\ map index results = [0; 1; 2]
    /\ map verdict results = [v_ng; v_ok; v_ng]
    /\ ok summary = 1 /\ ng summary = 2 /\ unknown summary = 0.
Proof.
  assert (match fst (analyze_headless Sample.plain
                       (Sample.env Sample.mixed_replies [2; 0; 1])
                       Sample.uploads (py "room 101") (Some (py "sk-test")) None None)
          with
          | inr (_, results, _, _) => map verdict results = [v_ng; v_ok; v_ng]
          | inl _ => False
          end) as Hv by (vm_compute; reflexivity).
  destruct (fst (analyze_headless Sample.plain (Sample.env Sample.mixed_replies [2; 0; 1])
                   Sample.uploads (py "room 101") (Some (py "sk-test")) None None))
    as [e | [[[summary results] base_dir] job_id]] eqn:E; [destruct Hv |].
  exists summary, results, base_dir, job_id. split; [reflexivity |].
  destruct (C1_results_invariant Sample.plain
              (Sample.env Sample.mixed_replies [2; 0; 1]) Sample.uploads
              _ _ _ _ _ _ _ _ (Permutation_cons_append [0; 1] 2) E)
    as (_ & Hidx & _ & _ & _ & _ & Hok & Hng & Hun & _).
  split; [exact Hidx |]. split; [exact Hv |].
  rewrite Hok, Hng, Hun, !filter_verdict_length, Hv.
  split; [| split]; vm_compute; reflexivity.
Defined.

(** ** A decode failure *)

Section DecodeFailure.

Context (rt : Runtime).

(** The decoding steps of [_analyze_one] are outside every [try]: their
    exception leaves the worker. *)
Lemma _analyze_one_decode_error i b nano mini thresholds defaults base_dir w e :
  load_and_resize rt (snd (normalize_blob i b)) 960 = inl e ->
  _analyze_one rt i b nano mini thresholds defaults base_dir w = (inl e, w).
Proof.
  intros H. unfold _analyze_one. destruct (normalize_blob i b) as [src_name raw].
  simpl in H. unfold mbind, task_bind, lift. rewrite H. reflexivity.
Qed.

(** C5 (the code, against the claim): when the bytes of one image of the
    batch do not decode, [analyze_headless] raises: no result list is
    returned, for that image or for any other. *)
Theorem C5_decode_failure_aborts env files property_name api_key thresholds defaults j b e :
  files !! j = Some b ->
  In j (completion env) ->
  load_and_resize rt (snd (normalize_blob j b)) 960 = inl e ->
  exists e',
    fst (analyze_headless rt env files property_name api_key thresholds defaults) = inl e'.
Proof.
  intros Hj Hin Hdec. unfold analyze_headless.
  destruct (with_global_whitelist _ _) as [e0 | defaults']; [eauto |].
  destruct (mkdtemp env) as [e0 | base_dir]; [eauto |].
  simpl.
  match goal with
  | |- context [collect ?fs ?order] =>
      destruct (collect_inl fs order j e Hin) as [e' He']
  end.
  - rewrite map_fmap, list_lookup_fmap, run_tasks_lookup, Hj. simpl.
    rewrite (_analyze_one_decode_error _ _ _ _ _ _ _ _ e Hdec). reflexivity.
  - exists e'. rewrite He'. reflexivity.
Qed.

End DecodeFailure.

(** A valid upload followed by an empty one. *)
Lemma C5_decode_failure_aborts_witness :
  let files := [NamedBytes (Some (py "a.jpg")) Sample.jpeg; NamedBytes (Some (py "b.jpg")) []] in
  exists e',
    fst (analyze_headless Sample.plain
           (Sample.env (fun _ _ => inr Sample.good_reply) [0; 1])
           files (py "room 101") (Some (py "sk-test")) None None) = inl e'.
Proof.
  cbv zeta.
  apply (C5_decode_failure_aborts Sample.plain _ _ _ _ _ _ 1
           (NamedBytes (Some (py "b.jpg")) [])
           (Exn "UnidentifiedImageError" (py "cannot identify image file"))).
  - reflexivity.
  - right. left. reflexivity.
  - vm_compute. reflexivity.
Defined.

(** The batch of the witness, run: the exception of the second image is
    what [analyze_headless] raises, although the first image has a result. *)
Example decode_failure_run :
  fst (analyze_headless Sample.plain
         (Sample.env (fun _ _ => inr Sample.good_reply) [0; 1])
         [NamedBytes (Some (py "a.jpg")) Sample.jpeg; NamedBytes (Some (py "b.jpg")) []]
         (py "room 101") (Some (py "sk-test")) None None)
  = inl (Exn "UnidentifiedImageError" (py "cannot identify image file")).
Proof. vm_compute. reflexivity. Qed.

(** ** Presence evidence *)

Lemma is_true_spec (v : option pyval) : is_true v = true <-> v = Some (PBool true).
Proof.
  destruct v as [[| [|] | | | | |] |]; simpl; split; intros H;
    first [reflexivity | discriminate H].
Qed.

Lemma amenities_NoDup : NoDup amenities.
Proof. apply (bool_decide_unpack _). vm_compute. reflexivity. Qed.

(** The inner loop changes the list of an amenity exactly when the presence
    of the result is [True] for it. *)
Lemma inner_loop_lookup (r : ImageResult) (keys : list str) (pe : gmap str (list nat)) k :
  NoDup keys ->
  fold_left
    (fun pe k =>
       if is_true (presence r !! k)
       then <[k := default [] (pe !! k) ++ [index r]]> pe
       else pe) keys pe !! k
  = if bool_decide (k ∈ keys) && is_true (presence r !! k)
    then Some (default [] (pe !! k) ++ [index r])
    else pe !! k.
Proof.
  intros Hnd. revert pe. induction Hnd as [|a keys Ha Hnd IH]; intros pe; simpl.
  - reflexivity.
  - rewrite IH. destruct (decide (k = a)) as [-> | Hne].
    + rewrite (bool_decide_eq_false_2 (a ∈ keys)) by exact Ha.
      rewrite bool_decide_eq_true_2 by (left; reflexivity). simpl.
      destruct (is_true (presence r !! a)); [apply lookup_insert_eq | reflexivity].
    + assert (bool_decide (k ∈ a :: keys) = bool_decide (k ∈ keys)) as ->.
      { apply bool_decide_ext. rewrite elem_of_cons. tauto. }
      assert ((if is_true (presence r !! a)
               then <[a := default [] (pe !! a) ++ [index r]]> pe else pe) !! k
              = pe !! k) as ->.
      { destruct (is_true (presence r !! a)); [| reflexivity].
        apply lookup_insert_ne. congruence. }
      reflexivity.
Qed.

Lemma add_evidence_lookup (pe : gmap str (list nat)) (r : ImageResult) k :
  add_evidence pe r !! k
  = if bool_decide (k ∈ amenities) && is_true (presence r !! k)
    then Some (default [] (pe !! k) ++ [index r])
    else pe !! k.
Proof. unfold add_evidence. apply inner_loop_lookup, amenities_NoDup. Qed.

Lemma fold_evidence_lookup (results : list ImageResult) (pe : gmap str (list nat)) k l :
  k ∈ amenities -> pe !! k = Some l ->
  fold_left add_evidence results pe !! k = Some (l ++ evidence_of k results).
Proof.
  intros Hk. revert pe l. induction results as [|r results IH]; intros pe l Hl; simpl.
  - rewrite app_nil_r. exact Hl.
  - unfold evidence_of. rewrite filter_cons.
    destruct (decide (is_true (presence r !! k) = true)) as [Ht | Hf].
    + rewrite (IH _ (l ++ [index r])).
      * simpl. rewrite <- app_assoc. reflexivity.
      * rewrite add_evidence_lookup, bool_decide_eq_true_2, Ht, Hl by exact Hk.
        reflexivity.
    + apply IH. rewrite add_evidence_lookup. apply not_true_is_false in Hf.
      rewrite Hf, andb_false_r. exact Hl.
Qed.

Lemma fold_evidence_other (results : list ImageResult) (pe : gmap str (list nat)) k :
  k ∉ amenities -> fold_left add_evidence results pe !! k = pe !! k.
Proof.
  intros Hk. revert pe. induction results as [|r results IH]; intros pe; simpl.
  - reflexivity.
  - rewrite IH, add_evidence_lookup, bool_decide_eq_false_2 by exact Hk. reflexivity.
Qed.

Lemma no_evidence_lookup k :
  no_evidence !! k = if bool_decide (k ∈ amenities) then Some [] else None.
Proof.
  destruct (decide (k ∈ amenities)) as [Hk | Hk].
  - rewrite bool_decide_eq_true_2 by exact Hk.
    unfold amenities in Hk. rewrite !elem_of_cons in Hk.
    destruct Hk as [-> | [-> | [-> | [-> | Hk]]]];
      [vm_compute; reflexivity .. | inversion Hk].
  - rewrite bool_decide_eq_false_2 by exact Hk.
    unfold no_evidence. apply not_elem_of_list_to_map.
    exact Hk.
Qed.

Lemma collect_evidence_lookup (results : list ImageResult) k :
  collect_evidence results !! k
  = if bool_decide (k ∈ amenities) then Some (evidence_of k results) else None.
Proof.
  unfold collect_evidence. destruct (decide (k ∈ amenities)) as [Hk | Hk].
  - rewrite bool_decide_eq_true_2 by exact Hk.
    rewrite (fold_evidence_lookup results no_evidence k []); [reflexivity | exact Hk |].
    rewrite no_evidence_lookup, bool_decide_eq_true_2 by exact Hk. reflexivity.
  - rewrite bool_decide_eq_false_2 by exact Hk.
    rewrite fold_evidence_other, no_evidence_lookup, bool_decide_eq_false_2 by exact Hk.
    reflexivity.
Qed.

Lemma evidence_sorted k (results : list ImageResult) :
  Sorted lt (map index results) -> Sorted lt (evidence_of k results).
Proof.
  intros Hs. apply Sorted_StronglySorted in Hs; [| intros x y z; lia].
  apply StronglySorted_Sorted. unfold evidence_of.
  induction results as [|r results IH]; simpl in *; [constructor |].
  apply StronglySorted_inv in Hs as [Hs Hall]. rewrite filter_cons.
  destruct (decide _); simpl; [| apply IH, Hs].
  constructor; [apply IH, Hs |].
  rewrite Forall_forall in Hall |- *. intros x Hx. apply Hall.
  rewrite map_fmap in Hx |- *.
  apply list_elem_of_fmap in Hx as (r' & -> & Hr').
  apply list_elem_of_fmap. exists r'. split; [reflexivity |].
  apply list_elem_of_filter in Hr'. apply Hr'.
Qed.

Section Evidence.

Context (rt : Runtime).

(** The results of a returning batch, each at its index. *)
Lemma analyze_headless_positions env files property_name api_key thresholds defaults
    summary results base_dir job_id :
  Permutation (completion env) (seq 0 (length files)) ->
  fst (analyze_headless rt env files property_name api_key thresholds defaults)
  = inr (summary, results, base_dir, job_id) ->
  summary = summarize results
  /\ (forall i r, results !! i = Some r -> index r = i)
  /\ Sorted lt (map index results).
Proof.
  intros Hp Hret.
  destruct (analyze_headless_returns rt _ _ _ _ _ _ _ _ _ _ Hp Hret)
    as (defaults' & _ & _ & _ & Hsum & Hlen & Htask).
  assert (forall i r, results !! i = Some r -> index r = i) as Hpos.
  { intros i r Hr. destruct (Htask i r Hr) as (b & w' & _ & Hrun).
    apply _analyze_one_returns in Hrun
      as (data & size & img & d & w1 & m & th & _ & _ & _ & _ & _ & _ & _ & Hi & _).
    exact Hi. }
  split; [exact Hsum | split; [exact Hpos |]].
  clear - Hpos. induction results as [|r results IH] using rev_ind; [constructor |].
  rewrite map_app. simpl. apply Sorted_snoc.
  - apply IH. intros i r' Hr'. apply Hpos. rewrite lookup_app_l; [exact Hr' |].
    apply lookup_lt_Some in Hr'. exact Hr'.
  - assert (index r = length results) as Hr.
    { apply Hpos. rewrite lookup_app_r, Nat.sub_diag by lia. reflexivity. }
    destruct results as [|r0 results _] using rev_ind; [constructor |].
    rewrite map_app. simpl. constructor.
    assert (index r0 = length results) as Hr0.
    { apply Hpos. rewrite <- app_assoc. rewrite lookup_app_r, Nat.sub_diag by lia.
      reflexivity. }
    rewrite Hr, Hr0, length_app. simpl. lia.
Qed.

(** C8: the presence evidence of the summary has exactly the four amenity
    keys key, wifi, heater and tv; the list of an amenity holds the index of
    an image exactly when the presence of that image for that amenity is the
    boolean [True] (not [None], [False], a missing key or a value of another
    type); and each list is in ascending order. *)
Theorem C8_presence_evidence env files property_name api_key thresholds defaults
    summary results base_dir job_id :
  Permutation (completion env) (seq 0 (length files)) ->
  fst (analyze_headless rt env files property_name api_key thresholds defaults)
  = inr (summary, results, base_dir, job_id) ->
  (forall k, is_Some (presence_evidence summary !! k)
             <-> In k [py "key"; py "wifi"; py "heater"; py "tv"])
  /\ (forall k, In k [py "key"; py "wifi"; py "heater"; py "tv"] ->
        exists ev,
          presence_evidence summary !! k = Some ev
          /\ (forall i, In i ev <->
                exists r, results !! i = Some r /\ presence r !! k = Some (PBool true))
          /\ Sorted lt ev).
Proof.
  intros Hp Hret.
  destruct (analyze_headless_positions _ _ _ _ _ _ _ _ _ _ Hp Hret) as (-> & Hpos & Hsorted).
  fold amenities. simpl presence_evidence. split.
  - intros k. rewrite collect_evidence_lookup, <- list_elem_of_In.
    destruct (decide (k ∈ amenities)) as [Hk | Hk].
    + rewrite bool_decide_eq_true_2 by exact Hk. split; [intros _; exact Hk | eauto].
    + rewrite bool_decide_eq_false_2 by exact Hk.
      split; [intros [x Hx]; discriminate Hx | contradiction].
  - intros k Hk. apply list_elem_of_In in Hk.
    exists (evidence_of k results).
    split; [rewrite collect_evidence_lookup, bool_decide_eq_true_2 by exact Hk; reflexivity |].
    split; [| apply evidence_sorted, Hsorted].
    intros i. unfold evidence_of. rewrite <- list_elem_of_In, map_fmap, list_elem_of_fmap.
    split.
    + intros (r & -> & Hr). apply list_elem_of_filter in Hr as [Ht Hr].
      apply list_elem_of_lookup in Hr as [j Hj]. exists r.
      rewrite (Hpos j r Hj). split; [exact Hj | apply is_true_spec, Ht].
    + intros (r & Hr & Ht). exists r. split; [symmetry; apply (Hpos i r Hr) |].
      apply list_elem_of_filter. split; [apply is_true_spec, Ht |].
      apply list_elem_of_lookup. eauto.
Qed.

End Evidence.

(** Three uploads, the second with a non-boolean presence of the heater. *)
Lemma C8_presence_evidence_witness :
  exists summary results base_dir job_id ev,
    fst (analyze_headless Sample.plain (Sample.env Sample.mixed_replies [2; 0; 1])
           Sample.uploads (py "room 101") (Some (py "sk-test")) None None)
    = inr (summary, results, base_dir, job_id)
    /\ presence_evidence summary !! py "heater" = Some ev
    /\ (forall i, In i ev <->
          exists r, results !! i = Some r /\ presence r !! py "heater" = Some (PBool true))
    /\ Sorted lt ev.
Proof.
  destruct (fst (analyze_headless Sample.plain (Sample.env Sample.mixed_replies [2; 0; 1])
                   Sample.uploads (py "room 101") (Some (py "sk-test")) None None))
    as [e | [[[summary results] base_dir] job_id]] eqn:E.
  - vm_compute in E. discriminate E.
  - destruct (C8_presence_evidence Sample.plain
                (Sample.env Sample.mixed_replies [2; 0; 1]) Sample.uploads
                _ _ _ _ _ _ _ _ (Permutation_cons_append [0; 1] 2) E)
      as (_ & Hev).
    destruct (Hev (py "heater")) as (ev & H1 & H2 & H3).
    + right. right. left. reflexivity.
    + exists summary, results, base_dir, job_id, ev. repeat split; assumption || apply H2.
Defined.

(** The evidence of that batch: the string "yes" of the second image does
    not count for the heater. *)
Example presence_evidence_run :
  (fun out => (presence_evidence (fst (fst (fst out))) !! py "heater",
               presence_evidence (fst (fst (fst out))) !! py "tv",
               presence_evidence (fst (fst (fst out))) !! py "key"))
  <$> fst (analyze_headless Sample.plain (Sample.env Sample.mixed_replies [2; 0; 1])
             Sample.uploads (py "room 101") (Some (py "sk-test")) None None)
  = inr (Some [0; 2], Some [1], Some []).
Proof. vm_compute. reflexivity. Qed.

(** ** An unavailable client *)

Lemma available_false_iff (c : OpenAIClient) :
  available c = false <-> _client c = None \/ model_name c = [].
Proof.
  unfold available. destruct (_client c) as [k |]; destruct (model_name c) as [|x m];
    simpl; split; intros H; try reflexivity; try discriminate H; auto;
    destruct H as [H | H]; discriminate H.
Qed.

Section Unavailable.

Context (rt : Runtime).

(** A missing or blank key leaves the first tier without a client. *)
Lemma nano_of_blank_key (api_key : option str) :
  strip (default [] api_key) = [] -> available (nano_of api_key) = false.
Proof.
  intros H. unfold nano_of, OpenAIClient_init, available. simpl.
  rewrite H. reflexivity.
Qed.

(** With an unavailable first tier a decodable image under a well-formed
    configuration gets its result. *)
Lemma _analyze_one_unavailable_runs i b nano mini thresholds defaults base_dir w
    data img th ws :
  available nano = false ->
  decodes rt i b data img ->
  py_float rt (conf_th_setting thresholds defaults) = inr th ->
  recheck_setting thresholds = PList (map PStr ws) ->
  exists r w', _analyze_one rt i b nano mini thresholds defaults base_dir w = (inr r, w').
Proof.
  intros Hav Hdec Hth Hws.
  pose proof (nano_response_unavailable nano data w Hav) as Hn.
  assert (as_dict (placeholder dry_run_comment)
          = inr (<[py "labels" := PList []]>
                (<[py "scores" := PDict (<[py "quality" := PFloat 0%float]> ∅)]>
                (<[py "comments" := PList [PStr dry_run_comment]]>
                (<[py "presence" := PDict ∅]> ∅))))) as Hd by reflexivity.
  destruct (placeholder_fields rt _ _ Hd) as (_ & Fs & _ & _).
  rewrite <- dry_run_is_placeholder in Hd.
  match type of Fs with
  | response_scores _ ?m = inr ?sc =>
      pose proof (force_recheck_words
                    (refine_verdict_by_text (score_verdict th sc) (response_comments rt m)
                       (ok_whitelist_of rt defaults))
                    (response_comments rt m) ws) as Hv
  end.
  rewrite <- Hws in Hv.
  destruct (_analyze_one_runs rt i b nano mini thresholds defaults base_dir w data img
              _ _ _ _ th _ Hdec Hn Hd Fs Hth Hv) as (r & w' & Hrun & _).
  eauto.
Qed.

(** [analyze_headless] returns once the whitelist joins, the scratch
    directory is made and every worker returns. *)
Lemma analyze_headless_runs env files property_name api_key thresholds defaults
    defaults' base_dir :
  with_global_whitelist (default ∅ thresholds) (default ∅ defaults) = inr defaults' ->
  mkdtemp env = inr base_dir ->
  Permutation (completion env) (seq 0 (length files)) ->
  (forall i b, files !! i = Some b ->
     exists r w',
       _analyze_one rt i b (nano_of api_key) (mini_of api_key) (default ∅ thresholds)
         defaults' base_dir (task_world env i) = (inr r, w')) ->
  exists results,
    fst (analyze_headless rt env files property_name api_key thresholds defaults)
    = inr (summarize results, results, base_dir, job_clock env).
Proof.
  intros Hw Hm Hp Htasks. unfold analyze_headless. rewrite Hw, Hm. simpl.
  fold (nano_of api_key) (mini_of api_key).
  match goal with
  | |- context [collect ?fs ?order] => destruct (collect_total fs order) as [rs Hrs]
  end.
  - intros i Hi. apply (Permutation_in _ Hp), in_seq in Hi.
    destruct (lookup_lt_is_Some_2 files i) as [b Hb]; [lia |].
    destruct (Htasks i b Hb) as (r & w' & Hrun). exists r.
    rewrite map_fmap, list_lookup_fmap, run_tasks_lookup, Hb. simpl.
    rewrite Hrun. reflexivity.
  - rewrite Hrs. simpl. eauto.
Qed.

(** C6: a client is unavailable exactly when it has no SDK client (no
    credential) or no model name.  With an unavailable first tier a worker
    sends no request and waits for nothing, every result it returns carries
    the dry-run placeholder (no labels, a zero quality score and no other
    score, one explanatory comment, no presence), and it does return for a
    decodable image under a well-formed configuration.  For a batch run
    without a key this holds of every task, and the batch returns one result
    per image. *)
Theorem C6_unavailable_client :
  (forall c, available c = false <-> _client c = None \/ model_name c = [])
  /\ (forall nano i b mini thresholds defaults base_dir w,
        available nano = false ->
        let out := _analyze_one rt i b nano mini thresholds defaults base_dir w in
        requests (snd out) = requests w
        /\ sleeps (snd out) = sleeps w
        /\ (forall r, fst out = inr r -> placeholder_result dry_run_comment r)
        /\ (forall data img th ws,
              decodes rt i b data img ->
              py_float rt (conf_th_setting thresholds defaults) = inr th ->
              recheck_setting thresholds = PList (map PStr ws) ->
              exists r, fst out = inr r))
  /\ (forall env files property_name api_key thresholds defaults,
        strip (default [] api_key) = [] ->
        let out := analyze_headless rt env files property_name api_key thresholds defaults in
        (forall i w', snd out !! i = Some w' ->
           requests w' = requests (task_world env i)
           /\ sleeps w' = sleeps (task_world env i))
        /\ (forall summary results base_dir job_id,
              Permutation (completion env) (seq 0 (length files)) ->
              fst out = inr (summary, results, base_dir, job_id) ->
              Forall (placeholder_result dry_run_comment) results)
        /\ (forall defaults' base_dir th ws,
              with_global_whitelist (default ∅ thresholds) (default ∅ defaults)
              = inr defaults' ->
              mkdtemp env = inr base_dir ->
              Permutation (completion env) (seq 0 (length files)) ->
              (forall i b, files !! i = Some b -> exists data img, decodes rt i b data img) ->
              py_float rt (conf_th_setting (default ∅ thresholds) defaults') = inr th ->
              recheck_setting (default ∅ thresholds) = PList (map PStr ws) ->
              exists summary results,
                fst out = inr (summary, results, base_dir, job_clock env)
                /\ length results = length files)).
Proof.
  split; [exact available_false_iff | split].
  - intros nano i b mini thresholds defaults base_dir w Hav out.
    destruct (_analyze_one_unavailable_quiet rt i b nano mini thresholds defaults
                base_dir w Hav) as [Hq Hs].
    split; [exact Hq | split; [exact Hs | split]].
    + intros r Hr. unfold out in Hr.
      destruct (_analyze_one rt i b nano mini thresholds defaults base_dir w)
        as [res w'] eqn:E.
      simpl in Hr. subst res.
      exact (_analyze_one_unavailable_result rt _ _ _ _ _ _ _ _ _ _ Hav E).
    + intros data img th ws Hdec Hth Hws.
      destruct (_analyze_one_unavailable_runs i b nano mini thresholds defaults base_dir w
                  data img th ws Hav Hdec Hth Hws) as (r & w' & Hrun).
      exists r. unfold out. rewrite Hrun. reflexivity.
  - intros env files property_name api_key thresholds defaults Hkey out.
    pose proof (nano_of_blank_key api_key Hkey) as Hav.
    split; [| split].
    + intros i w' Hi. unfold out, analyze_headless in Hi.
      destruct (with_global_whitelist _ _) as [e | defaults']; [discriminate Hi |].
      destruct (mkdtemp env) as [e | base_dir]; [discriminate Hi |].
      simpl in Hi. fold (nano_of api_key) (mini_of api_key) in Hi.
      rewrite map_fmap, list_lookup_fmap, run_tasks_lookup in Hi.
      destruct (files !! i) as [b |]; [| discriminate Hi].
      simpl in Hi. injection Hi as <-.
      apply (_analyze_one_unavailable_quiet rt i b _ _ _ _ _ _ Hav).
    + intros summary results base_dir job_id Hp Hret.
      destruct (analyze_headless_returns rt _ _ _ _ _ _ _ _ _ _ Hp Hret)
        as (defaults' & _ & _ & _ & _ & _ & Htask).
      apply Forall_forall. intros r Hr. apply list_elem_of_lookup in Hr as [i Hi].
      destruct (Htask i r Hi) as (b & w' & _ & Hrun).
      exact (_analyze_one_unavailable_result rt _ _ _ _ _ _ _ _ _ _ Hav Hrun).
    + intros defaults' base_dir th ws Hw Hm Hp Hdec Hth Hws.
      destruct (analyze_headless_runs env files property_name api_key thresholds defaults
                  defaults' base_dir Hw Hm Hp) as [results Hres].
      * intros i b Hb. destruct (Hdec i b Hb) as (data & img & Hd).
        exact (_analyze_one_unavailable_runs i b _ _ _ _ _ _ data img th ws Hav Hd Hth Hws).
      * exists (summarize results), results. split; [exact Hres |].
        destruct (analyze_headless_returns rt _ _ _ _ _ _ _ _ _ _ Hp Hres)
          as (_ & _ & _ & _ & _ & Hlen & _).
        exact Hlen.
Qed.

End Unavailable.

(** Three uploads analysed without a key. *)
Lemma C6_unavailable_client_witness :
  let env := Sample.env (fun _ _ => inr Sample.good_reply) [2; 0; 1] in
  let out := analyze_headless Sample.plain env Sample.uploads (py "room 101") None None None in
  (forall i w', snd out !! i = Some w' ->
     requests w' = requests (task_world env i) /\ sleeps w' = sleeps (task_world env i))
  /\ exists summary results,
       fst out = inr (summary, results, py "/tmp/analyze_x", py "J20240101T090000")
       /\ length results = 3.
Proof.
  cbv zeta.
  destruct (proj2 (proj2 (C6_unavailable_client Sample.plain))
              (Sample.env (fun _ _ => inr Sample.good_reply) [2; 0; 1])
              Sample.uploads (py "room 101") None None None eq_refl)
    as (Hquiet & _ & Hruns).
  split; [exact Hquiet |].
  apply (Hruns ∅ (py "/tmp/analyze_x") 0.6%float []).
  - vm_compute. reflexivity.
  - reflexivity.
  - apply (Permutation_cons_append [0; 1] 2).
  - intros i b Hb. exists Sample.jpeg, Sample.jpeg, (640, 480).
    destruct i as [|[|[|i]]]; simpl in Hb; [| | | discriminate Hb];
      injection Hb as <-; split; vm_compute; reflexivity.
  - vm_compute. reflexivity.
  - vm_compute. reflexivity.
Defined.

(** * Further properties *)

(** ** The order of completion *)

Lemma map_inr_inj {A} (l1 l2 : list A) :
  map (@inr exn A) l1 = map inr l2 -> l1 = l2.
Proof.
  revert l2. induction l1 as [|x l1 IH]; intros [|y l2] H; simpl in H;
    try discriminate H; [reflexivity |].
  injection H as -> H. f_equal. apply IH, H.
Qed.

(** What [collect] returns, once sorted, does not depend on the order in
    which the futures are met. *)
Lemma collect_order_irrelevant (futures : list (result ImageResult)) o1 o2 rs1 :
  Permutation o1 (seq 0 (length futures)) ->
  Permutation o2 (seq 0 (length futures)) ->
  (forall i r, futures !! i = Some (inr r) -> index r = i) ->
  collect futures o1 = inr rs1 ->
  exists rs2, collect futures o2 = inr rs2 /\ sort_by_index rs2 = sort_by_index rs1.
Proof.
  intros Hp1 Hp2 Hidx Hc1.
  pose proof (collect_in_order futures o1 rs1 Hp1 Hidx Hc1) as Hf.
  destruct (collect_total futures o2) as [rs2 Hc2].
  { intros i Hi. apply (Permutation_in _ Hp2), in_seq in Hi.
    destruct (lookup_lt_is_Some_2 futures i) as [f Hfi]; [unfold result in *; lia |].
    pose proof Hfi as Hfi'. rewrite Hf, map_fmap, list_lookup_fmap in Hfi'.
    destruct (sort_by_index rs1 !! i) as [r |]; simpl in Hfi'; [| discriminate Hfi'].
    injection Hfi' as <-. exists r. exact Hfi. }
  exists rs2. split; [exact Hc2 |].
  pose proof (collect_in_order futures o2 rs2 Hp2 Hidx Hc2) as Hf2.
  apply map_inr_inj. rewrite <- Hf, <- Hf2. reflexivity.
Qed.

Section CompletionOrder.

Context (rt : Runtime).

(** X1: the value [analyze_headless] returns does not depend on the order in
    which the worker futures complete: when it returns under one order of
    completion, it returns the same summary, results, directory and job
    identifier under any other, and the tasks leave the same worlds. *)
Theorem X1_completion_order_irrelevant env order files property_name api_key
    thresholds defaults out :
  Permutation (completion env) (seq 0 (length files)) ->
  Permutation order (seq 0 (length files)) ->
  fst (analyze_headless rt env files property_name api_key thresholds defaults) = inr out ->
  fst (analyze_headless rt (with_completion env order) files property_name api_key
         thresholds defaults) = inr out
  /\ snd (analyze_headless rt (with_completion env order) files property_name api_key
            thresholds defaults)
     = snd (analyze_headless rt env files property_name api_key thresholds defaults).
Proof.
  intros Hp1 Hp2. unfold analyze_headless. simpl.
  destruct (with_global_whitelist _ _) as [e | defaults']; [discriminate |].
  destruct (mkdtemp env) as [e | base_dir]; [discriminate |].
  simpl.
  change (run_tasks rt (with_completion env order)) with (run_tasks rt env).
  set (futures := run_tasks rt env files _ _ _ _ _).
  destruct (collect (map fst futures) (completion env)) as [e | rs1] eqn:Ec1;
    [discriminate |].
  simpl. intros H. injection H as <-.
  assert (length (map fst futures) = length files) as Hlen.
  { rewrite length_map. unfold futures, run_tasks. apply length_imap. }
  destruct (collect_order_irrelevant (map fst futures) (completion env) order rs1)
    as (rs2 & Hc2 & Hs); try (rewrite Hlen; assumption); try assumption.
  { intros i r. apply run_tasks_index. }
  rewrite Hc2. simpl. rewrite Hs. split; reflexivity.
Qed.

End CompletionOrder.

(** Three uploads, completing in the orders 2, 0, 1 and 1, 2, 0. *)
Lemma X1_completion_order_irrelevant_witness :
  fst (analyze_headless Sample.plain (Sample.env Sample.mixed_replies [2; 0; 1])
         Sample.uploads (py "room 101") (Some (py "sk-test")) None None)
  = fst (analyze_headless Sample.plain (Sample.env Sample.mixed_replies [1; 2; 0])
           Sample.uploads (py "room 101") (Some (py "sk-test")) None None).
Proof.
  destruct (fst (analyze_headless Sample.plain (Sample.env Sample.mixed_replies [2; 0; 1])
                   Sample.uploads (py "room 101") (Some (py "sk-test")) None None))
    as [e | out] eqn:E.
  - vm_compute in E. discriminate E.
  - symmetry.
    apply (X1_completion_order_irrelevant Sample.plain
             (Sample.env Sample.mixed_replies [2; 0; 1]) [1; 2; 0] Sample.uploads
             _ _ _ _ out (Permutation_cons_append [0; 1] 2)).
    + change [1; 2; 0] with ([1; 2] ++ [0]). symmetry. apply Permutation_cons_append.
    + exact E.
Defined.

(** ** Formatted numbers and paths *)

Lemma dec_digits_digits fuel n acc :
  Forall (fun c => is_digit c = true) acc ->
  Forall (fun c => is_digit c = true) (dec_digits fuel n acc).
Proof.
  revert n acc. induction fuel as [|fuel IH]; intros n acc Hacc; simpl; [exact Hacc |].
  assert (Forall (fun c => is_digit c = true) ((48 + n mod 10)%N :: acc)) as Hacc'.
  { constructor; [| exact Hacc]. unfold is_digit.
    assert (n mod 10 < 10)%N as H by (apply N.mod_upper_bound; discriminate).
    revert H. generalize (n mod 10)%N. intros m Hm. apply andb_true_iff.
    split; apply N.leb_le; lia. }
  destruct (n <? 10)%N; [exact Hacc' | apply IH, Hacc'].
Qed.

Lemma dec_digits_value fuel n acc :
  N.to_nat n < fuel ->
  fold_left (fun a c => (a * 10 + (c - 48))%N) (dec_digits fuel n acc) 0%N
  = fold_left (fun a c => (a * 10 + (c - 48))%N) acc n.
Proof.
  revert n acc. induction fuel as [|fuel IH]; intros n acc Hn; [lia |].
  simpl. destruct (n <? 10)%N eqn:E.
  - apply N.ltb_lt in E. simpl. f_equal. rewrite N.mod_small by exact E. lia.
  - apply N.ltb_ge in E. rewrite IH.
    + simpl. f_equal. rewrite (N.div_mod n 10) at 3 by discriminate.
      generalize (n / 10)%N (n mod 10)%N. intros q m. lia.
    + assert (n / 10 < n)%N by (apply N.div_lt; lia). lia.
Qed.

Lemma dec_digits_nonempty fuel n : dec_digits (S fuel) n [] <> [].
Proof.
  assert (forall fuel n acc, acc <> [] -> dec_digits fuel n acc <> []) as H.
  { clear. induction fuel as [|fuel IH]; intros n acc Hacc; simpl; [exact Hacc |].
    destruct (n <? 10)%N; [discriminate | apply IH; discriminate]. }
  simpl. destruct (n <? 10)%N; [discriminate | apply H; discriminate].
Qed.

Lemma fmt_04d_digits i : Forall (fun c => is_digit c = true) (fmt_04d i).
Proof.
  unfold fmt_04d. cbv zeta. apply Forall_app. split.
  - apply Forall_replicate. reflexivity.
  - apply dec_digits_digits. constructor.
Qed.

Lemma fmt_04d_value i : digits_value (fmt_04d i) = N.of_nat i.
Proof.
  unfold fmt_04d, digits_value. cbv zeta. rewrite fold_left_app.
  assert (forall k, fold_left (fun a c => (a * 10 + (c - 48))%N) (replicate k 48%N) 0%N
                    = 0%N) as ->.
  { induction k as [|k IH]; [reflexivity | exact IH]. }
  rewrite dec_digits_value by lia. reflexivity.
Qed.

Lemma fmt_04d_inj i j : fmt_04d i = fmt_04d j -> i = j.
Proof.
  intros H. apply Nat2N.inj. rewrite <- !fmt_04d_value, H. reflexivity.
Qed.

Lemma fmt_04d_nonempty i : fmt_04d i <> [].
Proof.
  unfold fmt_04d. cbv zeta. intros H. apply app_eq_nil in H as [_ H].
  exact (dec_digits_nonempty i _ H).
Qed.

(** A run of digits ends at the first character that is none. *)
Lemma digits_split (a b x y : str) (c : N) :
  Forall (fun c => is_digit c = true) a ->
  Forall (fun c => is_digit c = true) b ->
  is_digit c = false ->
  a ++ c :: x = b ++ c :: y ->
  a = b /\ x = y.
Proof.
  intros Ha. revert b. induction Ha as [|d a Hd Ha IH]; intros b Hb Hc H.
  - destruct Hb as [|e b He Hb]; simpl in H.
    + injection H as ->. split; reflexivity.
    + injection H as -> _. congruence.
  - destruct Hb as [|e b He Hb]; simpl in H.
    + injection H as -> _. congruence.
    + injection H as -> H. destruct (IH b Hb Hc H) as [-> ->]. split; reflexivity.
Qed.

Lemma prefixed_name_inj i j (x y : str) :
  fmt_04d i ++ py "_" ++ x = fmt_04d j ++ py "_" ++ y -> i = j /\ x = y.
Proof.
  intros H. change (py "_" ++ x) with (95%N :: x) in H.
  change (py "_" ++ y) with (95%N :: y) in H.
  apply digits_split in H as [H ->]; try apply fmt_04d_digits; [| reflexivity].
  split; [apply fmt_04d_inj, H | reflexivity].
Qed.

Lemma basename_aux_no_slash s pre cur :
  cur = pre ++ s -> ~ In 47%N pre -> ~ In 47%N (basename_aux s cur).
Proof.
  revert pre cur. induction s as [|c s IH]; intros pre cur -> Hpre; simpl.
  - rewrite app_nil_r. exact Hpre.
  - destruct (c =? 47)%N eqn:E.
    + apply (IH []); [reflexivity | intros []].
    + apply (IH (pre ++ [c])); [rewrite <- app_assoc; reflexivity |].
      intros Hin. apply in_app_or in Hin as [Hin | [-> | []]]; [exact (Hpre Hin) |].
      rewrite N.eqb_refl in E. discriminate E.
Qed.

Lemma basename_no_slash s : ~ In 47%N (basename s).
Proof. apply (basename_aux_no_slash s [] s); [reflexivity | intros []]. Qed.

Lemma slash_cases {A} (c : N) (x y : A) :
  match c with 47%N => x | _ => y end = if (c =? 47)%N then x else y.
Proof.
  destruct c as [|p]; [reflexivity |].
  do 6 (destruct p as [p | p |]; try reflexivity).
Qed.

(** [os.path.join] puts the same prefix before every relative name. *)
Lemma path_join_relative (a : str) :
  exists pre, forall b, hd 0%N b <> 47%N -> path_join a b = pre ++ b.
Proof.
  exists (match rev a with
          | [] => []
          | c :: _ => if (c =? 47)%N then a else a ++ [47%N]
          end).
  intros b Hb. unfold path_join.
  assert (match rev a with
          | [] => b
          | c :: _ => match c with 47%N => a ++ b | _ => a ++ [47%N] ++ b end
          end
          = match rev a with
            | [] => []
            | c :: _ => if (c =? 47)%N then a else a ++ [47%N]
            end ++ b) as Hr.
  { destruct (rev a) as [|c r]; [reflexivity |].
    rewrite slash_cases. destruct (c =? 47)%N; [reflexivity |].
    rewrite <- app_assoc. reflexivity. }
  destruct b as [|d b']; [destruct (rev a) as [|c r]; [reflexivity |]; exact Hr |].
  rewrite slash_cases. simpl in Hb.
  destruct (d =? 47)%N eqn:E; [apply N.eqb_eq in E; congruence |].
  destruct (rev a) as [|c r]; [reflexivity | exact Hr].
Qed.

(** ** The files a batch writes *)

(** The first tier writes no file and changes no permission. *)
Lemma nano_response_saved (nano : OpenAIClient) (data : bytes) (w : world) :
  saved (snd (nano_response nano data w)) = saved w
  /\ writable (snd (nano_response nano data w)) = writable w.
Proof.
  destruct (available nano) eqn:Hav.
  - unfold nano_response, try_except. rewrite Hav.
    rewrite (analyze_one_course nano data w Hav).
    destruct (remote w (length (requests w))) as [e1 | d1]; [| split; reflexivity].
    destruct (remote w (length (requests w) + 1)) as [e2 | d2]; [| split; reflexivity].
    destruct (remote w (length (requests w) + 2)) as [e3 | d3]; split; reflexivity.
  - rewrite (nano_response_unavailable nano data w Hav). split; reflexivity.
Qed.

Section SavedFiles.

Context (rt : Runtime).

(** The name a returning task gives its result, and the one file it may
    have written: the re-encoded image, under that name in [base_dir]. *)
Lemma _analyze_one_file i b nano mini thresholds defaults base_dir w r w' :
  _analyze_one rt i b nano mini thresholds defaults base_dir w = (inr r, w') ->
  file r = fmt_04d i ++ py "_" ++ basename (fst (normalize_blob i b))
  /\ exists data size,
       load_and_resize rt (snd (normalize_blob i b)) 960 = inr (data, size)
       /\ saved w' = saved w
                     ++ (if writable w (path_join base_dir (file r))
                         then [(path_join base_dir (file r), data)] else []).
Proof.
  unfold _analyze_one. destruct (normalize_blob i b) as [src_name raw] eqn:En. simpl.
  unfold mbind, task_bind, lift.
  destruct (load_and_resize rt raw 960) as [e | [data size]] eqn:E1; [discriminate |].
  destruct (Image_open_RGB rt data) as [e | img] eqn:E2; [discriminate |].
  destruct (nano_response_saved nano data w) as [Hs Hw].
  destruct (nano_response nano data w) as [[e | d] w1] eqn:E3; [discriminate |].
  simpl in Hs, Hw.
  destruct (as_dict d) as [e | m] eqn:E4; [discriminate |].
  destruct (response_scores rt m) as [e | sc] eqn:E5; [discriminate |].
  destruct (py_float rt (conf_th_setting thresholds defaults)) as [e | th] eqn:E6;
    [discriminate |].
  match goal with
  | |- context [force_recheck_by_text ?v ?c ?ws] =>
      destruct (force_recheck_by_text v c ws) as [e | vd] eqn:E7; [discriminate |]
  end.
  intros H. injection H as <- <-. simpl. split; [reflexivity |].
  exists data, size. split; [reflexivity |].
  unfold write_file_quietly. simpl. rewrite <- Hw, <- Hs.
  destruct (writable w1 _); simpl; [reflexivity | rewrite app_nil_r; reflexivity].
Qed.

(** The worlds a run of the batch leaves are those of its tasks. *)
Lemma analyze_headless_tasks env files property_name api_key thresholds defaults
    summary results base_dir job_id worlds :
  Permutation (completion env) (seq 0 (length files)) ->
  analyze_headless rt env files property_name api_key thresholds defaults
  = (inr (summary, results, base_dir, job_id), worlds) ->
  exists defaults',
    with_global_whitelist (default ∅ thresholds) (default ∅ defaults) = inr defaults'
    /\ length results = length files
    /\ length worlds = length files
    /\ (forall i, i < length files ->
          exists b r w',
            files !! i = Some b /\ results !! i = Some r /\ worlds !! i = Some w'
            /\ _analyze_one rt i b (nano_of api_key) (mini_of api_key)
                 (default ∅ thresholds) defaults' base_dir (task_world env i)
               = (inr r, w')).
Proof.
  intros Hp Hrun.
  assert (fst (analyze_headless rt env files property_name api_key thresholds defaults)
          = inr (summary, results, base_dir, job_id)) as Hret by (rewrite Hrun; reflexivity).
  destruct (analyze_headless_returns rt _ _ _ _ _ _ _ _ _ _ Hp Hret)
    as (defaults' & Hw & Hm & _ & _ & Hlen & Htask).
  assert (worlds = map snd (run_tasks rt env files (nano_of api_key) (mini_of api_key)
                              (default ∅ thresholds) defaults' base_dir)) as Hworlds.
  { revert Hrun. unfold analyze_headless. rewrite Hw, Hm. simpl.
    intros H. injection H as _ <-. reflexivity. }
  exists defaults'. split; [exact Hw |]. split; [exact Hlen |].
  split; [rewrite Hworlds, length_map; unfold run_tasks; apply length_imap |].
  intros i Hi.
  destruct (lookup_lt_is_Some_2 results i) as [r Hr]; [lia |].
  destruct (Htask i r Hr) as (b & w' & Hb & Hone).
  exists b, r, w'. split; [exact Hb |]. split; [exact Hr |]. split; [| exact Hone].
  rewrite Hworlds, map_fmap, list_lookup_fmap, run_tasks_lookup, Hb. simpl.
  rewrite Hone. reflexivity.
Qed.

End SavedFiles.

(** ** The stages of a batch *)

Lemma count_where_all (field : ImageResult -> str) v (l : list ImageResult) :
  Forall (fun r => field r = v) l -> count_where field v l = length l.
Proof.
  unfold count_where. induction 1 as [|r l Hr Hl IH]; [reflexivity |].
  rewrite filter_cons. destruct (decide (field r = v)); [simpl; lia | contradiction].
Qed.

Lemma count_where_none (field : ImageResult -> str) v (l : list ImageResult) :
  Forall (fun r => field r <> v) l -> count_where field v l = 0.
Proof.
  unfold count_where. induction 1 as [|r l Hr Hl IH]; [reflexivity |].
  rewrite filter_cons. destruct (decide (field r = v)); [contradiction | exact IH].
Qed.

Lemma mini_of_unavailable api_key : available (mini_of api_key) = false.
Proof.
  unfold mini_of, OpenAIClient_init, available. simpl.
  destruct (truthy _); reflexivity.
Qed.

Section Stages.

Context (rt : Runtime).

(** X2: the second client, made with an empty model name, is never
    available, and every result of a batch that returns is of the stage
    "nano": the summary counts every image under "nano" and none under
    "mini" or "full". *)
Theorem X2_single_stage env files property_name api_key thresholds defaults
    summary results base_dir job_id :
  Permutation (completion env) (seq 0 (length files)) ->
  fst (analyze_headless rt env files property_name api_key thresholds defaults)
  = inr (summary, results, base_dir, job_id) ->
  available (mini_of api_key) = false
  /\ Forall (fun r => stage r = py "nano") results
  /\ counts_by_stage summary = {| nano := length files; mini := 0; full := 0 |}.
Proof.
  intros Hp Hret.
  destruct (analyze_headless_returns rt _ _ _ _ _ _ _ _ _ _ Hp Hret)
    as (defaults' & _ & _ & _ & Hsum & Hlen & Htask).
  assert (Forall (fun r => stage r = py "nano") results) as Hstage.
  { apply Forall_lookup. intros i r Hr.
    destruct (Htask i r Hr) as (b & w' & _ & Hone).
    apply _analyze_one_returns in Hone
      as (data & size & img & d & w1 & m & th & _ & _ & _ & _ & _ & _ & _ & _ & _ & _ & _
          & _ & Hst & _).
    exact Hst. }
  split; [apply mini_of_unavailable |]. split; [exact Hstage |].
  rewrite Hsum. unfold summarize. simpl.
  rewrite (count_where_all stage _ _ Hstage), Hlen.
  rewrite !count_where_none; [reflexivity | |];
    (eapply Forall_impl; [exact Hstage |]); intros r -> H; vm_compute in H; discriminate H.
Qed.

End Stages.

Lemma X2_single_stage_witness :
  exists summary results base_dir job_id,
    fst (analyze_headless Sample.plain (Sample.env Sample.mixed_replies [2; 0; 1])
           Sample.uploads (py "room 101") (Some (py "sk-test")) None None)
    = inr (summary, results, base_dir, job_id)
    /\ counts_by_stage summary = {| nano := 3; mini := 0; full := 0 |}.
Proof.
  destruct (fst (analyze_headless Sample.plain (Sample.env Sample.mixed_replies [2; 0; 1])
                   Sample.uploads (py "room 101") (Some (py "sk-test")) None None))
    as [e | [[[summary results] base_dir] job_id]] eqn:E.
  - vm_compute in E. discriminate E.
  - exists summary, results, base_dir, job_id. split; [reflexivity |].
    destruct (X2_single_stage Sample.plain (Sample.env Sample.mixed_replies [2; 0; 1])
                Sample.uploads _ _ _ _ _ _ _ _ (Permutation_cons_append [0; 1] 2) E)
      as (_ & _ & Hc).
    exact Hc.
Defined.

(** ** File names *)

Lemma prefixed_name_head i (x : str) : hd 0%N (fmt_04d i ++ x) <> 47%N.
Proof.
  pose proof (fmt_04d_digits i) as Hd. pose proof (fmt_04d_nonempty i) as Hn.
  destruct (fmt_04d i) as [|c s]; [congruence |].
  simpl. apply Forall_inv in Hd. intros ->. discriminate Hd.
Qed.

Lemma prefixed_name_no_slash i (x : str) :
  ~ In 47%N x -> ~ In 47%N (fmt_04d i ++ py "_" ++ x).
Proof.
  intros Hx Hin. apply in_app_or in Hin as [Hin | Hin].
  - pose proof (fmt_04d_digits i) as Hd. rewrite Forall_forall in Hd.
    apply list_elem_of_In, Hd in Hin. discriminate Hin.
  - apply in_app_or in Hin as [[Hin | []] | Hin]; [discriminate Hin | exact (Hx Hin)].
Qed.

Lemma path_join_inj (a x y : str) :
  hd 0%N x <> 47%N -> hd 0%N y <> 47%N -> path_join a x = path_join a y -> x = y.
Proof.
  intros Hx Hy. destruct (path_join_relative a) as [pre Hpre].
  rewrite (Hpre x Hx), (Hpre y Hy). apply app_inv_head.
Qed.

Section ResultFiles.

Context (rt : Runtime).


End ResultFiles.


(** ** The archives of the exporters *)

(** When none of the paths looked for exists, the archive has no member. *)
Lemma _zip_common_nothing (d : disk) job_id base_dir results want :
  Forall (fun r => d (path_join base_dir (fmt_04d (index r) ++ py "_" ++ file r)) = None)
         results ->
  _zip_common d job_id base_dir results want = inr [].
Proof.
  induction 1 as [|r results Hr Hrs IH]; [reflexivity |].
  cbn [_zip_common]. destruct (bool_decide (verdict r <> want)); [exact IH |].
  cbv zeta. rewrite Hr. exact IH.
Qed.

Lemma disk_of_holds_only written base_dir : holds_only (disk_of written) base_dir written.
Proof.
  intros name _ _ H. unfold disk_of in H.
  destruct (find _ (rev written)) as [kv |] eqn:E; [| congruence].
  apply find_some in E as [Hin Hk]. apply bool_decide_eq_true in Hk.
  rewrite <- Hk. apply in_map, in_rev, Hin.
Qed.

Section Archives.

Context (rt : Runtime).

(** X4: the exporters look for each image under its result's name prefixed
    once more with the index, a name under which no task saves.  After a
    batch that started with nothing written, on a disk whose scratch
    directory holds only what the tasks saved, [_zip_common] finds no file:
    the archives of [export_zip_ng] and [export_zip_ok] have no member,
    whatever the verdicts. *)
Theorem X4_archives_empty env files property_name api_key thresholds defaults
    summary results base_dir job_id worlds (d : disk) :
  Permutation (completion env) (seq 0 (length files)) ->
  (forall i, i < length files -> saved (task_world env i) = []) ->
  analyze_headless rt env files property_name api_key thresholds defaults
  = (inr (summary, results, base_dir, job_id), worlds) ->
  holds_only d base_dir (flat_map saved worlds) ->
  (forall want, _zip_common d job_id base_dir results want = inr [])
  /\ export_zip_ng d job_id base_dir results = inr []
  /\ export_zip_ok d job_id base_dir results = inr [].
Proof.
  intros Hp Hfresh Hrun Hdisk.
  destruct (analyze_headless_tasks rt _ _ _ _ _ _ _ _ _ _ _ Hp Hrun)
    as (defaults' & _ & Hlen & Hlenw & Htask).
  assert (Forall (fun r => d (path_join base_dir (fmt_04d (index r) ++ py "_" ++ file r))
                           = None) results) as Hnone.
  { apply Forall_lookup. intros i r Hr.
    destruct (Htask i) as (b & r' & w' & Hb & Hr' & Hw' & Hone);
      [apply lookup_lt_Some in Hr; lia |].
    rewrite Hr in Hr'. injection Hr' as <-.
    destruct (_analyze_one_file rt _ _ _ _ _ _ _ _ _ _ Hone) as (Hf & _).
    assert (index r = i) as Hi.
    { apply _analyze_one_returns in Hone
        as (? & ? & ? & ? & ? & ? & ? & _ & _ & _ & _ & _ & _ & _ & Hi & _).
      exact Hi. }
    rewrite Hi.
    destruct (d (path_join base_dir (fmt_04d i ++ py "_" ++ file r))) as [x |] eqn:Ed;
      [exfalso | reflexivity].
    assert (~ In 47%N (file r)) as Hslash
      by (rewrite Hf; apply prefixed_name_no_slash, basename_no_slash).
    assert (In (path_join base_dir (fmt_04d i ++ py "_" ++ file r))
               (map fst (flat_map saved worlds))) as Hin.
    { apply Hdisk.
      - intros Hnil. apply app_eq_nil in Hnil as [Hnil _].
        exact (fmt_04d_nonempty i Hnil).
      - apply prefixed_name_no_slash, Hslash.
      - rewrite Ed. discriminate. }
    apply in_map_iff in Hin as ([p data] & Hp' & Hin). simpl in Hp'.
    apply in_flat_map in Hin as (wj & Hwj & Hin).
    apply list_elem_of_In, list_elem_of_lookup in Hwj as [j Hwj].
    destruct (Htask j) as (bj & rj & wj' & Hbj & Hrj & Hwj' & Honej);
      [apply lookup_lt_Some in Hwj; lia |].
    rewrite Hwj in Hwj'. injection Hwj' as <-.
    destruct (_analyze_one_file rt _ _ _ _ _ _ _ _ _ _ Honej)
      as (Hfj & dataj & sizej & _ & Hsj).
    rewrite Hfresh in Hsj by (apply lookup_lt_Some in Hbj; exact Hbj).
    rewrite Hsj in Hin. simpl in Hin.
    destruct (writable (task_world env j) _); [| destruct Hin].
    destruct Hin as [Hin | []]. injection Hin as Hpath _.
    rewrite <- Hpath in Hp'. apply path_join_inj in Hp'.
    - rewrite Hfj in Hp'. apply prefixed_name_inj in Hp' as [-> Hbn].
      rewrite Hbj in Hb. injection Hb as ->.
      rewrite Hf in Hbn. apply (f_equal (@length N)) in Hbn.
      rewrite !length_app in Hbn. simpl in Hbn. lia.
    - rewrite Hfj. apply prefixed_name_head.
    - apply prefixed_name_head. }
  split; [intros want; apply _zip_common_nothing, Hnone |].
  split; apply _zip_common_nothing, Hnone.
Qed.

End Archives.

(** Three uploads with the verdicts ng, ok, ng, all saved: the archive of
    the ng images has no member. *)
Lemma X4_archives_empty_witness :
  exists summary results base_dir job_id worlds,
    analyze_headless Sample.plain (Sample.env Sample.mixed_replies [2; 0; 1])
      Sample.uploads (py "room 101") (Some (py "sk-test")) None None
    = (inr (summary, results, base_dir, job_id), worlds)
    /\ map verdict results = [v_ng; v_ok; v_ng]
    /\ length (flat_map saved worlds) = 3
    /\ export_zip_ng (disk_of (flat_map saved worlds)) job_id base_dir results = inr [].
Proof.
  assert (match analyze_headless Sample.plain (Sample.env Sample.mixed_replies [2; 0; 1])
                  Sample.uploads (py "room 101") (Some (py "sk-test")) None None with
          | (inr (_, results, _, _), worlds) =>
              map verdict results = [v_ng; v_ok; v_ng]
              /\ length (flat_map saved worlds) = 3
          | _ => False
          end) as Hfacts by (vm_compute; split; reflexivity).
  destruct (analyze_headless Sample.plain (Sample.env Sample.mixed_replies [2; 0; 1])
              Sample.uploads (py "room 101") (Some (py "sk-test")) None None)
    as [[e | [[[summary results] base_dir] job_id]] worlds] eqn:E; [destruct Hfacts |].
  exists summary, results, base_dir, job_id, worlds. split; [reflexivity |].
  destruct Hfacts as [Hv Hl]. split; [exact Hv |]. split; [exact Hl |].
  destruct (X4_archives_empty Sample.plain (Sample.env Sample.mixed_replies [2; 0; 1])
              Sample.uploads _ _ _ _ _ _ _ _ _ (disk_of (flat_map saved worlds))
              (Permutation_cons_append [0; 1] 2) (fun i _ => eq_refl) E
              (disk_of_holds_only _ _))
    as (_ & Hng & _).
  exact Hng.
Defined.

(** ** Stripping and splitting into lines *)

Lemma lstrip_starts_clean s : starts_clean (lstrip s).
Proof.
  induction s as [|c s IH]; simpl; [exact I |].
  destruct (is_space c) eqn:E; [exact IH | exact E].
Qed.

Lemma lstrip_id s : starts_clean s -> lstrip s = s.
Proof. destruct s as [|c s]; simpl; [reflexivity | intros ->; reflexivity]. Qed.

Lemma lstrip_suffix s : exists pre, s = pre ++ lstrip s.
Proof.
  induction s as [|c s [pre IH]]; simpl; [exists []; reflexivity |].
  destruct (is_space c); [exists (c :: pre); simpl; f_equal; exact IH | exists []; reflexivity].
Qed.

Lemma lstrip_Forall (P : N -> Prop) s : Forall P s -> Forall P (lstrip s).
Proof.
  intros H. destruct (lstrip_suffix s) as [pre E]. rewrite E in H.
  apply Forall_app in H. apply H.
Qed.

Lemma strip_Forall (P : N -> Prop) s : Forall P s -> Forall P (strip s).
Proof.
  intros H. unfold strip.
  apply Forall_rev, lstrip_Forall, Forall_rev, lstrip_Forall, H.
Qed.

Lemma strip_id s : starts_clean s -> starts_clean (rev s) -> strip s = s.
Proof.
  intros H1 H2. unfold strip. rewrite (lstrip_id s H1), (lstrip_id _ H2).
  apply rev_involutive.
Qed.

Lemma strip_clean s : starts_clean (strip s) /\ starts_clean (rev (strip s)).
Proof.
  unfold strip. rewrite rev_involutive. split; [| apply lstrip_starts_clean].
  pose proof (lstrip_starts_clean s) as Ha.
  destruct (lstrip_suffix (rev (lstrip s))) as [pre E].
  apply (f_equal (@rev N)) in E. rewrite rev_involutive, rev_app_distr in E.
  destruct (rev (lstrip (rev (lstrip s)))) as [|c t]; [exact I |].
  rewrite E in Ha. exact Ha.
Qed.

Lemma strip_idempotent s : strip (strip s) = strip s.
Proof. apply strip_id; apply strip_clean. Qed.

Lemma match_13 {A} (c : N) (x y : A) :
  match c with 13%N => x | _ => y end = if (c =? 13)%N then x else y.
Proof.
  destruct c as [|p]; [reflexivity |].
  do 4 (destruct p as [p | p |]; try reflexivity).
Qed.

Lemma match_10 {A} (c : N) (x y : A) :
  match c with 10%N => x | _ => y end = if (c =? 10)%N then x else y.
Proof.
  destruct c as [|p]; [reflexivity |].
  do 4 (destruct p as [p | p |]; try reflexivity).
Qed.

Lemma splitlines_aux_cons c s cur :
  splitlines_aux (c :: s) cur
  = if is_linebreak c then rev cur :: splitlines_aux (after_break c s) []
    else splitlines_aux s (c :: cur).
Proof.
  cbn [splitlines_aux]. destruct (is_linebreak c); [| reflexivity].
  unfold after_break. rewrite match_13. destruct (c =? 13)%N; [| reflexivity].
  destruct s as [|c2 s2]; [reflexivity |].
  rewrite match_10. destruct (c2 =? 10)%N; reflexivity.
Qed.

Lemma after_break_length c s : length (after_break c s) <= length s.
Proof.
  unfold after_break. destruct (c =? 13)%N; [| lia].
  destruct s as [|c2 s2]; [lia |]. destruct (c2 =? 10)%N; simpl; lia.
Qed.

Lemma splitlines_aux_lines n s cur :
  length s <= n ->
  Forall (fun c => is_linebreak c = false) cur ->
  Forall (Forall (fun c => is_linebreak c = false)) (splitlines_aux s cur).
Proof.
  revert s cur. induction n as [|n IH]; intros s cur Hn Hcur.
  - destruct s; [| simpl in Hn; lia]. simpl.
    destruct cur; constructor; [apply Forall_rev, Hcur | constructor].
  - destruct s as [|c s].
    + simpl. destruct cur; constructor; [apply Forall_rev, Hcur | constructor].
    + rewrite splitlines_aux_cons. simpl in Hn. destruct (is_linebreak c) eqn:E.
      * constructor; [apply Forall_rev, Hcur |].
        apply IH; [pose proof (after_break_length c s); lia | constructor].
      * apply IH; [lia | constructor; assumption].
Qed.

Lemma splitlines_lines s :
  Forall (Forall (fun c => is_linebreak c = false)) (splitlines s).
Proof. apply (splitlines_aux_lines (length s)); [lia | constructor]. Qed.

(** A stretch without line boundaries goes to the current line. *)
Lemma splitlines_aux_line w rest cur :
  Forall (fun c => is_linebreak c = false) w ->
  splitlines_aux (w ++ rest) cur = splitlines_aux rest (rev w ++ cur).
Proof.
  intros Hw. revert cur. induction Hw as [|c w Hc Hw IH]; intros cur; [reflexivity |].
  rewrite <- app_comm_cons, splitlines_aux_cons, Hc, IH. simpl.
  rewrite <- app_assoc. reflexivity.
Qed.

Lemma splitlines_join (ws : list str) :
  Forall (fun w => w <> [] /\ Forall (fun c => is_linebreak c = false) w) ws ->
  splitlines (join [10%N] ws) = ws.
Proof.
  unfold splitlines.
  induction 1 as [|w ws [Hne Hw] Hws IH]; [reflexivity |].
  destruct ws as [|w2 ws].
  - simpl. rewrite <- (app_nil_r w) at 1. rewrite splitlines_aux_line by exact Hw.
    rewrite app_nil_r. simpl.
    destruct (rev w) as [|c t] eqn:E.
    + apply (f_equal (@rev N)) in E. rewrite rev_involutive in E. contradiction.
    + rewrite <- E, rev_involutive. reflexivity.
  - change (join [10%N] (w :: w2 :: ws)) with (w ++ 10%N :: join [10%N] (w2 :: ws)).
    rewrite splitlines_aux_line by exact Hw.
    rewrite splitlines_aux_cons. change (is_linebreak 10) with true. cbv iota.
    change (after_break 10 (join [10%N] (w2 :: ws))) with (join [10%N] (w2 :: ws)).
    rewrite app_nil_r, rev_involutive, IH. reflexivity.
Qed.

Lemma clean_line_split_lines t : Forall clean_line (_split_lines t).
Proof.
  unfold _split_lines. apply Forall_forall. intros w Hw.
  apply list_elem_of_filter in Hw as [Hne Hw].
  apply list_elem_of_In, in_map_iff in Hw as (l & <- & Hl).
  split; [apply truthy_spec, Hne |]. split; [apply strip_idempotent |].
  apply strip_Forall. pose proof (splitlines_lines t) as H.
  rewrite Forall_forall in H. apply H, list_elem_of_In, Hl.
Qed.

Lemma _split_lines_join (ws : list str) :
  Forall clean_line ws -> _split_lines (join [10%N] ws) = ws.
Proof.
  intros H. unfold _split_lines. rewrite splitlines_join.
  - assert (map strip ws = ws) as ->.
    { induction H as [|w ws (_ & Hs & _) _ IH]; simpl; [reflexivity |].
      rewrite Hs, IH. reflexivity. }
    induction H as [|w ws (Hne & _ & _) _ IH]; [reflexivity |].
    rewrite filter_cons. destruct (decide (truthy w = true)) as [_ | Hn].
    + f_equal. exact IH.
    + exfalso. apply Hn, truthy_spec, Hne.
  - eapply Forall_impl; [exact H |]. intros w (Hne & _ & Hw). split; assumption.
Qed.

(** X5: [_split_lines], which is also what the whitelist editors of the
    console keep of the text typed, gives lines that are not empty, have no
    white space at either end and hold no line boundary; and a list of such
    lines joined with line feeds, as [analyze_headless] hands the global
    whitelist to the workers, is split into the same list again. *)
Theorem X5_split_lines_round_trip :
  (forall t, Forall clean_line (_split_lines t))
  /\ (forall ws, Forall clean_line ws -> _split_lines (join [10%N] ws) = ws)
  /\ (forall t, _split_lines (join [10%N] (_split_lines t)) = _split_lines t).
Proof.
  split; [exact clean_line_split_lines |]. split; [exact _split_lines_join |].
  intros t. apply _split_lines_join, clean_line_split_lines.
Qed.

Lemma X5_split_lines_round_trip_witness :
  _split_lines (join [10%N] [py "問題なし"; py "no issue"]) = [py "問題なし"; py "no issue"].
Proof.
  destruct X5_split_lines_round_trip as (_ & H & _). apply H.
  repeat constructor; try discriminate; vm_compute; reflexivity.
Defined.

(** ** The global whitelist *)

Lemma all_str_strs (ws : list str) : all_str (map PStr ws) = inr ws.
Proof. induction ws as [|w ws IH]; simpl; [reflexivity | rewrite IH; reflexivity]. Qed.

Lemma all_str_not_str (l : list pyval) v :
  In v l -> (forall s, v <> PStr s) ->
  all_str l = inl (TypeError "sequence item: expected str instance").
Proof.
  intros Hin Hv. induction l as [|x l IH]; [destruct Hin |].
  destruct Hin as [-> | Hin].
  - destruct v; try reflexivity. destruct (Hv s eq_refl).
  - destruct x; try reflexivity. simpl. rewrite (IH Hin). reflexivity.
Qed.

Section GlobalWhitelist.

Context (rt : Runtime).

(** X6: a list of clean lines under the threshold key "OK_WHITELIST" reaches
    every worker unchanged when the defaults bring no global whitelist of
    their own: each verdict of the batch is computed with these words,
    followed by the lines of the property's own whitelist; so a result whose
    comments hold one of the words has the verdict the recheck stage makes of
    "ok". *)
Theorem X6_global_whitelist_applied env files property_name api_key thresholds defaults
    summary results base_dir job_id (ws : list str) :
  Permutation (completion env) (seq 0 (length files)) ->
  fst (analyze_headless rt env files property_name api_key (Some thresholds) defaults)
  = inr (summary, results, base_dir, job_id) ->
  thresholds !! py "OK_WHITELIST" = Some (PList (map PStr ws)) ->
  default ∅ defaults !! py "ok_whitelist_global" = None ->
  Forall clean_line ws ->
  forall r, In r results ->
    (exists th,
       py_float rt (conf_th_setting thresholds (default ∅ defaults)) = inr th
       /\ force_recheck_by_text
            (refine_verdict_by_text (score_verdict th (scores r)) (comments r)
               (ws ++ ok_whitelist_of rt (default ∅ defaults)))
            (comments r) (recheck_setting thresholds) = inr (verdict r))
    /\ (some_word_occurs ws (join (py " ") (comments r)) ->
        force_recheck_by_text v_ok (comments r) (recheck_setting thresholds)
        = inr (verdict r)).
Proof.
  intros Hp Hret Hth Hdef Hclean r Hr.
  destruct (analyze_headless_returns rt _ _ _ _ _ _ _ _ _ _ Hp Hret)
    as (defaults' & Hw & _ & _ & _ & _ & Htask).
  change (default ∅ (Some thresholds)) with thresholds in Hw, Htask.
  unfold with_global_whitelist in Hw.
  rewrite Hth, all_str_strs, Hdef in Hw. simpl in Hw. injection Hw as <-.
  apply list_elem_of_In, list_elem_of_lookup in Hr as [i Hr].
  destruct (Htask i r Hr) as (b & w' & _ & Hone).
  apply _analyze_one_returns in Hone
    as (data & size & img & d & w1 & m & th & _ & _ & _ & _ & _ & Hconf & Hv & _).
  assert (ok_whitelist_of rt (<[py "ok_whitelist_global" := PStr (join [10%N] ws)]>
                                (default ∅ defaults))
          = ws ++ ok_whitelist_of rt (default ∅ defaults)) as Hwl.
  { unfold ok_whitelist_of. rewrite lookup_insert_eq, Hdef.
    rewrite lookup_insert_ne by discriminate. simpl.
    rewrite (_split_lines_join ws Hclean). reflexivity. }
  rewrite Hwl in Hv.
  assert (conf_th_setting thresholds
            (<[py "ok_whitelist_global" := PStr (join [10%N] ws)]> (default ∅ defaults))
          = conf_th_setting thresholds (default ∅ defaults)) as Hc.
  { unfold conf_th_setting. rewrite lookup_insert_ne by discriminate. reflexivity. }
  rewrite Hc in Hconf.
  split; [exists th; split; [exact Hconf | exact Hv] |].
  intros (w & Hin & Hne & Hocc).
  assert (any_word_in (ws ++ ok_whitelist_of rt (default ∅ defaults))
            (join (py " ") (comments r)) = true) as Hany.
  { apply any_word_in_spec. exists w. split; [apply in_or_app; left; exact Hin |].
    split; assumption. }
  unfold refine_verdict_by_text in Hv. rewrite Hany in Hv. exact Hv.
Qed.

(** X7: when the list under "OK_WHITELIST" holds an item that is no [str],
    [analyze_headless] raises a [TypeError] before it makes the scratch
    directory or starts a task, also when the defaults already have a global
    whitelist and the joined list would not be used. *)
Theorem X7_whitelist_item_not_str env files property_name api_key thresholds defaults
    (l : list pyval) (v : pyval) :
  default ∅ thresholds !! py "OK_WHITELIST" = Some (PList l) ->
  In v l ->
  (forall s, v <> PStr s) ->
  exists msg,
    analyze_headless rt env files property_name api_key thresholds defaults
    = (inl (TypeError msg), []).
Proof.
  intros Hth Hin Hv. exists "sequence item: expected str instance"%string.
  unfold analyze_headless, with_global_whitelist.
  rewrite Hth, (all_str_not_str l v Hin Hv). reflexivity.
Qed.

End GlobalWhitelist.
(** The word "あり" is whitelisted: the comment of [Sample.good_reply], which
    names a hair, no longer makes the verdict "ng". *)
Lemma X6_global_whitelist_applied_witness :
  exists summary results base_dir job_id,
    fst (analyze_headless Sample.plain
           (Sample.env (fun _ _ => inr Sample.good_reply) [2; 0; 1]) Sample.uploads
           (py "room 101") (Some (py "sk-test"))
           (Some (<[py "OK_WHITELIST" := PList [PStr (py "あり")]]> ∅)) None)
    = inr (summary, results, base_dir, job_id)
    /\ Forall (fun r => some_word_occurs [py "あり"] (join (py " ") (comments r)) ->
                        verdict r = v_ok) results.
Proof.
  destruct (fst (analyze_headless Sample.plain
                   (Sample.env (fun _ _ => inr Sample.good_reply) [2; 0; 1]) Sample.uploads
                   (py "room 101") (Some (py "sk-test"))
                   (Some (<[py "OK_WHITELIST" := PList [PStr (py "あり")]]> ∅)) None))
    as [e | [[[summary results] base_dir] job_id]] eqn:E.
  - vm_compute in E. discriminate E.
  - exists summary, results, base_dir, job_id. split; [reflexivity |].
    apply Forall_forall. intros r Hr Hocc. apply list_elem_of_In in Hr.
    assert (inr v_ok = inr (A := exn) (verdict r)) as H.
    { refine (proj2 (X6_global_whitelist_applied Sample.plain
                       (Sample.env (fun _ _ => inr Sample.good_reply) [2; 0; 1])
                       Sample.uploads _ _ _ None _ _ _ _ [py "あり"]
                       (Permutation_cons_append [0; 1] 2) E _ _ _ r Hr) Hocc).
      - vm_compute. reflexivity.
      - vm_compute. reflexivity.
      - repeat constructor; try discriminate; vm_compute; reflexivity. }
    injection H as <-. reflexivity.
Defined.

Lemma X7_whitelist_item_not_str_witness :
  exists msg,
    analyze_headless Sample.plain (Sample.env Sample.mixed_replies [2; 0; 1])
      Sample.uploads (py "room 101") (Some (py "sk-test"))
      (Some (<[py "OK_WHITELIST" := PList [PStr (py "清潔"); PInt 1]]> ∅))
      (Some (<[py "ok_whitelist_global" := PStr (py "問題なし")]> ∅))
    = (inl (TypeError msg), []).
Proof.
  apply (X7_whitelist_item_not_str Sample.plain _ _ _ _ _ _
           [PStr (py "清潔"); PInt 1] (PInt 1)).
  - vm_compute. reflexivity.
  - right. left. reflexivity.
  - discriminate.
Defined.

(** ** Recheck words of other shapes *)

Lemma contains_char (c : N) (txt : str) : contains [c] txt = true <-> In c txt.
Proof.
  rewrite contains_spec. unfold occurs. split.
  - intros (pre & post & ->). apply in_or_app. right. left. reflexivity.
  - intros H. apply in_split in H as (pre & post & ->). exists pre, post. reflexivity.
Qed.

Lemma recheck_loop_chars (s : str) (txt : str) :
  recheck_loop (map (fun c => PStr [c]) s) txt
  = inr (existsb (fun c => contains [c] txt) s).
Proof.
  induction s as [|c s IH]; simpl; [reflexivity |].
  destruct (contains [c] txt); simpl; [reflexivity | exact IH].
Qed.

(** The loop stops at the first non-empty string it finds in the text, and
    raises at the first other value that is true. *)
Lemma recheck_loop_app (pre : list str) (l : list pyval) (txt : str) :
  recheck_loop (map PStr pre ++ l) txt
  = if any_word_in pre txt then inr true else recheck_loop l txt.
Proof.
  induction pre as [|w pre IH]; simpl; [reflexivity |].
  destruct (truthy w); simpl; [| exact IH].
  destruct (contains w txt); simpl; [reflexivity | exact IH].
Qed.

(** X8: what the recheck stage makes of a setting that is no list of
    strings.  A false value (None, False, 0, an empty string, list or
    dict) leaves the verdict.  A string is read character by character: the
    verdict becomes "unknown" as soon as one of its characters is in the
    comments.  A true number or boolean raises a [TypeError].  In a list, the
    first true item that is no string raises the [TypeError] of the [in]
    test, which names the type of the item, unless a word before it was
    found. *)
Theorem X8_recheck_setting_shapes (verdict : str) (comments : list str) :
  let txt := join (py " ") comments in
  (forall v, py_truthy v = false ->
     force_recheck_by_text verdict comments v = inr verdict)
  /\ (forall s,
        force_recheck_by_text verdict comments (PStr s)
        = inr (if existsb (fun c => contains [c] txt) s then v_unknown else verdict))
  /\ (forall s c, In c s -> In c txt ->
        force_recheck_by_text verdict comments (PStr s) = inr v_unknown)
  /\ (forall v, py_truthy v = true ->
        match v with PBool _ | PInt _ | PFloat _ => True | _ => False end ->
        exists msg, force_recheck_by_text verdict comments v = inl (TypeError msg))
  /\ (forall pre v post, py_truthy v = true -> (forall s, v <> PStr s) ->
        force_recheck_by_text verdict comments (PList (map PStr pre ++ v :: post))
        = if any_word_in pre txt then inr v_unknown
          else inl (TypeError ("'in <string>' requires string as left operand, not "
                               ++ type_name v))).
Proof.
  cbv zeta. split; [| split; [| split; [| split]]].
  - intros v Hv. unfold force_recheck_by_text, iter_or_empty. rewrite Hv. reflexivity.
  - intros s. unfold force_recheck_by_text, iter_or_empty.
    destruct s as [|c s]; [reflexivity |].
    change (py_truthy (PStr (c :: s))) with true. cbn [negb].
    cbn [mbind result_bind]. rewrite recheck_loop_chars. reflexivity.
  - intros s c Hs Hc. unfold force_recheck_by_text, iter_or_empty.
    destruct s as [|c0 s]; [destruct Hs |].
    change (py_truthy (PStr (c0 :: s))) with true. cbn [negb].
    cbn [mbind result_bind]. rewrite recheck_loop_chars.
    assert (existsb (fun c => contains [c] (join (py " ") comments)) (c0 :: s) = true)
      as ->; [| reflexivity].
    apply existsb_exists. exists c. split; [exact Hs | apply contains_char, Hc].
  - intros v Hv Hshape. exists "object is not iterable"%string.
    unfold force_recheck_by_text, iter_or_empty. rewrite Hv.
    destruct v; try destruct Hshape; reflexivity.
  - intros pre v post Hv Hstr. unfold force_recheck_by_text.
    assert (iter_or_empty (PList (map PStr pre ++ v :: post))
            = inr (map PStr pre ++ v :: post)) as ->.
    { unfold iter_or_empty. destruct pre; reflexivity. }
    cbn [mbind result_bind]. rewrite recheck_loop_app.
    destruct (any_word_in pre _); [reflexivity |].
    cbn [recheck_loop]. rewrite Hv.
    destruct v; try reflexivity. destruct (Hstr s eq_refl).
Qed.

(** The setting is the string "NG" instead of a list: the letter N in a
    comment is enough. *)
Lemma X8_recheck_setting_shapes_witness :
  force_recheck_by_text v_ok [py "No dust"] (PStr (py "NG")) = inr v_unknown
  /\ force_recheck_by_text v_ok [py "No dust"] (PList [PStr (py "dirty"); PInt 7])
     = inl (TypeError "'in <string>' requires string as left operand, not int").
Proof.
  destruct (X8_recheck_setting_shapes v_ok [py "No dust"]) as (_ & _ & Hs & _ & Hl).
  split.
  - apply (Hs (py "NG") 78%N); vm_compute; auto.
  - apply (Hl [py "dirty"] (PInt 7) []); [reflexivity | discriminate].
Defined.

(** ** The text stages without text *)

Lemma any_word_in_nil (words : list str) : any_word_in words [] = false.
Proof.
  unfold any_word_in. induction words as [|w words IH]; [reflexivity |].
  simpl. rewrite IH. destruct w; reflexivity.
Qed.

Lemma refine_verdict_no_text verdict comments ok_whitelist :
  join (py " ") comments = [] ->
  refine_verdict_by_text verdict comments ok_whitelist = verdict.
Proof.
  intros H. unfold refine_verdict_by_text. rewrite H, any_word_in_nil. reflexivity.
Qed.

Lemma recheck_loop_no_text (l : list pyval) hit : recheck_loop l [] = inr hit -> hit = false.
Proof.
  induction l as [|v l IH]; simpl; [congruence |].
  destruct (py_truthy v) eqn:Hv; [| exact IH].
  destruct v; try discriminate. destruct s; [discriminate Hv | exact IH].
Qed.

Lemma force_recheck_no_text verdict comments ws v :
  join (py " ") comments = [] ->
  force_recheck_by_text verdict comments ws = inr v -> v = verdict.
Proof.
  intros H. unfold force_recheck_by_text. rewrite H.
  destruct (iter_or_empty ws) as [e | l]; [discriminate |].
  cbn [mbind result_bind]. destruct (recheck_loop l []) as [e | hit] eqn:E; [discriminate |].
  apply recheck_loop_no_text in E as ->. intros Hx. injection Hx as <-. reflexivity.
Qed.

Section NoComments.

Context (rt : Runtime).

(** X9: a result without comment text (no comment, or a response whose
    comments are no list) has the verdict of the score stage: neither
    whitelist nor pattern can change it. *)
Theorem X9_no_comment_text i b nano mini thresholds defaults base_dir w r w' :
  _analyze_one rt i b nano mini thresholds defaults base_dir w = (inr r, w') ->
  join (py " ") (comments r) = [] ->
  exists th,
    py_float rt (conf_th_setting thresholds defaults) = inr th
    /\ verdict r = score_verdict th (scores r).
Proof.
  intros Hone Htxt.
  apply _analyze_one_returns in Hone
    as (data & size & img & d & w1 & m & th & _ & _ & _ & _ & _ & Hconf & Hv & _).
  exists th. split; [exact Hconf |].
  apply (force_recheck_no_text _ _ _ _ Htxt) in Hv.
  rewrite Hv. apply refine_verdict_no_text, Htxt.
Qed.

End NoComments.

(** The comments of the response are a string, not a list: they are
    dropped, and neither the whitelisted word nor the recheck word in them
    counts; the score 0.7 alone gives "ng". *)
Lemma X9_no_comment_text_witness :
  exists r w',
    _analyze_one Sample.plain 0 (RawBytes Sample.jpeg) Sample.with_key Sample.with_key
      (<[py "RECHECK_WHITELIST" := PList [PStr (py "要確認")]]> ∅)
      (<[py "ok_whitelist" := PStr (py "清潔")]> ∅) (py "/tmp/analyze_x")
      (Sample.world_of (fun _ =>
         inr (PDict (<[py "scores" := PDict (<[py "clutter" := PFloat 0.7%float]> ∅)]>
                    (<[py "comments" := PStr (py "清潔 要確認")]> ∅)))))
    = (inr r, w')
    /\ verdict r = v_ng.
Proof.
  assert (match fst (_analyze_one Sample.plain 0 (RawBytes Sample.jpeg) Sample.with_key
                       Sample.with_key
                       (<[py "RECHECK_WHITELIST" := PList [PStr (py "要確認")]]> ∅)
                       (<[py "ok_whitelist" := PStr (py "清潔")]> ∅) (py "/tmp/analyze_x")
                       (Sample.world_of (fun _ =>
                          inr (PDict (<[py "scores" :=
                                          PDict (<[py "clutter" := PFloat 0.7%float]> ∅)]>
                                     (<[py "comments" := PStr (py "清潔 要確認")]> ∅))))))
          with
          | inr r => join (py " ") (comments r) = []
                     /\ score_verdict 0.6%float (scores r) = v_ng
          | inl _ => False
          end) as Hfacts by (vm_compute; split; reflexivity).
  destruct (_analyze_one Sample.plain 0 (RawBytes Sample.jpeg) Sample.with_key
              Sample.with_key
              (<[py "RECHECK_WHITELIST" := PList [PStr (py "要確認")]]> ∅)
              (<[py "ok_whitelist" := PStr (py "清潔")]> ∅) (py "/tmp/analyze_x")
              (Sample.world_of (fun _ =>
                 inr (PDict (<[py "scores" :=
                                 PDict (<[py "clutter" := PFloat 0.7%float]> ∅)]>
                            (<[py "comments" := PStr (py "清潔 要確認")]> ∅))))))
    as [[e | r] w'] eqn:E; [destruct Hfacts |].
  exists r, w'. split; [reflexivity |]. destruct Hfacts as [Htxt Hsc].
  destruct (X9_no_comment_text Sample.plain _ _ _ _ _ _ _ _ _ _ E Htxt) as (th & Hth & Hv).
  vm_compute in Hth. injection Hth as <-. rewrite Hv. exact Hsc.
Defined.

(** ** The shape of the text refinement *)

(** X10: for given comments and whitelist, [refine_verdict_by_text] either
    leaves every verdict as it is or gives one and the same verdict, "ok" or
    "ng", whatever it is given; applying it twice changes nothing more. *)
Theorem X10_refine_constant_or_identity (comments ok_whitelist : list str) :
  ((forall v, refine_verdict_by_text v comments ok_whitelist = v)
   \/ (exists u, (u = v_ok \/ u = v_ng)
                 /\ forall v, refine_verdict_by_text v comments ok_whitelist = u))
  /\ (forall v,
        refine_verdict_by_text (refine_verdict_by_text v comments ok_whitelist)
          comments ok_whitelist
        = refine_verdict_by_text v comments ok_whitelist).
Proof.
  unfold refine_verdict_by_text.
  destruct (any_word_in ok_whitelist _);
    [split; [right; exists v_ok; split; [left |]|]; reflexivity |].
  destruct (_ || _ || _);
    [split; [right; exists v_ok; split; [left |]|]; reflexivity |].
  destruct (search POS_ANY _);
    [split; [right; exists v_ok; split; [left |]|]; reflexivity |].
  destruct (search ANY_KW _);
    [split; [right; exists v_ng; split; [right |]|]; reflexivity |].
  split; [left |]; reflexivity.
Qed.

(** ** A pattern that decides nothing *)

Lemma near_second_occurs gap_ok A B txt : near gap_ok A B txt -> some_occurs B txt.
Proof.
  intros (pre & a & gap & b & post & -> & _ & Hb & _). exists b. split; [exact Hb |].
  exists (pre ++ a ++ gap), post. rewrite <- !app_assoc. reflexivity.
Qed.

Lemma near_first_occurs gap_ok A B txt : near gap_ok A B txt -> some_occurs A txt.
Proof.
  intros (pre & a & gap & b & post & -> & Ha & _ & _). exists a. split; [exact Ha |].
  exists pre, (gap ++ b ++ post). reflexivity.
Qed.

(** X11: a text in which [POS_NEAR] finds a keyword next to a positive
    phrase is a text in which [POS_ANY] finds the positive phrase: in
    [refine_verdict_by_text] the third pattern of the proximity rule never
    decides a verdict the next rule would not give as well, and the function
    is the same without it. *)
Theorem X11_pos_near_subsumed :
  (forall txt, search POS_NEAR txt = true -> search POS_ANY txt = true)
  /\ (forall verdict comments ok_whitelist,
        refine_verdict_by_text verdict comments ok_whitelist
        = let txt := join (py " ") comments in
          if any_word_in ok_whitelist txt then v_ok
          else if search NEG_AFTER txt || search NEG_BEFORE txt then v_ok
          else if search POS_ANY txt then v_ok
          else if search ANY_KW txt then v_ng
          else verdict).
Proof.
  assert (forall txt, search POS_NEAR txt = true -> search POS_ANY txt = true) as H.
  { intros txt. unfold POS_NEAR, POS_ANY, KW, POS. rewrite search_alt.
    rewrite !search_near by discriminate. rewrite search_words by discriminate.
    intros [Hn | Hn]; [eapply near_second_occurs | eapply near_first_occurs]; exact Hn. }
  split; [exact H |].
  intros verdict comments ok_whitelist. unfold refine_verdict_by_text. cbv zeta.
  destruct (any_word_in ok_whitelist _); [reflexivity |].
  destruct (search NEG_AFTER _); [reflexivity |].
  destruct (search NEG_BEFORE _); [reflexivity |].
  cbn [orb].
  destruct (search POS_NEAR _) eqn:E; [| reflexivity].
  rewrite (H _ E). reflexivity.
Qed.

Lemma X11_pos_near_subsumed_witness :
  search POS_NEAR (py "ほこりもなく清潔") = true
  /\ search POS_ANY (py "ほこりもなく清潔") = true.
Proof.
  assert (search POS_NEAR (py "ほこりもなく清潔") = true) as H by (vm_compute; reflexivity).
  split; [exact H | exact (proj1 X11_pos_near_subsumed _ H)].
Defined.

(** ** Clients and keys *)

(** X12: a call of [analyze_one] on a client that is not available raises
    its [RuntimeError] only after the retry policy has run its course: three
    attempts, waits of 1 and 2 in between, and no request sent. *)
Theorem X12_unavailable_call_retried (c : OpenAIClient) (data : bytes) (w : world) :
  available c = false ->
  analyze_one c data w
  = (inl (RuntimeError "OpenAIClient not available"), after w [] [1; 2]).
Proof.
  intros Hav. unfold analyze_one, Tenacity.retry, analyze_one_body. rewrite Hav.
  unfold after. simpl. rewrite app_nil_r, <- app_assoc. reflexivity.
Qed.

Lemma X12_unavailable_call_retried_witness :
  analyze_one (mini_of (Some (py "sk-test"))) Sample.jpeg
    (Sample.world_of (fun _ => inr Sample.good_reply))
  = (inl (RuntimeError "OpenAIClient not available"),
     after (Sample.world_of (fun _ => inr Sample.good_reply)) [] [1; 2]).
Proof. apply X12_unavailable_call_retried. reflexivity. Defined.

Lemma lstrip_nil_iff s : lstrip s = [] <-> Forall (fun c => is_space c = true) s.
Proof.
  induction s as [|c s IH]; simpl; [split; [constructor | reflexivity] |].
  destruct (is_space c) eqn:E.
  - rewrite IH. split; [intros H; constructor; assumption | intros H].
    apply Forall_inv_tail in H. exact H.
  - split; [discriminate | intros H]. apply Forall_inv in H. congruence.
Qed.

Lemma strip_nil_iff s : strip s = [] <-> Forall (fun c => is_space c = true) s.
Proof.
  unfold strip. split.
  - intros H. apply (f_equal (@rev N)) in H. rewrite rev_involutive in H. simpl in H.
    apply lstrip_nil_iff, Forall_rev in H. rewrite rev_involutive in H.
    pose proof (lstrip_starts_clean s) as Hc.
    destruct (lstrip s) as [|c t] eqn:E; [apply lstrip_nil_iff, E |].
    apply Forall_inv in H. simpl in Hc. congruence.
  - intros H. apply lstrip_nil_iff in H. rewrite H. reflexivity.
Qed.

Lemma all_space_or_not (s : str) :
  Forall (fun c => is_space c = true) s \/ exists c, In c s /\ is_space c = false.
Proof.
  induction s as [|c s [IH | (c0 & Hin & Hs)]].
  - left. constructor.
  - destruct (is_space c) eqn:E; [left; constructor; assumption |].
    right. exists c. split; [left; reflexivity | exact E].
  - right. exists c0. split; [right; exact Hin | exact Hs].
Qed.

(** X13: the first-tier client [analyze_headless] makes is available exactly
    when the key holds a character that is no white space; a missing key, an
    empty one and one of blanks only are the same. *)
Theorem X13_key_decides_availability (api_key : option str) :
  available (nano_of api_key) = true
  <-> exists c, In c (default [] api_key) /\ is_space c = false.
Proof.
  unfold nano_of, OpenAIClient_init, available. cbn [_client model_name].
  destruct (strip (default [] api_key)) as [|c t] eqn:E.
  - cbn [truthy]. apply strip_nil_iff in E. rewrite Forall_forall in E. split.
    + discriminate.
    + intros (c & Hc & Hs). apply list_elem_of_In, E in Hc. congruence.
  - cbn [truthy]. split; [intros _ | intros _; vm_compute; reflexivity].
    destruct (all_space_or_not (default [] api_key)) as [Hall | Hex]; [| exact Hex].
    apply strip_nil_iff in Hall. congruence.
Qed.

(** ** The result view *)

Lemma filter_unknown_or_recheck (l : list ImageResult) :
  Forall (fun r => known_verdict (verdict r)) l ->
  length (filter (fun r => verdict r = v_unknown \/ verdict r = py "recheck") l)
  = count_where verdict v_unknown l.
Proof.
  unfold count_where. induction 1 as [|r l Hr Hl IH]; [reflexivity |].
  rewrite !filter_cons.
  destruct (decide (verdict r = v_unknown)) as [E | E].
  - rewrite decide_True by (left; exact E). simpl. rewrite IH. reflexivity.
  - rewrite decide_False; [exact IH |].
    intros [E' | E']; [exact (E E') |].
    destruct Hr as [Hr | [Hr | Hr]]; rewrite Hr in E'; discriminate E'.
Qed.

Section ResultView.

Context (rt : Runtime).

(** X14: for the results of a batch the three numbers of [_count_verdicts]
    are the three counts of the summary, and they add up to the number of
    uploads: no result has the verdict "recheck" the third tab also looks
    for, and none falls outside the three tabs. *)
Theorem X14_tab_counts env files property_name api_key thresholds defaults
    summary results base_dir job_id :
  Permutation (completion env) (seq 0 (length files)) ->
  fst (analyze_headless rt env files property_name api_key thresholds defaults)
  = inr (summary, results, base_dir, job_id) ->
  _count_verdicts results = (ok summary, ng summary, unknown summary)
  /\ ok summary + ng summary + unknown summary = length files
  /\ Forall (fun r => verdict r <> py "recheck") results.
Proof.
  intros Hp Hret.
  destruct (analyze_headless_returns rt _ _ _ _ _ _ _ _ _ _ Hp Hret)
    as (defaults' & _ & _ & _ & Hsum & Hlen & Htask).
  assert (Forall (fun r => known_verdict (verdict r)) results) as Hknown.
  { apply Forall_lookup. intros i r Hr. destruct (Htask i r Hr) as (b & w' & _ & Hone).
    exact (_analyze_one_verdict_known rt _ _ _ _ _ _ _ _ _ _ Hone). }
  rewrite Hsum. unfold summarize, _count_verdicts. simpl.
  rewrite (filter_unknown_or_recheck _ Hknown).
  split; [reflexivity |]. split; [rewrite <- Hlen; apply count_partition, Hknown |].
  eapply Forall_impl; [exact Hknown |].
  intros r [H | [H | H]]; rewrite H; discriminate.
Qed.

End ResultView.

Lemma X14_tab_counts_witness :
  exists summary results base_dir job_id,
    fst (analyze_headless Sample.plain (Sample.env Sample.mixed_replies [2; 0; 1])
           Sample.uploads (py "room 101") (Some (py "sk-test")) None None)
    = inr (summary, results, base_dir, job_id)
    /\ _count_verdicts results = (ok summary, ng summary, unknown summary)
    /\ ok summary + ng summary + unknown summary = 3.
Proof.
  destruct (fst (analyze_headless Sample.plain (Sample.env Sample.mixed_replies [2; 0; 1])
                   Sample.uploads (py "room 101") (Some (py "sk-test")) None None))
    as [e | [[[summary results] base_dir] job_id]] eqn:E.
  - vm_compute in E. discriminate E.
  - exists summary, results, base_dir, job_id. split; [reflexivity |].
    destruct (X14_tab_counts Sample.plain (Sample.env Sample.mixed_replies [2; 0; 1])
                Sample.uploads _ _ _ _ _ _ _ _ (Permutation_cons_append [0; 1] 2) E)
      as (Hc & Hs & _).
    split; [exact Hc | exact Hs].
Defined.

(** ** Evidence thumbnails *)

Lemma _evi_card_thumbs_all (d : disk) base_dir results idxs max_thumbs :
  Forall (fun i => exists r, results !! i = Some r /\ index r = i
                             /\ d (path_join base_dir (file r)) <> None) idxs ->
  _evi_card_thumbs d base_dir results idxs max_thumbs
  = map (fun i => (path_join base_dir (default [] (file <$> results !! i)),
                   py "#" ++ fmt_04d i))
        (take max_thumbs idxs).
Proof.
  intros H. unfold _evi_card_thumbs.
  assert (Forall (fun i => exists r, results !! i = Some r /\ index r = i
                             /\ d (path_join base_dir (file r)) <> None)
            (take max_thumbs idxs)) as H'.
  { apply Forall_take, H. }
  clear H. induction H' as [|i l (r & Hr & Hi & Hd) Hl IH]; [reflexivity |].
  cbn [flat_map map]. rewrite IH, Hr. cbn [fmap option_fmap option_map default].
  cbv zeta. rewrite bool_decide_eq_true_2 by exact Hd. rewrite Hi. reflexivity.
Qed.

Section Thumbnails.

Context (rt : Runtime).

(** X15: after a batch whose tasks could all write their file, every index
    in the evidence of an amenity is the position of a result, the result of
    that very image, with the amenity present; and [_evi_card] finds the
    saved image of each of the first [max_thumbs] of them, captioned with the
    index: no thumbnail is skipped. *)
Theorem X15_evidence_thumbnails env files property_name api_key thresholds defaults
    summary results base_dir job_id worlds (d : disk) (k : str) (max_thumbs : nat) :
  Permutation (completion env) (seq 0 (length files)) ->
  (forall i p, i < length files -> writable (task_world env i) p = true) ->
  analyze_headless rt env files property_name api_key thresholds defaults
  = (inr (summary, results, base_dir, job_id), worlds) ->
  (forall p, In p (map fst (flat_map saved worlds)) -> d p <> None) ->
  In k amenities ->
  let idxs := default [] (presence_evidence summary !! k) in
  Forall (fun i => exists r, results !! i = Some r /\ index r = i
                             /\ presence r !! k = Some (PBool true)) idxs
  /\ _evi_card_thumbs d base_dir results idxs max_thumbs
     = map (fun i => (path_join base_dir (default [] (file <$> results !! i)),
                      py "#" ++ fmt_04d i))
           (take max_thumbs idxs).
Proof.
  intros Hp Hwr Hrun Hdisk Hk idxs.
  destruct (analyze_headless_tasks rt _ _ _ _ _ _ _ _ _ _ _ Hp Hrun)
    as (defaults' & _ & Hlen & Hlenw & Htask).
  assert (fst (analyze_headless rt env files property_name api_key thresholds defaults)
          = inr (summary, results, base_dir, job_id)) as Hret by (rewrite Hrun; reflexivity).
  destruct (analyze_headless_positions rt _ _ _ _ _ _ _ _ _ _ Hp Hret) as (Hsum & Hpos & _).
  assert (idxs = evidence_of k results) as Hidxs.
  { unfold idxs. rewrite Hsum. unfold summarize. cbn [presence_evidence].
    rewrite collect_evidence_lookup, bool_decide_eq_true_2 by (apply list_elem_of_In, Hk).
    reflexivity. }
  assert (Forall (fun i => exists r, results !! i = Some r /\ index r = i
                             /\ presence r !! k = Some (PBool true)
                             /\ d (path_join base_dir (file r)) <> None) idxs) as Hall.
  { rewrite Hidxs. unfold evidence_of. apply Forall_forall. intros i Hi.
    apply list_elem_of_In, in_map_iff in Hi as (r & Hri & Hr).
    apply list_elem_of_In, list_elem_of_filter in Hr as [Htrue Hr].
    apply list_elem_of_lookup in Hr as [j Hj].
    pose proof (Hpos j r Hj) as Hjr. rewrite Hri in Hjr. subst j.
    exists r. split; [exact Hj |]. split; [exact Hri |].
    split; [apply is_true_spec, Htrue |].
    destruct (Htask i) as (b & r' & w' & Hb & Hr' & Hw' & Hone);
      [apply lookup_lt_Some in Hj; lia |].
    rewrite Hj in Hr'. injection Hr' as <-.
    destruct (_analyze_one_file rt _ _ _ _ _ _ _ _ _ _ Hone) as (_ & data & size & _ & Hs).
    rewrite Hwr in Hs by (apply lookup_lt_Some in Hb; exact Hb).
    apply Hdisk, in_map_iff. exists (path_join base_dir (file r), data).
    split; [reflexivity |]. apply in_flat_map. exists w'.
    split; [apply list_elem_of_In, list_elem_of_lookup; exists i; exact Hw' |].
    rewrite Hs. apply in_or_app. right. left. reflexivity. }
  split.
  - eapply Forall_impl; [exact Hall |]. intros i (r & H1 & H2 & H3 & _). eauto.
  - apply _evi_card_thumbs_all. eapply Forall_impl; [exact Hall |].
    intros i (r & H1 & H2 & _ & H4). eauto.
Qed.

End Thumbnails.

Lemma disk_of_holds_all written p : In p (map fst written) -> disk_of written p <> None.
Proof.
  intros Hin. unfold disk_of.
  destruct (find _ (rev written)) as [kv |] eqn:E; [discriminate |].
  exfalso. apply in_map_iff in Hin as (kv & <- & Hin).
  apply in_rev in Hin. apply (find_none _ _ E kv) in Hin.
  apply bool_decide_eq_false in Hin. apply Hin. reflexivity.
Qed.

(** The heater is on the first and the third of three uploads. *)
Lemma X15_evidence_thumbnails_witness :
  exists summary results base_dir job_id worlds,
    analyze_headless Sample.plain (Sample.env Sample.mixed_replies [2; 0; 1])
      Sample.uploads (py "room 101") (Some (py "sk-test")) None None
    = (inr (summary, results, base_dir, job_id), worlds)
    /\ _evi_card_thumbs (disk_of (flat_map saved worlds)) base_dir results
         (default [] (presence_evidence summary !! py "heater")) 4
       = [(py "/tmp/analyze_x/0000_a.jpg", py "#0000");
          (py "/tmp/analyze_x/0002_c.jpg", py "#0002")].
Proof.
  assert (match analyze_headless Sample.plain (Sample.env Sample.mixed_replies [2; 0; 1])
                  Sample.uploads (py "room 101") (Some (py "sk-test")) None None with
          | (inr (summary, results, base_dir, _), _) =>
              map (fun i => (path_join base_dir (default [] (file <$> results !! i)),
                             py "#" ++ fmt_04d i))
                  (take 4 (default [] (presence_evidence summary !! py "heater")))
              = [(py "/tmp/analyze_x/0000_a.jpg", py "#0000");
                 (py "/tmp/analyze_x/0002_c.jpg", py "#0002")]
          | _ => False
          end) as Hfacts by (vm_compute; reflexivity).
  destruct (analyze_headless Sample.plain (Sample.env Sample.mixed_replies [2; 0; 1])
              Sample.uploads (py "room 101") (Some (py "sk-test")) None None)
    as [[e | [[[summary results] base_dir] job_id]] worlds] eqn:E; [destruct Hfacts |].
  exists summary, results, base_dir, job_id, worlds. split; [reflexivity |].
  rewrite <- Hfacts.
  apply (X15_evidence_thumbnails Sample.plain (Sample.env Sample.mixed_replies [2; 0; 1])
           Sample.uploads _ _ _ _ _ _ _ _ _ (disk_of (flat_map saved worlds))
           (py "heater") 4 (Permutation_cons_append [0; 1] 2) (fun _ _ _ => eq_refl) E
           (disk_of_holds_all _)).
  right. right. left. reflexivity.
Defined.

(** ** Recording a run *)

Lemma perform_done env e tr : fault env e = None -> perform env e tr = (inr tt, tr ++ [e]).
Proof. intros H. unfold perform. rewrite H. reflexivity. Qed.

Lemma perform_returns env e tr tr' :
  perform env e tr = (inr tt, tr') -> fault env e = None /\ tr' = tr ++ [e].
Proof.
  unfold perform. destruct (fault env e); [discriminate |].
  intros H. injection H as <-. split; reflexivity.
Qed.

Lemma executemany_returns env rows tr tr' :
  executemany env rows tr = (inr tt, tr') -> tr' = tr ++ rows.
Proof.
  revert tr. induction rows as [|row rows IH]; intros tr; simpl.
  - intros H. injection H as <-. rewrite app_nil_r. reflexivity.
  - unfold mbind, service_bind. destruct (perform env row tr) as [[e | []] tr1] eqn:E;
      [discriminate |].
    apply perform_returns in E as [_ ->]. intros H. apply IH in H.
    rewrite H, <- app_assoc. reflexivity.
Qed.

Lemma write_job_results_returns env job_id results tr tr' :
  write_job_results env job_id results tr = (inr tt, tr') ->
  tr' = tr ++ map (fun r => ResultWritten job_id (Z.of_nat (index r)) (file r) (verdict r)
                              (stage r)) results.
Proof.
  destruct results as [|r results].
  - simpl. intros H. injection H as <-. rewrite app_nil_r. reflexivity.
  - apply executemany_returns.
Qed.

Section FailedBatch.

Context (rt : Runtime).

(** A future that failed in decoding fails the batch. *)
Lemma analyze_headless_decode_error env files property_name api_key thresholds defaults
    j b e :
  files !! j = Some b ->
  In j (completion env) ->
  load_and_resize rt (snd (normalize_blob j b)) 960 = inl e ->
  exists e',
    fst (analyze_headless rt env files property_name api_key thresholds defaults) = inl e'.
Proof.
  intros Hj Hin Hdec. unfold analyze_headless.
  destruct (with_global_whitelist _ _) as [e0 | defaults']; [eauto |].
  destruct (mkdtemp env) as [e0 | base_dir]; [eauto |].
  cbn [fst].
  match goal with
  | |- context [collect ?fs ?order] =>
      destruct (collect_inl fs order j e Hin) as [e' He']
  end.
  - rewrite map_fmap, list_lookup_fmap, run_tasks_lookup, Hj. simpl.
    rewrite (_analyze_one_decode_error rt _ _ _ _ _ _ _ _ e Hdec). reflexivity.
  - exists e'. rewrite He'. reflexivity.
Qed.

End FailedBatch.

Section Recording.

Context (rt : Runtime).


(** X17: when one upload of the batch does not decode,
    [run_analysis_and_record] raises what [analyze_headless] raises and has
    recorded nothing: no usage is added for the images that were analysed, no
    log is saved and no row is written; the same holds for every exception of
    the analysis. *)
Theorem X17_failed_run_not_recorded (env : ServiceEnv) uid prop_name image_blobs openai_key
    thresholds defaults tr j b e :
  image_blobs !! j = Some b ->
  In j (completion (batch env)) ->
  load_and_resize rt (snd (normalize_blob j b)) 960 = inl e ->
  (exists e',
     fst (analyze_headless rt (batch env) image_blobs prop_name openai_key
            (Some thresholds) (Some defaults)) = inl e'
     /\ run_analysis_and_record rt env uid prop_name image_blobs openai_key thresholds
          defaults tr
        = (inl e', tr))
  /\ (forall env' uid' prop' blobs' key' th' df' tr' x,
        fst (analyze_headless rt (batch env') blobs' prop' key' (Some th') (Some df'))
        = inl x ->
        run_analysis_and_record rt env' uid' prop' blobs' key' th' df' tr' = (inl x, tr')).
Proof.
  intros Hj Hin Hdec.
  assert (forall env' uid' prop' blobs' key' th' df' tr' x,
            fst (analyze_headless rt (batch env') blobs' prop' key' (Some th') (Some df'))
            = inl x ->
            run_analysis_and_record rt env' uid' prop' blobs' key' th' df' tr'
            = (inl x, tr')) as Hany.
  { intros env' uid' prop' blobs' key' th' df' tr' x H.
    unfold run_analysis_and_record. rewrite H. reflexivity. }
  split; [| exact Hany].
  destruct (analyze_headless_decode_error rt (batch env) image_blobs prop_name openai_key
              (Some thresholds) (Some defaults) j b e Hj Hin Hdec) as [e' He'].
  exists e'. split; [exact He' | apply Hany, He'].
Qed.

(** X18: the usage is added before the log is saved and the job row is
    written after: when saving the log raises, the run is already counted in
    the usage of the month, but it has no job row and no result row, and the
    caller gets the exception instead of the results. *)
Theorem X18_log_failure_after_usage (env : ServiceEnv) uid prop_name image_blobs openai_key
    thresholds defaults tr summary results base_dir job_id e :
  fst (analyze_headless rt (batch env) image_blobs prop_name openai_key
         (Some thresholds) (Some defaults))
  = inr (summary, results, base_dir, job_id) ->
  (forall t p y i r u, fault env (UsageAdded t p y i r u) = None) ->
  (forall path rec, fault env (LogSaved path rec) = Some e) ->
  let ym := month_key (fst (month_clock env)) (snd (month_clock env)) in
  run_analysis_and_record rt env uid prop_name image_blobs openai_key thresholds defaults tr
  = (inl e,
     tr ++ [UsageAdded uid prop_name ym (Z.of_nat (length image_blobs)) 1 (usage_clock env)]).
Proof.
  intros Hret Husage Hlog ym. unfold run_analysis_and_record. rewrite Hret.
  cbv zeta. unfold mbind, service_bind, add_monthly_usage, save_run_log. cbv zeta.
  rewrite perform_done by apply Husage.
  unfold perform. rewrite Hlog.
  rewrite (Z.max_r 0 (Z.of_nat (length image_blobs))) by lia. reflexivity.
Qed.

End Recording.

(** An upload that is no image after a valid one: nothing is recorded. *)
Lemma X17_failed_run_not_recorded_witness :
  exists e',
    run_analysis_and_record Sample.plain
      (sample_service (Sample.env Sample.mixed_replies [0; 1]) (fun _ => None))
      (py "alice") (py "room 101")
      [NamedBytes (Some (py "a.jpg")) Sample.jpeg; NamedBytes (Some (py "b.jpg")) []]
      (Some (py "sk-test")) ∅ ∅ []
    = (inl e', []).
Proof.
  destruct (X17_failed_run_not_recorded Sample.plain
              (sample_service (Sample.env Sample.mixed_replies [0; 1]) (fun _ => None))
              (py "alice") (py "room 101")
              [NamedBytes (Some (py "a.jpg")) Sample.jpeg; NamedBytes (Some (py "b.jpg")) []]
              (Some (py "sk-test")) ∅ ∅ [] 1 (NamedBytes (Some (py "b.jpg")) [])
              (Exn "UnidentifiedImageError" (py "cannot identify image file")))
    as [(e' & _ & Hrun) _].
  - reflexivity.
  - right. left. reflexivity.
  - vm_compute. reflexivity.
  - exists e'. exact Hrun.
Defined.

(** The log cannot be saved: one effect, the usage. *)
Lemma X18_log_failure_after_usage_witness :
  run_analysis_and_record Sample.plain
    (sample_service (Sample.env Sample.mixed_replies [2; 0; 1]) log_denied)
    (py "alice") (py "room 101") Sample.uploads (Some (py "sk-test")) ∅ ∅ []
  = (inl (Exn "PermissionError" (py "[Errno 13] Permission denied")),
     [UsageAdded (py "alice") (py "room 101") (py "202401") 3 1 (py "2024-01-01T09:00:07")]).
Proof.
  destruct (fst (analyze_headless Sample.plain (Sample.env Sample.mixed_replies [2; 0; 1])
                   Sample.uploads (py "room 101") (Some (py "sk-test")) (Some ∅) (Some ∅)))
    as [e | [[[summary results] base_dir] job_id]] eqn:E.
  - vm_compute in E. discriminate E.
  - apply (X18_log_failure_after_usage Sample.plain
             (sample_service (Sample.env Sample.mixed_replies [2; 0; 1]) log_denied)
             (py "alice") (py "room 101") Sample.uploads (Some (py "sk-test")) ∅ ∅ []
             summary results base_dir job_id _ E); reflexivity.
Defined.

(** ** The key of a month *)

Lemma dec_digits_length fuel n acc k :
  (n < 10 ^ N.of_nat (S k))%N ->
  length (dec_digits fuel n acc) <= S k + length acc.
Proof.
  revert n acc k. induction fuel as [|fuel IH]; intros n acc k Hn; simpl; [lia |].
  destruct (n <? 10)%N eqn:E; [simpl; lia |].
  apply N.ltb_ge in E. destruct k as [|k].
  - change (10 ^ N.of_nat 1)%N with 10%N in Hn. lia.
  - assert (n / 10 < 10 ^ N.of_nat (S k))%N as Hq.
    { apply N.Div0.div_lt_upper_bound.
      rewrite <- N.pow_succ_r', <- Nat2N.inj_succ. exact Hn. }
    specialize (IH (n / 10)%N ((48 + n mod 10)%N :: acc) k Hq). simpl in IH. lia.
Qed.

Lemma fmt_04d_length i : (N.of_nat i < 10000)%N -> length (fmt_04d i) = 4.
Proof.
  intros Hi. unfold fmt_04d. cbv zeta. rewrite length_app, length_replicate.
  assert (N.of_nat i < 10 ^ N.of_nat 4)%N as Hlt
    by (change (10 ^ N.of_nat 4)%N with 10000%N; lia).
  pose proof (dec_digits_length (S i) (N.of_nat i) [] 3 Hlt) as H.
  change (length (@nil N)) with 0 in H.
  set (d := dec_digits (S i) (N.of_nat i) []) in *. lia.
Qed.

Lemma fmt_02d_length i : i <= 99 -> length (fmt_02d i) = 2.
Proof.
  intros Hi. unfold fmt_02d. cbv zeta. rewrite length_app, length_replicate.
  assert (N.of_nat i < 10 ^ N.of_nat 2)%N as Hlt
    by (change (10 ^ N.of_nat 2)%N with 100%N; lia).
  pose proof (dec_digits_length (S i) (N.of_nat i) [] 1 Hlt) as H.
  change (length (@nil N)) with 0 in H.
  set (d := dec_digits (S i) (N.of_nat i) []) in *. lia.
Qed.

Lemma fmt_02d_digits i : Forall (fun c => is_digit c = true) (fmt_02d i).
Proof.
  unfold fmt_02d. cbv zeta. apply Forall_app. split.
  - apply Forall_replicate. reflexivity.
  - apply dec_digits_digits. constructor.
Qed.

Lemma fmt_02d_value i : digits_value (fmt_02d i) = N.of_nat i.
Proof.
  unfold fmt_02d, digits_value. cbv zeta. rewrite fold_left_app.
  assert (forall k, fold_left (fun a c => (a * 10 + (c - 48))%N) (replicate k 48%N) 0%N
                    = 0%N) as ->.
  { induction k as [|k IH]; [reflexivity | exact IH]. }
  rewrite dec_digits_value by lia. reflexivity.
Qed.

(** X19: for a year of at most four digits and a month, [month_key] gives
    six ASCII digits, the form the monthly report of the console asks for,
    and different months have different keys. *)
Theorem X19_month_key_format year month :
  (N.of_nat year < 10000)%N -> month <= 12 ->
  length (month_key year month) = 6
  /\ Forall (fun c => is_digit c = true) (month_key year month)
  /\ (forall year' month', (N.of_nat year' < 10000)%N -> month' <= 12 ->
        month_key year month = month_key year' month' ->
        year = year' /\ month = month').
Proof.
  intros Hy Hm. unfold month_key. split; [| split].
  - rewrite length_app, fmt_04d_length, fmt_02d_length by (assumption || lia). reflexivity.
  - apply Forall_app. split; [apply fmt_04d_digits | apply fmt_02d_digits].
  - intros year' month' Hy' Hm' H.
    apply app_inj_1 in H as [H1 H2];
      [| rewrite !fmt_04d_length by assumption; reflexivity].
    split; [apply fmt_04d_inj, H1 |].
    apply Nat2N.inj. rewrite <- !fmt_02d_value, H2. reflexivity.
Qed.

Lemma X19_month_key_format_witness :
  length (month_key 2025 9) = 6 /\ month_key 2025 9 = py "202509".
Proof.
  split; [| reflexivity].
  apply (X19_month_key_format 2025 9); lia.
Defined.

(** ** What a task asks of the remote model *)

Lemma asked_nothing w w' data :
  requests w' = requests w -> sleeps w' = sleeps w -> asked w w' 0 data.
Proof. intros H1 H2. split; simpl; rewrite app_nil_r; assumption. Qed.

Lemma nano_response_asked (nano : OpenAIClient) (data : bytes) (w : world) :
  exists k, k <= 3 /\ asked w (snd (nano_response nano data w)) k data.
Proof.
  destruct (available nano) eqn:Hav.
  - unfold nano_response, try_except. rewrite Hav.
    rewrite (analyze_one_course nano data w Hav).
    destruct (remote w (length (requests w))) as [e1 | d1];
      [| exists 1; split; [lia | split; reflexivity]].
    destruct (remote w (length (requests w) + 1)) as [e2 | d2];
      [| exists 2; split; [lia | split; reflexivity]].
    destruct (remote w (length (requests w) + 2)) as [e3 | d3];
      exists 3; (split; [lia | split; reflexivity]).
  - rewrite (nano_response_unavailable nano data w Hav).
    exists 0. split; [lia | apply asked_nothing; reflexivity].
Qed.

Section Asked.

Context (rt : Runtime).

Lemma _analyze_one_asked i b nano mini thresholds defaults base_dir w :
  exists k data,
    k <= 3 /\ asked w (snd (_analyze_one rt i b nano mini thresholds defaults base_dir w)) k data
    /\ (0 < k -> exists size,
          load_and_resize rt (snd (normalize_blob i b)) 960 = inr (data, size)).
Proof.
  unfold _analyze_one. destruct (normalize_blob i b) as [src_name raw]. cbn [snd].
  unfold mbind, task_bind, lift.
  destruct (load_and_resize rt raw 960) as [e | [data size]];
    [exists 0, []; split; [lia | split; [apply asked_nothing; reflexivity | lia]] |].
  destruct (Image_open_RGB rt data) as [e | img];
    [exists 0, []; split; [lia | split; [apply asked_nothing; reflexivity | lia]] |].
  destruct (nano_response_asked nano data w) as (k & Hk & Hreq & Hsl).
  exists k, data. split; [exact Hk |]. split; [| intros _; exists size; reflexivity].
  destruct (nano_response nano data w) as [[e | d] w1]; [split; assumption |].
  simpl in Hreq, Hsl.
  destruct (as_dict d) as [e | m]; [split; assumption |].
  destruct (response_scores rt m) as [e | sc]; [split; assumption |].
  destruct (py_float rt (conf_th_setting thresholds defaults)) as [e | th];
    [split; assumption |].
  match goal with
  | |- context [force_recheck_by_text ?v ?c ?ws] =>
      destruct (force_recheck_by_text v c ws) as [e | vd]; [split; assumption |]
  end.
  unfold write_file_quietly. simpl. destruct (writable w1 _); split; assumption.
Qed.

(** X20: however a batch ends, each of its tasks has sent at most three
    requests, all with the re-encoded image of its own upload, and has waited
    1 after the first and 2 after the second when these were not the last;
    so a batch of [n] images costs at most [3 n] requests. *)
Theorem X20_requests_bounded env files property_name api_key thresholds defaults :
  let out := analyze_headless rt env files property_name api_key thresholds defaults in
  length (snd out) <= length files
  /\ (forall i w', snd out !! i = Some w' ->
        exists b k data,
          files !! i = Some b /\ k <= 3
          /\ asked (task_world env i) w' k data
          /\ (0 < k -> exists size,
                load_and_resize rt (snd (normalize_blob i b)) 960 = inr (data, size))).
Proof.
  cbv zeta. unfold analyze_headless.
  destruct (with_global_whitelist _ _) as [e | defaults'];
    [split; [simpl; lia | intros i w' H; destruct i; discriminate H] |].
  destruct (mkdtemp env) as [e | base_dir];
    [split; [simpl; lia | intros i w' H; destruct i; discriminate H] |].
  cbn [snd]. split.
  - rewrite length_map. unfold run_tasks. rewrite length_imap. lia.
  - intros i w' Hw. rewrite map_fmap, list_lookup_fmap, run_tasks_lookup in Hw.
    destruct (files !! i) as [b |]; [| discriminate Hw]. simpl in Hw.
    injection Hw as <-. exists b.
    destruct (_analyze_one_asked i b (OpenAIClient_init (Some (py "gpt-5-nano")) api_key)
                (OpenAIClient_init (Some []) api_key) (default ∅ thresholds) defaults'
                base_dir (task_world env i)) as (k & data & Hk & Hask & Hdata).
    exists k, data. split; [reflexivity |]. split; [exact Hk |].
    split; [exact Hask | exact Hdata].
Qed.

End Asked.

(** The remote times out on every request: three requests, and no more. *)
Lemma X20_requests_bounded_witness :
  exists w',
    snd (analyze_headless Sample.plain
           (Sample.env (fun _ _ => inl Sample.timeout_error) [0])
           [RawBytes Sample.jpeg] (py "room 101") (Some (py "sk-test")) None None) !! 0
    = Some w'
    /\ length (requests w') <= 3
    /\ requests w' = [Sample.jpeg; Sample.jpeg; Sample.jpeg].
Proof.
  destruct (snd (analyze_headless Sample.plain
                   (Sample.env (fun _ _ => inl Sample.timeout_error) [0])
                   [RawBytes Sample.jpeg] (py "room 101") (Some (py "sk-test")) None None)
            !! 0) as [w' |] eqn:E; [| vm_compute in E; discriminate E].
  exists w'. split; [reflexivity |].
  destruct (X20_requests_bounded Sample.plain
              (Sample.env (fun _ _ => inl Sample.timeout_error) [0])
              [RawBytes Sample.jpeg] (py "room 101") (Some (py "sk-test")) None None)
    as [_ H].
  destruct (H 0 w' E) as (b & k & data & _ & Hk & [Hreq _] & _).
  split.
  - rewrite Hreq, length_app, length_replicate. simpl. exact Hk.
  - vm_compute in E. injection E as <-. reflexivity.
Defined.

(** ** Saving is best effort *)

Lemma nano_response_same (nano : OpenAIClient) (data : bytes) (w1 w2 : world) :
  remote w1 = remote w2 -> requests w1 = requests w2 -> sleeps w1 = sleeps w2 ->
  fst (nano_response nano data w1) = fst (nano_response nano data w2)
  /\ requests (snd (nano_response nano data w1)) = requests (snd (nano_response nano data w2))
  /\ sleeps (snd (nano_response nano data w1)) = sleeps (snd (nano_response nano data w2)).
Proof.
  intros Hr Hq Hs. destruct (available nano) eqn:Hav.
  - unfold nano_response, try_except. rewrite Hav.
    rewrite (analyze_one_course nano data w1 Hav), (analyze_one_course nano data w2 Hav).
    rewrite Hr, Hq.
    destruct (remote w2 (length (requests w2))) as [e1 | d1];
      [| simpl; rewrite Hq, Hs; repeat split; reflexivity].
    destruct (remote w2 (length (requests w2) + 1)) as [e2 | d2];
      [| simpl; rewrite Hq, Hs; repeat split; reflexivity].
    destruct (remote w2 (length (requests w2) + 2)) as [e3 | d3];
      simpl; rewrite Hq, Hs; repeat split; reflexivity.
  - rewrite !(nano_response_unavailable nano data _ Hav). simpl. auto.
Qed.

Section BestEffort.

Context (rt : Runtime).

(** X21: saving the image is best effort.  Two runs of a task that differ
    only in which paths can be written end with the same result, or the same
    exception, after the same requests and waits; and where nothing can be
    written, nothing is saved and the result is still returned. *)
Theorem X21_saving_is_best_effort i b nano mini thresholds defaults base_dir
    (w : world) (permissions : str -> bool) :
  let w2 := World (remote w) permissions (requests w) (sleeps w) (saved w) in
  let out := _analyze_one rt i b nano mini thresholds defaults base_dir w in
  let out2 := _analyze_one rt i b nano mini thresholds defaults base_dir w2 in
  fst out2 = fst out
  /\ requests (snd out2) = requests (snd out)
  /\ sleeps (snd out2) = sleeps (snd out)
  /\ ((forall p, permissions p = false) -> saved (snd out2) = saved w).
Proof.
  cbv zeta. unfold _analyze_one. destruct (normalize_blob i b) as [src_name raw].
  unfold mbind, task_bind, lift.
  destruct (load_and_resize rt raw 960) as [e | [data size]];
    [repeat split; reflexivity |].
  destruct (Image_open_RGB rt data) as [e | img]; [repeat split; reflexivity |].
  destruct (nano_response_same nano data
              (World (remote w) permissions (requests w) (sleeps w) (saved w)) w
              eq_refl eq_refl eq_refl) as (Hf & Hq & Hs).
  destruct (nano_response_saved nano data
              (World (remote w) permissions (requests w) (sleeps w) (saved w)))
    as [Hsv Hwr].
  destruct (nano_response nano data
              (World (remote w) permissions (requests w) (sleeps w) (saved w)))
    as [res2 w2].
  destruct (nano_response nano data w) as [res1 w1].
  simpl in Hf, Hq, Hs, Hsv, Hwr. subst res2.
  assert (forall e : exn,
            (inl e, w2).1 = (@inl exn ImageResult e, w1).1
            /\ requests (@inl exn ImageResult e, w2).2 = requests (@inl exn ImageResult e, w1).2
            /\ sleeps (@inl exn ImageResult e, w2).2 = sleeps (@inl exn ImageResult e, w1).2
            /\ ((forall p, permissions p = false) ->
                saved (@inl exn ImageResult e, w2).2 = saved w)) as Hearly.
  { intros e. split; [reflexivity |]. split; [exact Hq |]. split; [exact Hs |].
    intros _. exact Hsv. }
  destruct res1 as [e | d]; [apply Hearly |].
  destruct (as_dict d) as [e | m]; [apply Hearly |].
  destruct (response_scores rt m) as [e | sc]; [apply Hearly |].
  destruct (py_float rt (conf_th_setting thresholds defaults)) as [e | th];
    [apply Hearly |].
  match goal with
  | |- context [force_recheck_by_text ?v ?c ?ws] =>
      destruct (force_recheck_by_text v c ws) as [e | vd]; [apply Hearly |]
  end.
  unfold write_file_quietly. simpl.
  split; [reflexivity |].
  split; [destruct (writable w2 _), (writable w1 _); exact Hq |].
  split; [destruct (writable w2 _), (writable w1 _); exact Hs |].
  intros Hno. rewrite Hwr, Hno. exact Hsv.
Qed.

End BestEffort.

Lemma X21_saving_is_best_effort_witness :
  let w := Sample.world_of (fun _ => inr Sample.good_reply) in
  let out2 :=
    _analyze_one Sample.plain 3 (RawBytes Sample.jpeg) Sample.with_key Sample.with_key
      ∅ ∅ (py "/tmp/analyze_x")
      (World (remote w) (fun _ => false) (requests w) (sleeps w) (saved w)) in
  verdict <$> fst out2 = inr v_ng /\ saved (snd out2) = [].
Proof.
  cbv zeta.
  destruct (X21_saving_is_best_effort Sample.plain 3 (RawBytes Sample.jpeg) Sample.with_key
              Sample.with_key ∅ ∅ (py "/tmp/analyze_x")
              (Sample.world_of (fun _ => inr Sample.good_reply)) (fun _ => false))
    as (Hf & _ & _ & Hsv).
  split; [rewrite Hf; vm_compute; reflexivity | apply Hsv; reflexivity].
Defined.

(** ** Uploads that cannot be read *)

Section Unreadable.

Context (rt : Runtime).

(** X22: an upload whose [read()] raises, or that is neither a pair, nor
    bytes, nor readable, is analysed as the empty byte string.  Where the
    empty byte string is no image, the task raises what the decoder raises,
    without a request, and with it the batch, once the future is met. *)
Theorem X22_unreadable_upload env files property_name api_key thresholds defaults
    (j : nat) (b : blob) (e : exn) :
  files !! j = Some b ->
  In j (completion env) ->
  b = OtherBlob \/ (exists x name, b = Readable (inl x) name) ->
  Image_open_RGB rt [] = inl e ->
  normalize_blob j b = (fmt_04d j ++ py ".jpg", [])
  /\ (forall nano mini th df base_dir w,
        _analyze_one rt j b nano mini th df base_dir w = (inl e, w))
  /\ exists e',
       fst (analyze_headless rt env files property_name api_key thresholds defaults) = inl e'.
Proof.
  intros Hj Hin Hb Hopen.
  assert (normalize_blob j b = (fmt_04d j ++ py ".jpg", [])) as Hn.
  { destruct Hb as [-> | (x & name & ->)]; [reflexivity |]. destruct name; reflexivity. }
  assert (load_and_resize rt (snd (normalize_blob j b)) 960 = inl e) as Hdec.
  { rewrite Hn. unfold load_and_resize. cbn [snd]. rewrite Hopen. reflexivity. }
  split; [exact Hn |]. split.
  - intros nano mini th df base_dir w. apply _analyze_one_decode_error, Hdec.
  - exact (analyze_headless_decode_error rt _ _ _ _ _ _ j b e Hj Hin Hdec).
Qed.

End Unreadable.

(** A stream that cannot be read, after a valid upload. *)
Lemma X22_unreadable_upload_witness :
  exists e',
    fst (analyze_headless Sample.plain
           (Sample.env (fun _ _ => inr Sample.good_reply) [0; 1])
           [NamedBytes (Some (py "a.jpg")) Sample.jpeg;
            Readable (inl (Exn "OSError" (py "read failed"))) (Some (py "b.jpg"))]
           (py "room 101") (Some (py "sk-test")) None None) = inl e'.
Proof.
  apply (X22_unreadable_upload Sample.plain _ _ _ _ _ _ 1
           (Readable (inl (Exn "OSError" (py "read failed"))) (Some (py "b.jpg")))
           (Exn "UnidentifiedImageError" (py "cannot identify image file"))).
  - reflexivity.
  - right. left. reflexivity.
  - right. eauto.
  - reflexivity.
Defined.

(** ** The score stage in the worker *)

Lemma first_reply_answered (nano : OpenAIClient) (data : bytes) (w : world) (d : pyval) :
  available nano = true -> first_reply w d ->
  exists w1, nano_response nano data w = (inr d, w1).
Proof.
  intros Hav (k & Hk & Hfail & Hok).
  unfold nano_response, try_except. rewrite Hav.
  rewrite (analyze_one_course nano data w Hav).
  destruct k as [|[|[|k]]]; [| | | lia].
  - rewrite Nat.add_0_r in Hok. rewrite Hok. eauto.
  - destruct (Hfail 0) as [e0 He0]; [lia |]. rewrite Nat.add_0_r in He0.
    rewrite He0, Hok. eauto.
  - destruct (Hfail 0) as [e0 He0]; [lia |]. rewrite Nat.add_0_r in He0.
    destruct (Hfail 1) as [e1 He1]; [lia |].
    rewrite He0, He1, Hok. eauto.
Qed.

Lemma setting_in_force_read thresholds defaults v :
  setting_in_force thresholds defaults v -> conf_th_setting thresholds defaults = v.
Proof.
  unfold conf_th_setting.
  intros [Hd | [[Hd Ht] | (Hd & Ht & ->)]]; rewrite Hd; try rewrite Ht; reflexivity.
Qed.

Section ScoreStageFacts.

Context (rt : Runtime).

Lemma float_items_spec (l : list (str * pyval)) (sc : gmap str float) :
  (forall k v, (k, v) ∈ l -> exists f, sc !! k = Some f /\ py_float rt v = inr f) ->
  exists l',
    float_items rt l = inr l'
    /\ l'.*1 = l.*1
    /\ (forall k f, (k, f) ∈ l' -> sc !! k = Some f).
Proof.
  induction l as [|[k v] l IH]; intros H.
  - exists []. split; [reflexivity |]. split; [reflexivity |].
    intros k f Hin. apply elem_of_nil in Hin. destruct Hin.
  - destruct (H k v) as (f & Hsc & Hf); [left |].
    destruct IH as (l' & Hl' & Hkeys & Hvals);
      [intros k' v' Hin; apply H; right; exact Hin |].
    exists ((k, f) :: l'). split; [simpl; rewrite Hf, Hl'; reflexivity |].
    split; [rewrite !fmap_cons, Hkeys; reflexivity |].
    intros k' f' Hin. apply elem_of_cons in Hin as [Heq | Hin].
    + injection Heq as -> ->. exact Hsc.
    + apply Hvals, Hin.
Qed.

(** The scores of the result are the scores of the reply, each converted. *)
Lemma response_scores_converted (m raw : gmap str pyval) (sc : gmap str float) :
  reply_scores m raw -> converted rt raw sc -> response_scores rt m = inr sc.
Proof.
  intros [Hm | [Hm ->]] Hconv; unfold response_scores.
  - rewrite Hm.
    destruct (float_items_spec (map_to_list raw) sc) as (l' & -> & Hkeys & Hvals).
    { intros k v Hin. apply elem_of_map_to_list in Hin.
      specialize (Hconv k). rewrite Hin in Hconv.
      destruct (sc !! k) as [f |]; [eauto | destruct Hconv]. }
    cbn [mbind result_bind mret result_ret]. f_equal.
    assert (NoDup l'.*1) as Hnd by (rewrite Hkeys; apply NoDup_fst_map_to_list).
    apply map_eq. intros k.
    destruct (sc !! k) as [f |] eqn:Esc.
    + specialize (Hconv k). rewrite Esc in Hconv.
      destruct (raw !! k) as [v |] eqn:Eraw; [| destruct Hconv].
      assert (k ∈ l'.*1) as Hk.
      { rewrite Hkeys. apply list_elem_of_fmap. exists (k, v).
        split; [reflexivity | apply elem_of_map_to_list, Eraw]. }
      apply list_elem_of_fmap in Hk as ([k' f'] & -> & Hin). simpl.
      pose proof (Hvals _ _ Hin) as Hf. simpl in Esc. rewrite Esc in Hf.
      injection Hf as <-. apply elem_of_list_to_map_1; assumption.
    + apply not_elem_of_list_to_map_1. rewrite Hkeys. intros Hk.
      apply list_elem_of_fmap in Hk as ([k' v] & -> & Hin).
      apply elem_of_map_to_list in Hin. simpl in Esc.
      specialize (Hconv k'). rewrite Hin, Esc in Hconv. destruct Hconv.
  - assert (sc = ∅) as ->.
    { apply map_empty. intros k. specialize (Hconv k). rewrite lookup_empty in Hconv.
      destruct (sc !! k); [destruct Hconv | reflexivity]. }
    destruct (m !! py "scores") as [[| | | | | |x] |]; try reflexivity.
    destruct (Hm x eq_refl).
Qed.

(** A task whose image decodes and whose request is answered with the
    mapping [m] returns a result with the scores of [m], judged at the
    configured threshold. *)
Lemma _analyze_one_judges i b nano mini thresholds defaults base_dir w data img m raw sc t ws :
  decodes rt i b data img ->
  available nano = true ->
  first_reply w (PDict m) ->
  reply_scores m raw ->
  converted rt raw sc ->
  py_float rt (conf_th_setting thresholds defaults) = inr t ->
  recheck_setting thresholds = PList (map PStr ws) ->
  exists r w',
    _analyze_one rt i b nano mini thresholds defaults base_dir w = (inr r, w')
    /\ index r = i
    /\ scores r = sc
    /\ comments r = response_comments rt m
    /\ judged_at rt t sc ws defaults r.
Proof.
  intros Hdec Hav Hreply Hraw Hconv Hth Hws.
  destruct (first_reply_answered nano data w (PDict m) Hav Hreply) as [w1 Hn].
  pose proof (response_scores_converted m raw sc Hraw Hconv) as Hsc.
  destruct (_analyze_one_runs rt i b nano mini thresholds defaults base_dir w data img
              (PDict m) w1 m sc t
              (if any_word_in ws (join (py " ") (response_comments rt m)) then v_unknown
               else refine_verdict_by_text (score_verdict t sc) (response_comments rt m)
                      (ok_whitelist_of rt defaults))
              Hdec Hn eq_refl Hsc Hth)
    as (r & w' & Hrun & Hi & _ & Hs & Hc & _ & _ & Hv & _).
  { rewrite Hws. apply force_recheck_words. }
  exists r, w'. split; [exact Hrun |]. split; [exact Hi |]. split; [exact Hs |].
  split; [exact Hc |].
  exists (score_verdict t sc). destruct verdicts_distinct as (Hd & _).
  split; [| split; [| split]].
  - destruct (score_verdict_cases t sc) as [[H ->] | [H ->]]; split; intros; congruence.
  - destruct (score_verdict_cases t sc) as [[H ->] | [H ->]]; split; intros;
      congruence || contradiction.
  - rewrite Hv, Hc. reflexivity.
  - intros Htxt. rewrite Hv. rewrite Hc in Htxt. rewrite Htxt, any_word_in_nil.
    apply refine_verdict_no_text. exact Htxt.
Qed.

(** The worker reads [thresholds] for the threshold setting and the recheck
    words only. *)
Lemma _analyze_one_thresholds i b nano mini th1 th2 defaults base_dir w :
  conf_th_setting th1 defaults = conf_th_setting th2 defaults ->
  th1 !! py "RECHECK_WHITELIST" = th2 !! py "RECHECK_WHITELIST" ->
  _analyze_one rt i b nano mini th1 defaults base_dir w
  = _analyze_one rt i b nano mini th2 defaults base_dir w.
Proof. intros H1 H2. unfold _analyze_one. rewrite H1, H2. reflexivity. Qed.

Lemma converted_empty : converted rt ∅ ∅.
Proof. intros k. rewrite !lookup_empty. exact I. Qed.

Lemma converted_insert raw sc k v f :
  converted rt raw sc -> py_float rt v = inr f ->
  converted rt (<[k := v]> raw) (<[k := f]> sc).
Proof.
  intros H Hf k'. destruct (decide (k = k')) as [<- | Hne].
  - rewrite !lookup_insert_eq. exact Hf.
  - rewrite !lookup_insert_ne by exact Hne. apply H.
Qed.



End ScoreStageFacts.

Lemma sample_decodes i :
  decodes Sample.plain i (RawBytes Sample.jpeg) Sample.jpeg Sample.jpeg.
Proof. exists (640, 480). split; reflexivity. Qed.

Lemma sample_first_reply (d : pyval) : first_reply (Sample.world_of (fun _ => inr d)) d.
Proof. exists 0. split; [lia |]. split; [intros j Hj; lia | reflexivity]. Qed.


